(** * GardenPi ADC daemon: request codec, connection server and lifecycle

    A shallow embedding of [PiController/adc-daemon/adc-daemon.py] and of
    its client [PiController/adc-daemon/adc.py].  The daemon owns an
    eight-channel ADC and answers one voltage query per Unix-socket
    connection; the client asks for one channel or all eight, once or in a
    loop.  Python values are modelled as follows:

    - [bytes] is a list of [Byte.byte]; [str] is a list of Unicode code
      points (each a [Z]); text the daemon itself produces (replies, log
      messages) is ASCII and is kept as a [string];
    - [int] is [Z], [float] is the IEEE-754 binary64 specification type
      [spec_float];
    - the module globals and the outside world (file system, log sinks,
      the ADC, the server socket) form one explicit state threaded through
      a state-and-exception monad;
    - the file system is a finite map from paths to file nodes. *)

From Stdlib Require Import ZArith List String Ascii Bool Lia.
From Stdlib Require Import Decimal DecimalString DecimalPos.
From Stdlib Require Import Floats.SpecFloat.
From stdpp Require Import base option list gmap strings.

Local Open Scope Z_scope.

(** ** Python text primitives used by the request codec *)

Module Codec.

(** [bytes.decode('utf-8')] in strict mode: shortest-form sequences only,
    no surrogates, nothing above U+10FFFF.  [None] stands for
    [UnicodeDecodeError]. *)
Definition byte_val (b : Byte.byte) : Z := Z.of_N (Byte.to_N b).

Definition is_cont (b : Z) : bool := (0x80 <=? b) && (b <=? 0xBF).

Definition in_range (lo hi b : Z) : bool := (lo <=? b) && (b <=? hi).

Definition cont_bits (b : Z) : Z := Z.land b 0x3F.

Fixpoint utf8_decode_vals (bs : list Z) : option (list Z) :=
  match bs with
  | [] => Some []
  | b0 :: r0 =>
    if b0 <? 0x80 then cons b0 <$> utf8_decode_vals r0
    else if in_range 0xC2 0xDF b0 then
      match r0 with
      | b1 :: r1 =>
        if is_cont b1
        then cons (Z.lor (Z.shiftl (Z.land b0 0x1F) 6) (cont_bits b1))
               <$> utf8_decode_vals r1
        else None
      | _ => None
      end
    else if in_range 0xE0 0xEF b0 then
      match r0 with
      | b1 :: b2 :: r2 =>
        let lo := if b0 =? 0xE0 then 0xA0 else 0x80 in
        let hi := if b0 =? 0xED then 0x9F else 0xBF in
        if in_range lo hi b1 && is_cont b2
        then cons (Z.lor (Z.shiftl (Z.land b0 0x0F) 12)
                     (Z.lor (Z.shiftl (cont_bits b1) 6) (cont_bits b2)))
               <$> utf8_decode_vals r2
        else None
      | _ => None
      end
    else if in_range 0xF0 0xF4 b0 then
      match r0 with
      | b1 :: b2 :: b3 :: r3 =>
        let lo := if b0 =? 0xF0 then 0x90 else 0x80 in
        let hi := if b0 =? 0xF4 then 0x8F else 0xBF in
        if in_range lo hi b1 && is_cont b2 && is_cont b3
        then cons (Z.lor (Z.shiftl (Z.land b0 0x07) 18)
                     (Z.lor (Z.shiftl (cont_bits b1) 12)
                        (Z.lor (Z.shiftl (cont_bits b2) 6) (cont_bits b3))))
               <$> utf8_decode_vals r3
        else None
      | _ => None
      end
    else None
  end.

Definition utf8_decode (data : list Byte.byte) : option (list Z) :=
  utf8_decode_vals (map byte_val data).

(** The code points for which [str.isspace] holds; these are what
    [str.strip()] removes and what [int()] tolerates around a literal. *)
Definition isspace (c : Z) : bool :=
  in_range 0x09 0x0D c || in_range 0x1C 0x20 c || (c =? 0x85) || (c =? 0xA0)
  || (c =? 0x1680) || in_range 0x2000 0x200A c || (c =? 0x2028)
  || (c =? 0x2029) || (c =? 0x202F) || (c =? 0x205F) || (c =? 0x3000).

Fixpoint lstrip (cs : list Z) : list Z :=
  match cs with
  | c :: r => if isspace c then lstrip r else cs
  | [] => []
  end.

Definition rstrip (cs : list Z) : list Z := rev (lstrip (rev cs)).

Definition strip (cs : list Z) : list Z := rstrip (lstrip cs).

(** First code point of every block of ten decimal digits (general
    category Nd) in the interpreter's Unicode database; a block holds the
    digits zero to nine in order. *)
Definition decimal_zeros : list Z :=
  [ 0x30; 0x660; 0x6F0; 0x7C0; 0x966; 0x9E6; 0xA66; 0xAE6; 0xB66; 0xBE6;
    0xC66; 0xCE6; 0xD66; 0xDE6; 0xE50; 0xED0; 0xF20; 0x1040; 0x1090;
    0x17E0; 0x1810; 0x1946; 0x19D0; 0x1A80; 0x1A90; 0x1B50; 0x1BB0;
    0x1C40; 0x1C50; 0xA620; 0xA8D0; 0xA900; 0xA9D0; 0xA9F0; 0xAA50;
    0xABF0; 0xFF10; 0x104A0; 0x10D30; 0x11066; 0x110F0; 0x11136; 0x111D0;
    0x112F0; 0x11450; 0x114D0; 0x11650; 0x116C0; 0x11730; 0x118E0;
    0x11950; 0x11C50; 0x11D50; 0x11DA0; 0x16A60; 0x16AC0; 0x16B50;
    0x1D7CE; 0x1D7D8; 0x1D7E2; 0x1D7EC; 0x1D7F6; 0x1E140; 0x1E2F0;
    0x1E950; 0x1FBF0 ].

Definition to_decimal (c : Z) : option Z :=
  (fun z => c - z) <$> List.find (fun z => in_range z (z + 9) c) decimal_zeros.

Definition underscore : Z := 0x5F.
Definition plus_sign : Z := 0x2B.
Definition minus_sign : Z := 0x2D.

(** The digit run of a base-10 [int()] literal: digits, with single
    underscores allowed only between two digits. *)
Fixpoint parse_digits (acc : Z) (cs : list Z) : option Z :=
  match cs with
  | [] => Some acc
  | c :: r =>
    if c =? underscore then
      match r with
      | d :: _ => if is_Some_dec (to_decimal d) then parse_digits acc r else None
      | [] => None
      end
    else
      match to_decimal c with
      | Some v => parse_digits (10 * acc + v) r
      | None => None
      end
  end.

Definition parse_unsigned (cs : list Z) : option Z :=
  match cs with
  | c :: _ => if is_Some_dec (to_decimal c) then parse_digits 0 cs else None
  | [] => None
  end.

(** [int(s)] on a [str], base 10.  [None] stands for [ValueError]. *)
Definition py_int (s : list Z) : option Z :=
  match strip s with
  | c :: r =>
    if c =? minus_sign then Z.opp <$> parse_unsigned r
    else if c =? plus_sign then parse_unsigned r
    else parse_unsigned (c :: r)
  | [] => None
  end.

(** [str(n)] for an [int]. *)
Definition py_str (n : Z) : string := NilZero.string_of_int (Z.to_int n).

(** The code points of an ASCII text. *)
Definition codepoints (s : string) : list Z := map byte_val (list_byte_of_string s).

(** *** Fixed-point float formatting, [f"{v:.4f}"]

    A finite binary64 value is [m * 2 ^ e]; the formatter prints the
    correctly rounded decimal (ties to even on the exact value) with four
    fractional digits. *)
Definition round_half_even (n d : Z) : Z :=
  let q := n / d in
  let r := n mod d in
  if 2 * r <? d then q
  else if d <? 2 * r then q + 1
  else if Z.even q then q else q + 1.

Definition scaled_4dp (m : positive) (e : Z) : Z :=
  if 0 <=? e then Z.pos m * 2 ^ e * 10000
  else round_half_even (Z.pos m * 10000) (2 ^ (- e)).

Definition digit_char (d : Z) : ascii :=
  nth (Z.to_nat d) ["0"; "1"; "2"; "3"; "4"; "5"; "6"; "7"; "8"; "9"]%char "0"%char.

Definition pad4 (n : Z) : string :=
  String (digit_char (n / 1000 mod 10))
    (String (digit_char (n / 100 mod 10))
       (String (digit_char (n / 10 mod 10))
          (String (digit_char (n mod 10)) EmptyString))).

Definition fixed4 (negative : bool) (n : Z) : string :=
  (if negative then "-" else "") +:+ py_str (n / 10000) +:+ "." +:+ pad4 (n mod 10000).

Definition format_4f (v : spec_float) : string :=
  match v with
  | S754_nan => "nan"
  | S754_infinity s => if s then "-inf" else "inf"
  | S754_zero s => fixed4 s 0
  | S754_finite s m e => fixed4 s (scaled_4dp m e)
  end.

(** A voltage an ADC can report: finite and not negative. *)
Definition nonneg_finite (v : spec_float) : bool :=
  match v with
  | S754_zero false | S754_finite false _ _ => true
  | _ => false
  end.

(** The reply shape [^\d+\.\d{4}$] with no trailing newline: a non-empty
    run of ASCII digits, a dot, exactly four ASCII digits, end of text. *)
Definition is_ascii_digit (a : ascii) : bool :=
  let n := N_of_ascii a in (48 <=? n)%N && (n <=? 57)%N.

Fixpoint all_digits (s : string) : bool :=
  match s with
  | EmptyString => true
  | String a r => is_ascii_digit a && all_digits r
  end.

Fixpoint span_digits (s : string) : string * string :=
  match s with
  | String a r =>
    if is_ascii_digit a
    then let '(ds, rest) := span_digits r in (String a ds, rest)
    else (EmptyString, s)
  | EmptyString => (EmptyString, EmptyString)
  end.

Definition is_voltage_text (s : string) : bool :=
  let '(ds, rest) := span_digits s in
  negb (String.eqb ds "") &&
  match rest with
  | String dot frac =>
    Ascii.eqb dot "." && (String.length frac =? 4)%nat && all_digits frac
  | EmptyString => false
  end.

End Codec.

(** ** Exceptions, process state and the effect monad *)

(** The exception classes that occur.  [UnicodeDecodeError] is a subclass
    of [ValueError]; every class listed here derives from [Exception].
    [SystemExit] derives from [BaseException] only, so [except Exception]
    lets it through. *)
Inductive exc_class :=
| ValueError | UnicodeDecodeError | IndexError | UnboundLocalError
| OSError | FileNotFoundError | RuntimeError.

Inductive signal := SIGTERM | SIGINT.

#[global] Instance signal_eq_dec : EqDecision signal.
Proof. solve_decision. Defined.

(** [Killed] is the default disposition of a signal nobody handles; like
    [SystemExit] it is not an [Exception]. *)
Inductive exc :=
| Exc (cls : exc_class) (msg : string)
| SystemExit (code : Z)
| Killed (sig : signal).

Definition is_ValueError (e : exc) : bool :=
  match e with
  | Exc ValueError _ | Exc UnicodeDecodeError _ => true
  | _ => false
  end.

Definition is_Exception (e : exc) : bool :=
  match e with
  | Exc _ _ => true
  | SystemExit _ | Killed _ => false
  end.

(** [str(e)] *)
Definition exc_str (e : exc) : string :=
  match e with
  | Exc _ msg => msg
  | SystemExit code => Codec.py_str code
  | Killed _ => ""
  end.

(** A file-system entry: what it is and its permission bits. *)
Inductive node_kind := RegularFile | SocketFile.

Record node := { node_kind_of : node_kind; node_mode : Z }.

(** One emitted log record.  The message is either a text or the
    dictionary [{"error": text}]; the timestamp field is left out. *)
Inductive log_message := Text (s : string) | ErrorDict (s : string).

Record log_record :=
  { lr_message : log_message; lr_level : Z; lr_severity : string }.

(** An analog-input handle, [AnalogIn(mcp, MCP.Pk)], bound to pin [k]. *)
Record AnalogIn := { ain_pin : Z }.

(** What the hardware library does when called: a constructor either
    succeeds or raises; a voltage sample is a float or raises.  The ADC is
    live hardware, so the outcome of a sample depends on how many bus
    transactions came before it. *)
Inductive sample := Volts (v : spec_float) | ReadFails (cls : exc_class) (msg : string).

Record Hardware :=
  { hw_digital_in_out : Z -> option (exc_class * string);
    hw_spi : option (exc_class * string);
    hw_mcp3008 : option (exc_class * string);
    hw_analog_in : Z -> option (exc_class * string);
    hw_sample : nat -> Z -> sample }.

(** The server socket once created: the path it is bound to and the
    listen backlog. *)
Record listener := { bound_path : option string; backlog : option Z }.

Record State :=
  { (* module globals *)
    loglevel : Z;
    socket_file : string;
    channels : list AnalogIn;
    (* the world *)
    hardware : Hardware;
    fs : gmap string node;
    handled_signals : list signal;
    syslog_out : list log_record;
    stdout : list log_record;
    stderr : list string;
    reads : list Z;
    server : option listener;
    accepted : nat;
    closed : nat;
    sent : list string;
    sleeps : list Z }.

Inductive result (A : Type) := Ok (a : A) | Raise (e : exc).
Arguments Ok {A} a.
Arguments Raise {A} e.

Definition M (A : Type) : Type := State -> result A * State.

#[global] Instance M_ret : MRet M := fun A a s => (Ok a, s).

#[global] Instance M_bind : MBind M := fun A B f m s =>
  match m s with
  | (Ok a, s') => f a s'
  | (Raise e, s') => (Raise e, s')
  end.

Definition raise {A} (e : exc) : M A := fun s => (Raise e, s).

Definition get : M State := fun s => (Ok s, s).

Definition modify (f : State -> State) : M unit := fun s => (Ok tt, f s).

(** [try: body / except C1 as e: h1 e / except C2 as e: h2 e / ...]: the
    first clause whose class test accepts the exception handles it; with no
    such clause the exception propagates. *)
Definition except_clause (A : Type) : Type := (exc -> bool) * (exc -> M A).

Fixpoint select_clause {A} (e : exc) (clauses : list (except_clause A)) : M A :=
  match clauses with
  | [] => fun s => (Raise e, s)
  | (catches, handler) :: rest =>
    if catches e then handler e else select_clause e rest
  end.

Definition try_except {A} (body : M A) (clauses : list (except_clause A)) : M A :=
  fun s =>
    match body s with
    | (Raise e, s') => select_clause e clauses s'
    | r => r
    end.

(** [with resource: body]: [finish] runs however [body] ends. *)
Definition with_closing {A} (body : M A) (finish : M unit) : M A :=
  fun s =>
    match body s with
    | (r, s') => (r, snd (finish s'))
    end.

(** *** State updates *)

Definition set_loglevel (l : Z) (s : State) : State :=
  {| loglevel := l; socket_file := socket_file s; channels := channels s;
     hardware := hardware s; fs := fs s; handled_signals := handled_signals s;
     syslog_out := syslog_out s; stdout := stdout s; stderr := stderr s;
     reads := reads s; server := server s; accepted := accepted s;
     closed := closed s; sent := sent s; sleeps := sleeps s |}.

Definition set_channels (c : list AnalogIn) (s : State) : State :=
  {| loglevel := loglevel s; socket_file := socket_file s; channels := c;
     hardware := hardware s; fs := fs s; handled_signals := handled_signals s;
     syslog_out := syslog_out s; stdout := stdout s; stderr := stderr s;
     reads := reads s; server := server s; accepted := accepted s;
     closed := closed s; sent := sent s; sleeps := sleeps s |}.

Definition set_fs (f : gmap string node) (s : State) : State :=
  {| loglevel := loglevel s; socket_file := socket_file s; channels := channels s;
     hardware := hardware s; fs := f; handled_signals := handled_signals s;
     syslog_out := syslog_out s; stdout := stdout s; stderr := stderr s;
     reads := reads s; server := server s; accepted := accepted s;
     closed := closed s; sent := sent s; sleeps := sleeps s |}.

Definition set_handled (h : list signal) (s : State) : State :=
  {| loglevel := loglevel s; socket_file := socket_file s; channels := channels s;
     hardware := hardware s; fs := fs s; handled_signals := h;
     syslog_out := syslog_out s; stdout := stdout s; stderr := stderr s;
     reads := reads s; server := server s; accepted := accepted s;
     closed := closed s; sent := sent s; sleeps := sleeps s |}.

Definition emit (r : log_record) (s : State) : State :=
  {| loglevel := loglevel s; socket_file := socket_file s; channels := channels s;
     hardware := hardware s; fs := fs s; handled_signals := handled_signals s;
     syslog_out := syslog_out s ++ [r]; stdout := stdout s ++ [r]; stderr := stderr s;
     reads := reads s; server := server s; accepted := accepted s;
     closed := closed s; sent := sent s; sleeps := sleeps s |}.

Definition write_stderr (l : string) (s : State) : State :=
  {| loglevel := loglevel s; socket_file := socket_file s; channels := channels s;
     hardware := hardware s; fs := fs s; handled_signals := handled_signals s;
     syslog_out := syslog_out s; stdout := stdout s; stderr := stderr s ++ [l];
     reads := reads s; server := server s; accepted := accepted s;
     closed := closed s; sent := sent s; sleeps := sleeps s |}.

Definition record_read (p : Z) (s : State) : State :=
  {| loglevel := loglevel s; socket_file := socket_file s; channels := channels s;
     hardware := hardware s; fs := fs s; handled_signals := handled_signals s;
     syslog_out := syslog_out s; stdout := stdout s; stderr := stderr s;
     reads := reads s ++ [p]; server := server s; accepted := accepted s;
     closed := closed s; sent := sent s; sleeps := sleeps s |}.

Definition set_server (l : option listener) (s : State) : State :=
  {| loglevel := loglevel s; socket_file := socket_file s; channels := channels s;
     hardware := hardware s; fs := fs s; handled_signals := handled_signals s;
     syslog_out := syslog_out s; stdout := stdout s; stderr := stderr s;
     reads := reads s; server := l; accepted := accepted s;
     closed := closed s; sent := sent s; sleeps := sleeps s |}.

Definition count_accept (s : State) : State :=
  {| loglevel := loglevel s; socket_file := socket_file s; channels := channels s;
     hardware := hardware s; fs := fs s; handled_signals := handled_signals s;
     syslog_out := syslog_out s; stdout := stdout s; stderr := stderr s;
     reads := reads s; server := server s; accepted := S (accepted s);
     closed := closed s; sent := sent s; sleeps := sleeps s |}.

Definition count_close (s : State) : State :=
  {| loglevel := loglevel s; socket_file := socket_file s; channels := channels s;
     hardware := hardware s; fs := fs s; handled_signals := handled_signals s;
     syslog_out := syslog_out s; stdout := stdout s; stderr := stderr s;
     reads := reads s; server := server s; accepted := accepted s;
     closed := S (closed s); sent := sent s; sleeps := sleeps s |}.

Definition record_sent (r : string) (s : State) : State :=
  {| loglevel := loglevel s; socket_file := socket_file s; channels := channels s;
     hardware := hardware s; fs := fs s; handled_signals := handled_signals s;
     syslog_out := syslog_out s; stdout := stdout s; stderr := stderr s;
     reads := reads s; server := server s; accepted := accepted s;
     closed := closed s; sent := sent s ++ [r]; sleeps := sleeps s |}.

Definition record_sleep (ms : Z) (s : State) : State :=
  {| loglevel := loglevel s; socket_file := socket_file s; channels := channels s;
     hardware := hardware s; fs := fs s; handled_signals := handled_signals s;
     syslog_out := syslog_out s; stdout := stdout s; stderr := stderr s;
     reads := reads s; server := server s; accepted := accepted s;
     closed := closed s; sent := sent s; sleeps := sleeps s ++ [ms] |}.

(** ** Operating-system and library calls *)

Definition lib_call (outcome : option (exc_class * string)) : M unit :=
  match outcome with
  | None => mret tt
  | Some (cls, msg) => raise (Exc cls msg)
  end.

Definition os_path_exists (p : string) : M bool :=
  s ← get; mret (bool_decide (is_Some (fs s !! p))).

Definition os_unlink (p : string) : M unit :=
  s ← get;
  match fs s !! p with
  | Some _ => modify (set_fs (delete p (fs s)))
  | None => raise (Exc FileNotFoundError "[Errno 2] No such file or directory")
  end.

Definition os_chmod (p : string) (mode : Z) : M unit :=
  s ← get;
  match fs s !! p with
  | Some n => modify (set_fs (<[p := {| node_kind_of := node_kind_of n; node_mode := mode |}]> (fs s)))
  | None => raise (Exc FileNotFoundError "[Errno 2] No such file or directory")
  end.

Definition sys_exit {A} (code : Z) : M A := raise (SystemExit code).

Definition time_sleep_ms (ms : Z) : M unit := modify (record_sleep ms).

(** [socket.socket(AF_UNIX, SOCK_STREAM)] *)
Definition socket_socket : M unit :=
  modify (set_server (Some {| bound_path := None; backlog := None |})).

(** [server.bind(path)] creates the socket file; the path must be free. *)
Definition server_bind (p : string) : M unit :=
  s ← get;
  match fs s !! p with
  | Some _ => raise (Exc OSError "[Errno 98] Address already in use")
  | None =>
    modify (set_fs (<[p := {| node_kind_of := SocketFile; node_mode := 493 |}]> (fs s)));;
    modify (set_server (Some {| bound_path := Some p; backlog := None |}))
  end.

Definition server_listen (n : Z) : M unit :=
  s ← get;
  match server s with
  | Some l => modify (set_server (Some {| bound_path := bound_path l; backlog := Some n |}))
  | None => raise (Exc OSError "[Errno 9] Bad file descriptor")
  end.

(** Pin numbers of the two chip-select candidates, [board.D26] and
    [board.D25]. *)
Definition D26 : Z := 26.
Definition D25 : Z := 25.

Definition DigitalInOut (pin : Z) : M Z :=
  s ← get; lib_call (hw_digital_in_out (hardware s) pin);; mret pin.

Definition busio_SPI : M unit :=
  s ← get; lib_call (hw_spi (hardware s)).

(** [adccs] is a local that an unrecognised revision leaves unbound. *)
Definition MCP3008 (spi : unit) (adccs : option Z) : M unit :=
  match adccs with
  | None =>
    raise (Exc UnboundLocalError
             "cannot access local variable 'adccs' where it is not associated with a value")
  | Some _ => s ← get; lib_call (hw_mcp3008 (hardware s))
  end.

Definition new_AnalogIn (mcp : unit) (p : Z) : M AnalogIn :=
  s ← get; lib_call (hw_analog_in (hardware s) p);; mret {| ain_pin := p |}.

(** [handle.voltage]: one bus transaction on the handle's pin. *)
Definition voltage (h : AnalogIn) : M spec_float :=
  s ← get;
  modify (record_read (ain_pin h));;
  match hw_sample (hardware s) (length (reads s)) (ain_pin h) with
  | Volts v => mret v
  | ReadFails cls msg => raise (Exc cls msg)
  end.

(** [l[i]] on a Python list: negative indices count from the end. *)
Definition list_getitem {A} (l : list A) (i : Z) : M A :=
  let j := if i <? 0 then i + Z.of_nat (length l) else i in
  match (if j <? 0 then None else l !! Z.to_nat j) with
  | Some x => mret x
  | None => raise (Exc IndexError "list index out of range")
  end.

Fixpoint mapM {A B} (f : A -> M B) (l : list A) : M (list B) :=
  match l with
  | [] => mret []
  | x :: r => y ← f x; ys ← mapM f r; mret (y :: ys)
  end.

(** ** The daemon *)

Definition log_message_json (message : log_message) (level : Z) (severity : string) : M unit :=
  s ← get;
  if loglevel s >=? level
  then modify (emit {| lr_message := message; lr_level := level; lr_severity := severity |})
  else mret tt.

Definition signal_handler (sig : signal) : M unit :=
  log_message_json (Text "Received termination signal; shutting down.") 2 "info";;
  s ← get;
  present ← os_path_exists (socket_file s);
  (if present : bool then os_unlink (socket_file s) else mret tt);;
  sys_exit 0.

(** [signal.signal(sig, signal_handler)] *)
Definition signal_signal (sig : signal) : M unit :=
  s ← get; modify (set_handled (sig :: handled_signals s)).

(** Delivery of a signal to the process. *)
Definition deliver (sig : signal) : M unit :=
  s ← get;
  if bool_decide (sig ∈ handled_signals s) then signal_handler sig
  else raise (Killed sig).

(** The command line as the argument parser sees it: the text given for
    each option, if any. *)
Record cmdline := { opt_loglevel : option string; opt_hwversion : option string }.

Record args := { args_loglevel : Z; args_hwversion : string }.

Definition hwversion_choices : list string := ["2.2"; "5.1"; "7.1"]%string.

(** [parser.error]: usage message on standard error, exit status 2. *)
Definition parser_error {A} (msg : string) : M A :=
  modify (write_stderr msg);; sys_exit 2.

Definition parse_arguments (cmd : cmdline) : M args :=
  l ← match opt_loglevel cmd with
      | None => mret 3
      | Some t =>
        match Codec.py_int (Codec.codepoints t) with
        | Some n => mret n
        | None => parser_error "argument --loglevel/-l: invalid int value"
        end
      end;
  match opt_hwversion cmd with
  | None => parser_error "the following arguments are required: --hwversion/-p"
  | Some v =>
    if bool_decide (v ∈ hwversion_choices)
    then mret {| args_loglevel := l; args_hwversion := v |}
    else parser_error "argument --hwversion/-p: invalid choice"
  end.

(** The pin constants [MCP.P0 .. MCP.P7]. *)
Definition mcp_pins : list Z := [0; 1; 2; 3; 4; 5; 6; 7].

(** The body of the [try] in [main]: bus, converter, the eight channel
    handles. *)
Definition init_adc (adccs : option Z) : M unit :=
  spi ← busio_SPI;
  mcp ← MCP3008 spi adccs;
  chans ← mapM (new_AnalogIn mcp) mcp_pins;
  modify (set_channels chans);;
  log_message_json (Text "ADC channels initialized successfully") 3 "info".

(** The socket set-up of [main]: clear a stale file, create, bind, open
    up the permissions (0o666), listen. *)
Definition open_socket : M unit :=
  s ← get;
  present ← os_path_exists (socket_file s);
  (if present : bool then os_unlink (socket_file s) else mret tt);;
  socket_socket;;
  server_bind (socket_file s);;
  os_chmod (socket_file s) 438;;
  server_listen 5;;
  log_message_json (Text ("Listening on socket " +:+ socket_file s)) 2 "info".

(** [main] up to and including [server.listen]. *)
Definition startup (cmd : cmdline) : M unit :=
  a ← parse_arguments cmd;
  modify (set_loglevel (args_loglevel a));;
  let hwversion := args_hwversion a in
  adccs ← (if bool_decide (hwversion ∈ ["2.2"; "5.1"]%string)
           then pin ← DigitalInOut D26; mret (Some pin)
           else if String.eqb hwversion "7.1"
           then pin ← DigitalInOut D25; mret (Some pin)
           else mret None);
  log_message_json (Text ("Starting ADC daemon for hardware version " +:+ hwversion)) 2 "info";;
  try_except (init_adc adccs)
    [(is_Exception, fun e =>
        log_message_json (ErrorDict (exc_str e)) 0 "exception";;
        sys_exit 1)];;
  open_socket.

(** *** The accept loop *)

(** What a client does with one connection: the bytes it writes before the
    daemon's single [recv] (none when the peer just closes), and whether
    the socket calls on this connection fail. *)
Record connection :=
  { conn_incoming : list Byte.byte;
    conn_recv_fault : option (exc_class * string);
    conn_send_fault : option (exc_class * string) }.

(** What can end a blocking [server.accept()]. *)
Inductive event :=
| Connects (c : connection)
| AcceptFails (cls : exc_class) (msg : string)
| Signalled (sig : signal).

Definition conn_recv (c : connection) (bufsize : nat) : M (list Byte.byte) :=
  lib_call (conn_recv_fault c);; mret (take bufsize (conn_incoming c)).

Definition conn_sendall (c : connection) (payload : string) : M unit :=
  lib_call (conn_send_fault c);; modify (record_sent payload).

(** [server.accept()]; [None] when a handled signal interrupted the call
    and its handler returned, in which case the call is simply retried. *)
Definition server_accept (ev : event) : M (option connection) :=
  match ev with
  | Connects c => modify count_accept;; mret (Some c)
  | AcceptFails cls msg => raise (Exc cls msg)
  | Signalled sig => deliver sig;; mret None
  end.

Definition decode_strip (data : list Byte.byte) : M (list Z) :=
  match Codec.utf8_decode data with
  | Some cs => mret (Codec.strip cs)
  | None => raise (Exc UnicodeDecodeError "'utf-8' codec can't decode bytes")
  end.

Definition int_of_str (t : list Z) : M Z :=
  match Codec.py_int t with
  | Some n => mret n
  | None => raise (Exc ValueError "invalid literal for int() with base 10")
  end.

(** The body of the inner [try]: parse, range-check, sample, format. *)
Definition dispatch (data : list Byte.byte) : M string :=
  channel_str ← decode_strip data;
  channel ← int_of_str channel_str;
  log_message_json
    (Text ("Received request for channel " +:+ Codec.py_str channel)) 3 "info";;
  if (0 <=? channel) && (channel <=? 7) then
    s ← get;
    h ← list_getitem (channels s) channel;
    v ← voltage h;
    let response := Codec.format_4f v in
    log_message_json
      (Text ("Channel " +:+ Codec.py_str channel +:+ " voltage: " +:+ response +:+ "V"))
      3 "info";;
    mret response
  else mret "ERROR: Channel must be 0-7"%string.

Definition respond (data : list Byte.byte) : M string :=
  try_except (dispatch data)
    [(is_ValueError, fun _ => mret "ERROR: Invalid channel format"%string);
     (is_Exception, fun e => mret ("ERROR: " +:+ exc_str e))].

(** The body of [with conn:]. *)
Definition handle_connection (c : connection) : M unit :=
  data ← conn_recv c 1024;
  match data with
  | [] => mret tt
  | _ :: _ =>
    response ← respond data;
    conn_sendall c response
  end.

(** One turn of [while True]. *)
Definition serve_one (ev : event) : M unit :=
  try_except
    (conn ← server_accept ev;
     match conn with
     | Some c => with_closing (handle_connection c) (modify count_close)
     | None => mret tt
     end)
    [(is_Exception, fun e =>
        log_message_json (ErrorDict (exc_str e)) 0 "exception";;
        time_sleep_ms 100)].

(** The loop over everything the environment does to the listening
    socket, in order.  When the events are used up the daemon is blocked
    in [accept], still running. *)
Fixpoint accept_loop (evs : list event) : M unit :=
  match evs with
  | [] => mret tt
  | ev :: rest => serve_one ev;; accept_loop rest
  end.

Definition main (cmd : cmdline) (evs : list event) : M unit :=
  startup cmd;; accept_loop evs.

(** Module load: the handlers are installed before [main] runs. *)
Definition module_load : M unit :=
  signal_signal SIGTERM;; signal_signal SIGINT.

(** The state the interpreter starts the script in. *)
Definition initial_state (hw : Hardware) (files : gmap string node) : State :=
  {| loglevel := 3; socket_file := "/tmp/adc-daemon.sock"; channels := [];
     hardware := hw; fs := files; handled_signals := [];
     syslog_out := []; stdout := []; stderr := [];
     reads := []; server := None; accepted := 0%nat; closed := 0%nat;
     sent := []; sleeps := [] |}.

(** How a run of the script ends: [None] while it is still serving,
    otherwise the exit status.  An exception nobody caught is reported on
    standard error and gives status 1. *)
Definition exit_status (r : result unit * State) : option Z * State :=
  match r with
  | (Ok _, s) => (None, s)
  | (Raise (SystemExit code), s) => (Some code, s)
  | (Raise (Exc _ msg), s) => (Some 1, write_stderr ("Traceback (most recent call last): " +:+ msg) s)
  | (Raise (Killed SIGTERM), s) => (Some 143, s)
  | (Raise (Killed SIGINT), s) => (Some 130, s)
  end.

Definition run (cmd : cmdline) (evs : list event) (s0 : State) : option Z * State :=
  exit_status ((module_load;; main cmd evs) s0).

(** The channel set [main] builds. *)
Definition channel_set : list AnalogIn := map (fun p => {| ain_pin := p |}) mcp_pins.

(** ** Vocabulary for the statements *)

(** The code points of a decimal numeral, and the value its digits fold
    to from an accumulator; these tie [py_str] to [py_int]. *)
Fixpoint uint_codes (d : uint) : list Z :=
  match d with
  | Nil => []
  | D0 r => 48 :: uint_codes r
  | D1 r => 49 :: uint_codes r
  | D2 r => 50 :: uint_codes r
  | D3 r => 51 :: uint_codes r
  | D4 r => 52 :: uint_codes r
  | D5 r => 53 :: uint_codes r
  | D6 r => 54 :: uint_codes r
  | D7 r => 55 :: uint_codes r
  | D8 r => 56 :: uint_codes r
  | D9 r => 57 :: uint_codes r
  end.

Fixpoint uint_acc (d : uint) (acc : Z) : Z :=
  match d with
  | Nil => acc
  | D0 r => uint_acc r (10 * acc + 0)
  | D1 r => uint_acc r (10 * acc + 1)
  | D2 r => uint_acc r (10 * acc + 2)
  | D3 r => uint_acc r (10 * acc + 3)
  | D4 r => uint_acc r (10 * acc + 4)
  | D5 r => uint_acc r (10 * acc + 5)
  | D6 r => uint_acc r (10 * acc + 6)
  | D7 r => uint_acc r (10 * acc + 7)
  | D8 r => uint_acc r (10 * acc + 8)
  | D9 r => uint_acc r (10 * acc + 9)
  end.

(** The state after a log call: the record is emitted when the
    configured level admits it. *)
Definition logged (r : log_record) (s : State) : State :=
  if loglevel s >=? lr_level r then emit r s else s.

(** The request payload: what the single [recv(1024)] returns. *)
Definition received (c : connection) : list Byte.byte := take 1024 (conn_incoming c).

(** An action that, when it fails, fails with an [Exception]. *)
Definition only_Exception {A} (m : M A) : Prop :=
  forall s e s', m s = (Raise e, s') -> is_Exception e = true.

(** An action that leaves some view of the state as it found it. *)
Definition unchanged {X A} (view : State -> X) (m : M A) : Prop :=
  forall s, view (snd (m s)) = view s.

(** The daemon's own state: the module globals. *)
Definition globals (s : State) : Z * string * list AnalogIn :=
  (loglevel s, socket_file s, channels s).

(** Everything a request has no business with: all of the state except
    the log sinks, the trace of hardware reads, the replies sent and the
    connection counters. *)
Definition beyond_request (s : State) :=
  (globals s, hardware s, fs s, handled_signals s, stderr s, server s, sleeps s).

(** The exception, if any, that the environment inflicts on the serving
    of one event: a failing [accept], [recv] or [sendall]. *)
Definition service_fault (ev : event) : option (exc_class * string) :=
  match ev with
  | AcceptFails cls msg => Some (cls, msg)
  | Connects c =>
    match conn_recv_fault c with
    | Some f => Some f
    | None => match received c with [] => None | _ :: _ => conn_send_fault c end
    end
  | Signalled _ => None
  end.

Definition from_client (ev : event) : bool :=
  match ev with
  | Signalled _ => false
  | _ => true
  end.

(** The two records a served voltage request logs. *)
Definition request_record (i : Z) : log_record :=
  {| lr_message := Text ("Received request for channel " +:+ Codec.py_str i);
     lr_level := 3; lr_severity := "info" |}.

Definition voltage_record (i : Z) (reply : string) : log_record :=
  {| lr_message := Text ("Channel " +:+ Codec.py_str i +:+ " voltage: " +:+ reply +:+ "V");
     lr_level := 3; lr_severity := "info" |}.

(** The record the accept loop logs for an exception it caught. *)
Definition error_record (msg : string) : log_record :=
  {| lr_message := ErrorDict msg; lr_level := 0; lr_severity := "exception" |}.

(** *** Sample inputs

    A bench set-up: hardware on which every library call succeeds and
    every channel reads 1.65 V (the binary64 nearest to it), a client that
    writes a text and behaves, and the daemon serving on that hardware. *)
Definition volts_1_65 : spec_float := S754_finite false 7430939385161318 (-52).

Definition bench_hardware : Hardware :=
  {| hw_digital_in_out := fun _ => None; hw_spi := None; hw_mcp3008 := None;
     hw_analog_in := fun _ => None; hw_sample := fun _ _ => Volts volts_1_65 |}.

Definition client_bytes (payload : list Byte.byte) : connection :=
  {| conn_incoming := payload; conn_recv_fault := None; conn_send_fault := None |}.

Definition client (payload : string) : connection :=
  client_bytes (list_byte_of_string payload).

Definition serving_state (level : Z) : State :=
  {| loglevel := level; socket_file := "/tmp/adc-daemon.sock"; channels := channel_set;
     hardware := bench_hardware;
     fs := {[ "/tmp/adc-daemon.sock"%string :=
                {| node_kind_of := SocketFile; node_mode := 438 |} ]};
     handled_signals := [SIGINT; SIGTERM];
     syslog_out := []; stdout := []; stderr := [];
     reads := [];
     server := Some {| bound_path := Some "/tmp/adc-daemon.sock"%string; backlog := Some 5 |};
     accepted := 0%nat; closed := 0%nat; sent := []; sleeps := [] |}.

(** Hardware whose first sample differs from the later ones. *)
Definition drifting_hardware : Hardware :=
  {| hw_digital_in_out := fun _ => None; hw_spi := None; hw_mcp3008 := None;
     hw_analog_in := fun _ => None;
     hw_sample := fun n _ =>
       match n with
       | O => Volts volts_1_65
       | S _ => Volts (S754_zero false)
       end |}.

(** A client whose socket breaks when the daemon writes the reply. *)
Definition vanishing_client (payload : string) : connection :=
  {| conn_incoming := list_byte_of_string payload; conn_recv_fault := None;
     conn_send_fault := Some (OSError, "[Errno 32] Broken pipe"%string) |}.

(** The record the signal handler logs, and the state it leaves. *)
Definition shutdown_record : log_record :=
  {| lr_message := Text "Received termination signal; shutting down.";
     lr_level := 2; lr_severity := "info" |}.

Definition after_shutdown (s : State) : State :=
  if bool_decide (is_Some (fs s !! socket_file s))
  then set_fs (delete (socket_file s) (fs s)) (logged shutdown_record s)
  else logged shutdown_record s.

(** *** Start-up, read off the inputs

    What the argument parser makes of a command line, the chip-select pin
    of a revision, and the first library call of the guarded block that
    fails on given hardware. *)
Definition loglevel_arg (cmd : cmdline) : option Z :=
  match opt_loglevel cmd with
  | None => Some 3
  | Some t => Codec.py_int (Codec.codepoints t)
  end.

Definition parsed_args (cmd : cmdline) : option args :=
  l ← loglevel_arg cmd;
  match opt_hwversion cmd with
  | None => None
  | Some v =>
    if bool_decide (v ∈ hwversion_choices)
    then Some {| args_loglevel := l; args_hwversion := v |}
    else None
  end.

Definition usage_error (cmd : cmdline) : string :=
  match loglevel_arg cmd with
  | None => "argument --loglevel/-l: invalid int value"
  | Some _ =>
    match opt_hwversion cmd with
    | None => "the following arguments are required: --hwversion/-p"
    | Some _ => "argument --hwversion/-p: invalid choice"
    end
  end.

Definition cs_pin (hwversion : string) : Z :=
  if bool_decide (hwversion ∈ ["2.2"; "5.1"]%string) then D26 else D25.

Fixpoint first_fault (outcome : Z -> option (exc_class * string)) (pins : list Z)
  : option (exc_class * string) :=
  match pins with
  | [] => None
  | p :: r =>
    match outcome p with
    | Some f => Some f
    | None => first_fault outcome r
    end
  end.

Definition init_fault (hw : Hardware) : option (exc_class * string) :=
  match hw_spi hw with
  | Some f => Some f
  | None =>
    match hw_mcp3008 hw with
    | Some f => Some f
    | None => first_fault (hw_analog_in hw) mcp_pins
    end
  end.

(** The ways start-up can be fatal. *)
Inductive fatal :=
| BadCommandLine
| PinFault (cls : exc_class) (msg : string)
| InitFault (level : Z) (cls : exc_class) (msg : string).

Definition startup_fault (cmd : cmdline) (hw : Hardware) : option fatal :=
  match parsed_args cmd with
  | None => Some BadCommandLine
  | Some a =>
    match hw_digital_in_out hw (cs_pin (args_hwversion a)) with
    | Some (cls, msg) => Some (PinFault cls msg)
    | None =>
      match init_fault hw with
      | Some (cls, msg) => Some (InitFault (args_loglevel a) cls msg)
      | None => None
      end
    end
  end.

Definition start_record (hwversion : string) : log_record :=
  {| lr_message := Text ("Starting ADC daemon for hardware version " +:+ hwversion);
     lr_level := 2; lr_severity := "info" |}.

Definition init_record : log_record :=
  {| lr_message := Text "ADC channels initialized successfully";
     lr_level := 3; lr_severity := "info" |}.

(** Hardware whose serial bus cannot be opened, and hardware whose
    chip-select pins are taken. *)
Definition busless_hardware : Hardware :=
  {| hw_digital_in_out := fun _ => None;
     hw_spi := Some (OSError, "SPI device not found"%string);
     hw_mcp3008 := None; hw_analog_in := fun _ => None;
     hw_sample := fun _ _ => Volts volts_1_65 |}.

Definition pinless_hardware : Hardware :=
  {| hw_digital_in_out := fun _ => Some (RuntimeError, "pin in use"%string);
     hw_spi := None; hw_mcp3008 := None; hw_analog_in := fun _ => None;
     hw_sample := fun _ _ => Volts volts_1_65 |}.

Definition command_line (level : option string) (revision : string) : cmdline :=
  {| opt_loglevel := level; opt_hwversion := Some revision |}.

Definition listen_record (path : string) : log_record :=
  {| lr_message := Text ("Listening on socket " +:+ path);
     lr_level := 2; lr_severity := "info" |}.

(** The state once the socket is open: the socket file is in place with
    mode 0o666 and the server socket is bound to it and listening. *)
Definition listening (s : State) : State :=
  logged (listen_record (socket_file s))
    (set_server (Some {| bound_path := Some (socket_file s); backlog := Some 5 |})
       (set_fs (<[socket_file s := {| node_kind_of := SocketFile; node_mode := 438 |}]> (fs s))
          s)).

(** What start-up comes to, as a function of the command line and the
    hardware. *)
Definition started (cmd : cmdline) (s : State) : result unit * State :=
  match parsed_args cmd with
  | None => (Raise (SystemExit 2), write_stderr (usage_error cmd) s)
  | Some a =>
    let s1 := set_loglevel (args_loglevel a) s in
    match hw_digital_in_out (hardware s) (cs_pin (args_hwversion a)) with
    | Some (cls, msg) => (Raise (Exc cls msg), s1)
    | None =>
      let s2 := logged (start_record (args_hwversion a)) s1 in
      match init_fault (hardware s) with
      | Some (cls, msg) => (Raise (SystemExit 1), logged (error_record msg) s2)
      | None => (Ok tt, listening (logged init_record (set_channels channel_set s2)))
      end
    end
  end.

(** ** The log line

    [log_message_json] renders the entry with [json.dumps] and then
    applies [.replace('\n', ' ').replace('\r', '')] before writing it
    out.  The two replacements, on a text given as code points. *)
Definition replace_char (old new : Z) (t : list Z) : list Z :=
  map (fun c => if c =? old then new else c) t.

Definition remove_char (old : Z) (t : list Z) : list Z :=
  List.filter (fun c => negb (c =? old)) t.

Definition one_line (json_log : list Z) : list Z :=
  remove_char 13 (replace_char 10 32 json_log).

(** ** More vocabulary: invariants and effects of the loop *)

(** Both log sinks hold the same records. *)
Definition mirrored (s : State) : Prop := syslog_out s = stdout s.

(** No record is out whose level exceeds the configured one. *)
Definition level_bounded (s : State) : Prop :=
  Forall (fun r => lr_level r <= loglevel s) (stdout s).

(** Every connection accepted so far has been closed. *)
Definition all_closed (s : State) : Prop := accepted s = closed s.

(** The pins of the handles in the channel list. *)
Definition channel_pins (s : State) : list Z := map ain_pin (channels s).

Definition connections (evs : list event) : nat :=
  length (List.filter (fun ev => match ev with Connects _ => true | _ => false end) evs).

Definition reply_of (r : result string) : string :=
  match r with
  | Ok reply => reply
  | Raise _ => ""
  end.

(** The reply and the state the codec comes to, as a function of the
    payload. *)
Definition responded (data : list Byte.byte) (s : State) : string * State :=
  match Codec.utf8_decode data with
  | None => ("ERROR: Invalid channel format"%string, s)
  | Some cs =>
    match Codec.py_int (Codec.strip cs) with
    | None => ("ERROR: Invalid channel format"%string, s)
    | Some i =>
      let s1 := logged (request_record i) s in
      if (0 <=? i) && (i <=? 7) then
        match channels s !! Z.to_nat i with
        | None => ("ERROR: list index out of range"%string, s1)
        | Some h =>
          let s2 := record_read (ain_pin h) s1 in
          match hw_sample (hardware s) (length (reads s)) (ain_pin h) with
          | Volts v =>
            (Codec.format_4f v, logged (voltage_record i (Codec.format_4f v)) s2)
          | ReadFails cls msg =>
            (if is_ValueError (Exc cls msg)
             then "ERROR: Invalid channel format"%string
             else ("ERROR: " +:+ msg)%string, s2)
          end
        end
      else ("ERROR: Channel must be 0-7"%string, s1)
    end
  end.

(** The state one served connection leaves behind. *)
Definition after_connection (c : connection) (s : State) : State :=
  match conn_recv_fault c with
  | Some (_, msg) =>
    record_sleep 100 (logged (error_record msg) (count_close (count_accept s)))
  | None =>
    match received c with
    | [] => count_close (count_accept s)
    | _ :: _ =>
      let r := respond (received c) (count_accept s) in
      match conn_send_fault c with
      | Some (_, msg) =>
        record_sleep 100 (logged (error_record msg) (count_close (snd r)))
      | None => count_close (record_sent (reply_of (fst r)) (snd r))
      end
    end
  end.

(** The state one turn of the loop leaves behind, whatever ended the
    [accept]. *)
Definition after_event (ev : event) (s : State) : State :=
  match ev with
  | Connects c => after_connection c s
  | AcceptFails _ msg => record_sleep 100 (logged (error_record msg) s)
  | Signalled sig =>
    if bool_decide (sig ∈ handled_signals s) then after_shutdown s else s
  end.

(** A reply the client must read as a failure, and one it reads as a
    voltage: the client's test is [response.startswith("ERROR")]. *)
Definition is_error_reply (reply : string) : bool := String.prefix "ERROR: " reply.

Definition starts_with_ERROR (reply : string) : bool := String.prefix "ERROR" reply.

(** The two kinds of reply there are. *)
Definition well_formed_reply (reply : string) : Prop :=
  is_error_reply reply = true \/ exists v, reply = Codec.format_4f v.

(** What surrounds the serving of requests: the hardware, the file
    system, the signal routing, standard error and the server socket. *)
Definition surroundings (s : State) :=
  (hardware s, fs s, handled_signals s, stderr s, server s).

(** ** The client, [adc.py]

    The client's query routine and its channel selection.  Text is a list
    of code points, as for the daemon. *)
Module Client.

(** What the socket does during one query, seen from the client: one of
    the three calls fails, or [recv(1024)] returns a payload, empty when
    the daemon closed the connection without writing. *)
Inductive exchange :=
| ConnectFails (msg : string)
| SendFails (msg : string)
| RecvFails (msg : string)
| Received (payload : list Byte.byte).

(** [str(channel).encode('ascii')]: the text is digits and at most a
    minus sign, so the encoding is the text byte for byte. *)
Definition request_bytes (channel : Z) : list Byte.byte :=
  list_byte_of_string (Codec.py_str channel).

(** [bytes.decode('ascii')]; [None] stands for [UnicodeDecodeError]. *)
Definition ascii_decode (data : list Byte.byte) : option (list Z) :=
  if forallb (fun b => Codec.byte_val b <? 128) data
  then Some (map Codec.byte_val data)
  else None.

(** [t.startswith(prefix)] *)
Fixpoint startswith (prefix t : list Z) : bool :=
  match prefix, t with
  | [], _ => true
  | p :: prefix', c :: t' => (p =? c) && startswith prefix' t'
  | _ :: _, [] => false
  end.

(** What [get_adc_voltage] returns ([None] for Python's [None]) and the
    lines it prints. *)
Record outcome := { returned : option spec_float; printed : list (list Z) }.

Definition failed (message : list Z) : outcome :=
  {| returned := None;
     printed := [Codec.codepoints "Communication error: " ++ message] |}.

(** [get_adc_voltage(channel)].  The routine is parametric in what the
    interpreter supplies: [float()] on a text ([None] for [ValueError]) and
    the message texts of the two errors the interpreter itself raises. *)
Definition get_adc_voltage
           (py_float : list Z -> option spec_float)
           (float_error ascii_error : list Z)
           (transport : list Byte.byte -> exchange) (channel : Z) : outcome :=
  match transport (request_bytes channel) with
  | ConnectFails msg | SendFails msg | RecvFails msg => failed (Codec.codepoints msg)
  | Received payload =>
    match ascii_decode payload with
    | None => failed ascii_error
    | Some t =>
      let response := Codec.strip t in
      if startswith (Codec.codepoints "ERROR") response
      then failed response
      else
        match py_float response with
        | Some v => {| returned := Some v; printed := [] |}
        | None => failed float_error
        end
    end
  end.

(** [int(text)] on a text that no [strip()] has seen.  [int] skips the
    ASCII blanks and what the interpreter maps to a blank; the separators
    U+001C to U+001F, which [str.strip()] removes, make it raise. *)
Definition int_of_text (text : list Z) : option Z :=
  if existsb (Codec.in_range 0x1C 0x1F) text then None else Codec.py_int text.

(** The channel argument of [main]: the eight channels for "all", one
    channel for an integer from 0 to 7; [None] stands for the error
    message followed by [sys.exit(1)]. *)
Definition select_channels (arg : list Z) : option (list Z) :=
  if bool_decide (arg = Codec.codepoints "all") then Some [0; 1; 2; 3; 4; 5; 6; 7]
  else
    match int_of_text arg with
    | Some channel_num =>
      if negb ((0 <=? channel_num) && (channel_num <=? 7)) then None
      else Some [channel_num]
    | None => None
    end.

(** The daemon as the client's peer: it serves the request on a
    connection of its own and whatever it sent on it is what the client's
    [recv(1024)] returns. *)
Definition daemon_exchange (s : State) (request : list Byte.byte) : exchange :=
  Received
    (take 1024
       (flat_map list_byte_of_string
          (drop (length (sent s))
             (sent (snd (serve_one (Connects (client_bytes request)) s)))))).

End Client.

(** ** [float()] on text

    What the client applies to the daemon's reply. *)
Module PyFloat.
Import Codec.

(** [float(s)] on a [str].  The interpreter first maps the text to ASCII
    (a non-ASCII space becomes a blank, a non-ASCII decimal digit its ASCII
    digit, any other non-ASCII character one that no number contains),
    strips ASCII white space, checks and drops underscores, and then reads
    a sign, and [inf], [infinity], [nan] or a decimal with an optional
    exponent.  The value is the nearest binary64, ties to even. *)
Definition to_ascii (c : Z) : Z :=
  if c <? 127 then c
  else if isspace c then 32
  else match to_decimal c with
       | Some d => 48 + d
       | None => 63
       end.

Definition is_blank (c : Z) : bool := in_range 9 13 c || (c =? 32).

Fixpoint lstrip_blank (cs : list Z) : list Z :=
  match cs with
  | c :: r => if is_blank c then lstrip_blank r else cs
  | [] => []
  end.

Definition strip_blank (cs : list Z) : list Z :=
  rev (lstrip_blank (rev (lstrip_blank cs))).

Definition is_digit (c : Z) : bool := in_range 48 57 c.

(** An underscore may only stand between two digits; [None] when one
    does not. *)
Fixpoint drop_underscores (prev : Z) (cs : list Z) : option (list Z) :=
  match cs with
  | [] => if prev =? 95 then None else Some []
  | c :: r =>
    if c =? 95 then
      if is_digit prev then drop_underscores c r else None
    else if (prev =? 95) && negb (is_digit c) then None
    else cons c <$> drop_underscores c r
  end.

(** A run of digits, continuing an accumulated value: the value, the
    number of digits read and what follows. *)
Fixpoint scan_digits (acc count : Z) (cs : list Z) : Z * Z * list Z :=
  match cs with
  | c :: r =>
    if is_digit c then scan_digits (10 * acc + (c - 48)) (count + 1) r
    else (acc, count, cs)
  | [] => (acc, count, [])
  end.

(** A decimal, [digits [. digits] [(e|E) [sign] digits]] with at least one
    digit before the exponent, as the pair of a mantissa and a power of
    ten. *)
Definition parse_decimal (cs : list Z) : option (Z * Z) :=
  let '(ip, ni, r1) := scan_digits 0 0 cs in
  let '(m, nf, r2) :=
    match r1 with
    | c :: r => if c =? 46 then scan_digits ip 0 r else (ip, 0, r1)
    | [] => (ip, 0, r1)
    end in
  if ni + nf =? 0 then None
  else
    match r2 with
    | [] => Some (m, - nf)
    | c :: r =>
      if (c =? 101) || (c =? 69) then
        let '(sgn, r3) :=
          match r with
          | s :: r' => if s =? 43 then (1, r') else if s =? 45 then (-1, r') else (1, r)
          | [] => (1, r)
          end in
        let '(ex, ne, r4) := scan_digits 0 0 r3 in
        if ne =? 0 then None
        else match r4 with
             | [] => Some (m, sgn * ex - nf)
             | _ :: _ => None
             end
      else None
    end.

(** The binary64 nearest to [m * 10 ^ e], for [m >= 0]. *)
Definition nearest (negative : bool) (m e : Z) : spec_float :=
  if m =? 0 then S754_zero negative
  else
    let p := if 0 <=? e then m * 10 ^ e else m in
    let q := if 0 <=? e then 1 else 10 ^ (- e) in
    let lg := Z.log2 p - Z.log2 q in
    let fl := if (if 0 <=? lg then q * 2 ^ lg <=? p else q <=? p * 2 ^ (- lg))
              then lg else lg - 1 in
    let e2 := Z.max (fl - 52) (-1074) in
    let mant := if e2 <? 0 then round_half_even (p * 2 ^ (- e2)) q
                else round_half_even p (q * 2 ^ e2) in
    let mant' := if mant =? 2 ^ 53 then 2 ^ 52 else mant in
    let e2' := if mant =? 2 ^ 53 then e2 + 1 else e2 in
    if mant' =? 0 then S754_zero negative
    else if 971 <? e2' then S754_infinity negative
    else S754_finite negative (Z.to_pos mant') e2'.

Definition lower (c : Z) : Z := if in_range 65 90 c then c + 32 else c.

Definition py_float (s : list Z) : option spec_float :=
  match drop_underscores 0 (strip_blank (map to_ascii s)) with
  | None => None
  | Some u =>
    let '(negative, body) :=
      match u with
      | c :: r => if c =? 45 then (true, r) else if c =? 43 then (false, r) else (false, u)
      | [] => (false, u)
      end in
    let word := map lower body in
    if bool_decide (word = codepoints "inf") || bool_decide (word = codepoints "infinity")
    then Some (S754_infinity negative)
    else if bool_decide (word = codepoints "nan") then Some S754_nan
    else
      match parse_decimal body with
      | Some (m, e) => Some (nearest negative m e)
      | None => None
      end
  end.

End PyFloat.

(** The value of a sample in ten-thousandths of a volt, as the formatter
    rounds it; zero for the values that are not finite numbers. *)
Definition ten_thousandths (v : spec_float) : Z :=
  match v with
  | S754_finite _ m e => Codec.scaled_4dp m e
  | _ => 0
  end.

(** ** The client's [main]

    Standard output is the text written to it, as code points; the
    daemon, or whatever answers on the socket, is a peer with a state of
    its own. *)
Module ClientMain.
Import Client.

(** A peer that keeps state between queries: the exchange a request gets
    and the state the peer is left in. *)
Definition peer (W : Type) : Type := W -> list Byte.byte -> exchange * W.

(** The namespace [parse_args] returns. *)
Record args :=
  { channel : list Z; verbose : bool; loop : bool; hwversion : string }.

(** How [main] ends: it returns, [sys.exit] is called, or an exception
    nothing catches ends the program. *)
Inductive ending := Returns | Exits (code : Z) | Dies_TypeError | Dies_IndexError.

(** [print(text)] *)
Definition print (text : list Z) : list Z := text ++ [10].

(** Column titles separated by tabs. *)
Fixpoint tabbed (titles : list string) : list Z :=
  match titles with
  | [] => []
  | [t] => Codec.codepoints t
  | t :: rest => Codec.codepoints t ++ 9 :: tabbed rest
  end.

Definition printheader (hwversion : string) : list Z :=
  if bool_decide (hwversion = "2.2"%string)
  then print (tabbed ["Day"; "Wind"; "Mag"; "Ch3"; "Ch4"; "Ch5"; "Ch6"; "9VFail"]%string)
  else if bool_decide (hwversion = "5.1"%string)
  then print (tabbed ["Mag"; "M2"; "M3"; "Day"; "Wind"; "Pwr5"; "Press"; "Misc"]%string)
  else if bool_decide (hwversion = "7.1"%string)
  then print (tabbed ["Day"; "Pwr5"; "Press"; "Misc"; "Mag"; "M2"; "M3"; "Wind"]%string)
  else [].

(** [round(x, 4)]: the double nearest to the value rounded to four
    decimals; what is not a finite number rounds to itself. *)
Definition round_4 (x : spec_float) : spec_float :=
  match x with
  | S754_finite s m e => PyFloat.nearest s (Codec.scaled_4dp m e) (-4)
  | _ => x
  end.

Definition float_10 : spec_float := S754_finite false 5629499534213120 (-49).
Definition float_100 : spec_float := S754_finite false 7036874417766400 (-46).

(** [x > 0] for a float [x] and the integer zero. *)
Definition gt_0 (x : spec_float) : bool :=
  match x with
  | S754_finite false _ _ | S754_infinity false => true
  | _ => false
  end.

(** An index into an array of [n] items: a negative index counts from
    the end; [None] stands for [IndexError]. *)
Definition array_index (n : nat) (i : Z) : option nat :=
  let k := if i <? 0 then i + Z.of_nat n else i in
  if (k <? 0) || (Z.of_nat n <=? k) then None else Some (Z.to_nat k).

(** [a[i] = v] on an [array('d')]: the index is checked first, then the
    value must be a number. *)
Definition setitem (a : list spec_float) (i : Z) (v : option spec_float)
  : ending + list spec_float :=
  match array_index (length a) i with
  | None => inl Dies_IndexError
  | Some k =>
    match v with
    | None => inl Dies_TypeError
    | Some x => inr (<[k := x]> a)
    end
  end.

(** [a[i]] *)
Definition getitem (a : list spec_float) (i : Z) : ending + spec_float :=
  match array_index (length a) i ≫= (a !!.) with
  | Some x => inr x
  | None => inl Dies_IndexError
  end.

Section Main.
Context {W : Type}.
(** [float()], the texts of the two errors the interpreter raises itself,
    the socket's peer and colorama's two escape sequences. *)
Variable py_float : list Z -> option spec_float.
Variables float_error ascii_error : list Z.
Variable socket : peer W.
Variables green reset_all : list Z.

(** One call of [get_adc_voltage]: it opens one connection and sends one
    request on it. *)
Definition query (channel : Z) (w : W) : outcome * W :=
  (get_adc_voltage py_float float_error ascii_error
     (fun request => fst (socket w request)) channel,
   snd (socket w (request_bytes channel))).

(** [printvalue(last, current)]: what it writes. *)
Definition printvalue (last current : spec_float) : list Z :=
  let delta := SFsub 53 1024 current last in
  let gap :=
    if gt_0 current
    then Some (SFmul 53 1024 (SFdiv 53 1024 delta current) float_100)
    else None in
  let text := Codec.codepoints (Codec.format_4f (round_4 current)) in
  if match gap with Some g => SFltb float_10 g | None => false end
  then (green ++ text ++ [32; 9]) ++ reset_all
  else text ++ [32; 9].

(** The line [main] prints for one channel outside loop mode. *)
Definition display_line (verbose : bool) (ch : Z) (voltage : option spec_float) : list Z :=
  match voltage with
  | Some voltage =>
    if verbose
    then Codec.codepoints ("Channel " +:+ Codec.py_str ch +:+ " voltage: "
                           +:+ Codec.format_4f voltage +:+ " V")
    else Codec.codepoints (Codec.format_4f voltage)
  | None => Codec.codepoints ("Error reading channel " +:+ Codec.py_str ch)
  end.

(** [for ch in channels: ...] outside loop mode: the lines printed, those
    of [get_adc_voltage] included, and the peer afterwards. *)
Fixpoint display (verbose : bool) (chans : list Z) (w : W) : list (list Z) * W :=
  match chans with
  | [] => ([], w)
  | ch :: rest =>
    let '(o, w1) := query ch w in
    let '(lines, w2) := display verbose rest w1 in
    (printed o ++ display_line verbose ch (returned o) :: lines, w2)
  end.

(** Loop mode: the variables of [main], the peer and the text written so
    far. *)
Record loop_state :=
  { linecount : Z;
    lastreading : list spec_float;
    thisreading : list spec_float;
    world : W;
    output : list Z }.

Definition write (text : list Z) (st : loop_state) : loop_state :=
  {| linecount := linecount st; lastreading := lastreading st;
     thisreading := thisreading st; world := world st;
     output := output st ++ text |}.

(** The body of [for current_channel in channels:]; an ending is the
    exception that leaves it. *)
Definition poll (current_channel : Z) (st : loop_state) : option ending * loop_state :=
  let '(o, w) := query current_channel (world st) in
  let st1 :=
    write (concat (map print (printed o)))
      {| linecount := linecount st; lastreading := lastreading st;
         thisreading := thisreading st; world := w; output := output st |} in
  match setitem (thisreading st1) current_channel (returned o) with
  | inl e => (Some e, st1)
  | inr this =>
    let st2 :=
      {| linecount := linecount st1; lastreading := lastreading st1;
         thisreading := this; world := world st1; output := output st1 |} in
    match getitem (lastreading st2) current_channel with
    | inl e => (Some e, st2)
    | inr last =>
      match getitem (thisreading st2) current_channel with
      | inl e => (Some e, st2)
      | inr current =>
        let st3 := write (printvalue last current) st2 in
        match setitem (lastreading st3) current_channel (Some current) with
        | inl e => (Some e, st3)
        | inr last' =>
          (None,
           {| linecount := linecount st3; lastreading := last';
              thisreading := thisreading st3; world := world st3;
              output := output st3 |})
        end
      end
    end
  end.

Fixpoint poll_all (chans : list Z) (st : loop_state) : option ending * loop_state :=
  match chans with
  | [] => (None, st)
  | current_channel :: rest =>
    match poll current_channel st with
    | (None, st') => poll_all rest st'
    | raised => raised
    end
  end.

(** [while True: ...] under [except KeyboardInterrupt]: the interrupt
    arrives during a [time.sleep(1)], after [sleeps] sleeps that ran to
    their end. *)
Fixpoint loop_mode (a : args) (chans : list Z) (sleeps : nat) (st : loop_state)
  : option ending * loop_state :=
  let st0 :=
    if (linecount st mod 20 =? 0) && bool_decide (channel a = Codec.codepoints "all")
    then write (printheader (hwversion a)) st
    else st in
  match poll_all chans st0 with
  | (None, st1) =>
    let st2 :=
      {| linecount := linecount st1 + 1; lastreading := lastreading st1;
         thisreading := thisreading st1; world := world st1;
         output := output st1 ++ print [] |} in
    match sleeps with
    | O => (None, write (print (10 :: Codec.codepoints "Exiting loop.")) st2)
    | S n => loop_mode a chans n st2
    end
  | raised => raised
  end.

(** [main()] from the parsed command line on: how it ends, what it wrote
    and the peer afterwards. *)
Definition main (a : args) (sleeps : nat) (w : W) : ending * list Z * W :=
  let banner :=
    if verbose a
    then print (green ++ Codec.codepoints "ADC Display") ++ print reset_all
    else [] in
  match select_channels (channel a) with
  | None =>
    (Exits 1, banner ++ print (Codec.codepoints "Error: Channel must be 0-7 or 'all'."), w)
  | Some chans =>
    if loop a then
      let zeros := replicate 8 (S754_zero false) in
      let '(raised, st) :=
        loop_mode a chans sleeps
          {| linecount := 0; lastreading := zeros; thisreading := zeros;
             world := w; output := banner |} in
      (default Returns raised, output st, world st)
    else
      let '(lines, w') := display (verbose a) chans w in
      (Returns, banner ++ concat (map print lines), w')
  end.

End Main.

(** The daemon as a peer: each query is one connection served. *)
Definition daemon_peer : peer State := fun s request =>
  (daemon_exchange s request, snd (serve_one (Connects (client_bytes request)) s)).

End ClientMain.

(** Hardware that delivers, at every read of a channel from 0 to 7, a
    sample the ADC can report, below 2^52 ten-thousandths of a volt. *)
Definition always_delivers (hw : Hardware) : Prop :=
  forall k ch, 0 <= ch <= 7 ->
    exists v, hw_sample hw k ch = Volts v /\
              Codec.nonneg_finite v = true /\ ten_thousandths v < 2 ^ 52.

(** The client's loop against a serving daemon: both arrays hold eight
    readings and the daemon has its eight channels and its hardware. *)
Definition polling (hw : Hardware) (st : ClientMain.loop_state (W := State)) : Prop :=
  length (ClientMain.lastreading st) = 8%nat /\
  length (ClientMain.thisreading st) = 8%nat /\
  channels (ClientMain.world st) = channel_set /\
  hardware (ClientMain.world st) = hw.

(** A peer on which every [connect] fails: no daemon is listening. *)
Definition nobody_listens {W : Type} (msg : string) (socket : ClientMain.peer W) : Prop :=
  forall w request, fst (socket w request) = Client.ConnectFails msg.

(** What the one-shot display writes for a channel whose query failed. *)
Definition failure_report (msg : string) (ch : Z) : list Z :=
  ClientMain.print (Codec.codepoints "Communication error: " ++ Codec.codepoints msg)
  ++ ClientMain.print (Codec.codepoints ("Error reading channel " +:+ Codec.py_str ch)).

(** [x <= y] on the exact values of two floats that are finite and not
    negative. *)
Definition le_exact (x y : spec_float) : Prop :=
  match x, y with
  | S754_zero _, (S754_zero _ | S754_finite false _ _) => True
  | S754_finite false mx ex, S754_finite false my ey =>
    Z.pos mx * 2 ^ (ex - Z.min ex ey) <= Z.pos my * 2 ^ (ey - Z.min ex ey)
  | _, _ => False
  end.

(** A float that is no positive number: a zero, a negative number, minus
    infinity or not a number. *)
Definition not_positive (x : spec_float) : bool :=
  match x with
  | S754_finite false _ _ | S754_infinity false => false
  | _ => true
  end.

(** A float that is a zero or carries the sign [s], or is not a number. *)
Definition signed (s : bool) (x : spec_float) : Prop :=
  match x with
  | S754_zero s' | S754_infinity s' | S754_finite s' _ _ => s' = s
  | S754_nan => True
  end.

(** Hardware on which every sample fails with the given exception. *)
Definition failing_hardware (cls : exc_class) (msg : string) : Hardware :=
  {| hw_digital_in_out := fun _ => None; hw_spi := None; hw_mcp3008 := None;
     hw_analog_in := fun _ => None; hw_sample := fun _ _ => ReadFails cls msg |}.

(** The reply to a request whose hardware read raised. *)
Definition read_fault_reply (cls : exc_class) (msg : string) : string :=
  if is_ValueError (Exc cls msg)
  then "ERROR: Invalid channel format"%string
  else ("ERROR: " +:+ msg)%string.

(** * Properties *)

(** ** The reply text of a voltage *)

Module CodecFacts.
Import Codec.

Lemma all_digits_string_of_uint (d : uint) :
  all_digits (NilEmpty.string_of_uint d) = true.
Proof. induction d; simpl; auto. Qed.

Lemma string_of_uint_nonempty (d : uint) : NilZero.string_of_uint d <> ""%string.
Proof. destruct d; simpl; discriminate. Qed.

Lemma all_digits_NilZero (d : uint) : all_digits (NilZero.string_of_uint d) = true.
Proof.
  destruct d; try reflexivity; apply (all_digits_string_of_uint (_ _)).
Qed.

Lemma py_str_nonneg_digits (n : Z) :
  0 <= n -> all_digits (py_str n) = true /\ py_str n <> ""%string.
Proof.
  intros Hn. unfold py_str.
  destruct n as [|p|p]; [| |lia]; simpl;
    auto using all_digits_NilZero, string_of_uint_nonempty.
Qed.

Lemma digit_char_is_digit (d : Z) : is_ascii_digit (digit_char d) = true.
Proof.
  unfold digit_char. generalize (Z.to_nat d) as k. intros k.
  do 10 (destruct k as [|k]; [reflexivity|]).
  simpl. destruct k; reflexivity.
Qed.

Lemma pad4_shape (n : Z) :
  String.length (pad4 n) = 4%nat /\ all_digits (pad4 n) = true.
Proof.
  unfold pad4. split; [reflexivity|].
  simpl. rewrite !digit_char_is_digit. reflexivity.
Qed.

Lemma span_digits_dot (ds r : string) :
  all_digits ds = true -> span_digits (ds +:+ String "." r) = (ds, String "."%char r).
Proof.
  induction ds as [|a ds IH]; simpl; intros H; [reflexivity|].
  apply andb_true_iff in H as [Ha Hds].
  rewrite Ha, (IH Hds). reflexivity.
Qed.

Lemma fixed4_is_voltage_text (n : Z) : 0 <= n -> is_voltage_text (fixed4 false n) = true.
Proof.
  intros Hn. unfold fixed4, is_voltage_text.
  assert (Hq : 0 <= n / 10000) by (apply Z.div_pos; lia).
  destruct (py_str_nonneg_digits _ Hq) as [Hd Hne].
  change ("" +:+ ?x)%string with x.
  change ("." +:+ ?x)%string with (String "."%char x).
  rewrite (span_digits_dot _ _ Hd).
  destruct (pad4_shape (n mod 10000)) as [Hlen Hall].
  rewrite Hlen, Hall.
  destruct (py_str (n / 10000)); [congruence | reflexivity].
Qed.

Lemma round_half_even_nonneg (n d : Z) : 0 <= n -> 0 < d -> 0 <= round_half_even n d.
Proof.
  intros Hn Hd. unfold round_half_even.
  assert (0 <= n / d) by (apply Z.div_pos; lia).
  repeat case_match; lia.
Qed.

Lemma scaled_4dp_nonneg (m : positive) (e : Z) : 0 <= scaled_4dp m e.
Proof.
  unfold scaled_4dp. case_match.
  - assert (0 <= 2 ^ e) by (apply Z.pow_nonneg; lia). nia.
  - apply round_half_even_nonneg; [lia|].
    apply Z.pow_pos_nonneg; lia.
Qed.

Lemma format_4f_is_voltage_text (v : spec_float) :
  nonneg_finite v = true -> is_voltage_text (format_4f v) = true.
Proof.
  destruct v as [[|]|[|]| |[|] m e]; simpl; try discriminate; intros _.
  - apply fixed4_is_voltage_text. lia.
  - apply fixed4_is_voltage_text, scaled_4dp_nonneg.
Qed.

End CodecFacts.

(** ** [int(str(n)) = n] *)

Module RoundTrip.
Import Codec.

Lemma codepoints_string_of_uint (d : uint) :
  codepoints (NilEmpty.string_of_uint d) = uint_codes d.
Proof.
  unfold codepoints. induction d; simpl; [reflexivity | ..]; now f_equal.
Qed.

Lemma uint_codes_digit (d : uint) :
  Forall (fun c => 48 <= c <= 57) (uint_codes d).
Proof. induction d; simpl; constructor; auto; lia. Qed.

Lemma to_decimal_ascii (c : Z) : 48 <= c <= 57 -> to_decimal c = Some (c - 48).
Proof.
  intros H. unfold to_decimal. simpl.
  unfold in_range. replace (48 <=? c) with true by lia.
  replace (c <=? 48 + 9) with true by lia. reflexivity.
Qed.

Lemma isspace_digit (c : Z) : 48 <= c <= 57 -> isspace c = false.
Proof. intros H. unfold isspace, in_range. lia. Qed.

Lemma parse_digits_uint (d : uint) (acc : Z) :
  parse_digits acc (uint_codes d) = Some (uint_acc d acc).
Proof.
  revert acc. induction d; intros acc; simpl; [reflexivity | ..];
    rewrite IHd; f_equal.
Qed.

Lemma uint_acc_pos (d : uint) (acc : positive) :
  uint_acc d (Z.pos acc) = Z.pos (Pos.of_uint_acc d acc).
Proof.
  revert acc. induction d; intros acc; cbn [uint_acc Pos.of_uint_acc];
    [reflexivity | ..]; rewrite <- IHd; f_equal; lia.
Qed.

Lemma uint_acc_zero (d : uint) : uint_acc d 0 = Z.of_N (Pos.of_uint d).
Proof.
  induction d; simpl; auto; apply (uint_acc_pos d).
Qed.

Lemma lstrip_head (c : Z) (r : list Z) : isspace c = false -> lstrip (c :: r) = c :: r.
Proof. intros H. simpl. now rewrite H. Qed.

Lemma strip_no_space (l : list Z) :
  Forall (fun c => isspace c = false) l -> strip l = l.
Proof.
  intros H. unfold strip, rstrip.
  assert (Hl : forall k, Forall (fun c => isspace c = false) k -> lstrip k = k).
  { intros [|c k] Hk; [reflexivity|]. inversion Hk; subst. now apply lstrip_head. }
  rewrite (Hl l H), Hl, rev_involutive; [reflexivity|].
  now apply Forall_rev.
Qed.

Lemma parse_unsigned_pos (p : positive) :
  parse_unsigned (uint_codes (Pos.to_uint p)) = Some (Z.pos p).
Proof.
  unfold parse_unsigned.
  pose proof (DecimalPos.Unsigned.to_uint_nonnil p) as Hnil.
  pose proof (uint_codes_digit (Pos.to_uint p)) as Hd.
  destruct (uint_codes (Pos.to_uint p)) as [|c r] eqn:E.
  { destruct (Pos.to_uint p); try discriminate E. congruence. }
  inversion Hd; subst. rewrite to_decimal_ascii by assumption.
  destruct (is_Some_dec _) as [_|n]; [| exfalso; apply n; eauto].
  rewrite <- E, parse_digits_uint, uint_acc_zero, DecimalPos.Unsigned.of_to.
  reflexivity.
Qed.

Lemma py_int_py_str (n : Z) : py_int (codepoints (py_str n)) = Some n.
Proof.
  unfold py_str, py_int. destruct n as [|p|p]; [reflexivity | |].
  - simpl Z.to_int. unfold NilZero.string_of_int, NilZero.string_of_uint.
    pose proof (DecimalPos.Unsigned.to_uint_nonnil p) as Hnil.
    pose proof (uint_codes_digit (Pos.to_uint p)) as Hd.
    pose proof (parse_unsigned_pos p) as Hp.
    assert (E : codepoints match Pos.to_uint p with
                           | Nil => "0"%string
                           | _ => NilEmpty.string_of_uint (Pos.to_uint p)
                           end = uint_codes (Pos.to_uint p)).
    { rewrite <- codepoints_string_of_uint. destruct (Pos.to_uint p); congruence. }
    rewrite E, strip_no_space.
    2:{ eapply Forall_impl; [exact Hd|]. intros; now apply isspace_digit. }
    destruct (uint_codes (Pos.to_uint p)) as [|c r]; [discriminate Hp|].
    inversion Hd; subst. unfold minus_sign, plus_sign.
    replace (c =? 45) with false by lia. replace (c =? 43) with false by lia.
    exact Hp.
  - simpl Z.to_int. unfold NilZero.string_of_int.
    pose proof (uint_codes_digit (Pos.to_uint p)) as Hd.
    assert (E : codepoints (String "-" (NilZero.string_of_uint (Pos.to_uint p)))
                = 45 :: uint_codes (Pos.to_uint p)).
    { pose proof (DecimalPos.Unsigned.to_uint_nonnil p).
      unfold NilZero.string_of_uint.
      rewrite <- codepoints_string_of_uint.
      destruct (Pos.to_uint p); [congruence | reflexivity ..]. }
    rewrite E, strip_no_space.
    2:{ constructor; [reflexivity|].
        eapply Forall_impl; [exact Hd|]. intros; now apply isspace_digit. }
    simpl. rewrite parse_unsigned_pos. reflexivity.
Qed.

End RoundTrip.

(** ** Running the monad *)

Ltac run_monad :=
  repeat (unfold mbind, M_bind, mret, M_ret, get, modify, raise, sys_exit,
            lib_call, time_sleep_ms in *; cbn beta iota zeta delta [fst snd] in *).

Lemma bind_run {A B} (m : M A) (f : A -> M B) (s : State) :
  (m ≫= f) s = match m s with
               | (Ok a, s') => f a s'
               | (Raise e, s') => (Raise e, s')
               end.
Proof. reflexivity. Qed.

Lemma log_message_json_run (m : log_message) (l : Z) (sv : string) (s : State) :
  log_message_json m l sv s
  = (Ok tt, logged {| lr_message := m; lr_level := l; lr_severity := sv |} s).
Proof.
  unfold log_message_json, logged. run_monad. simpl.
  destruct (loglevel s >=? l); reflexivity.
Qed.

Section LoggedProjections.
Variables (r : log_record) (s : State).

Ltac by_cases := unfold logged; destruct (loglevel s >=? lr_level r); reflexivity.

Lemma logged_loglevel : loglevel (logged r s) = loglevel s.
Proof. by_cases. Qed.
Lemma logged_socket_file : socket_file (logged r s) = socket_file s.
Proof. by_cases. Qed.
Lemma logged_channels : channels (logged r s) = channels s.
Proof. by_cases. Qed.
Lemma logged_hardware : hardware (logged r s) = hardware s.
Proof. by_cases. Qed.
Lemma logged_fs : fs (logged r s) = fs s.
Proof. by_cases. Qed.
Lemma logged_handled : handled_signals (logged r s) = handled_signals s.
Proof. by_cases. Qed.
Lemma logged_stderr : stderr (logged r s) = stderr s.
Proof. by_cases. Qed.
Lemma logged_reads : reads (logged r s) = reads s.
Proof. by_cases. Qed.
Lemma logged_server : server (logged r s) = server s.
Proof. by_cases. Qed.
Lemma logged_accepted : accepted (logged r s) = accepted s.
Proof. by_cases. Qed.
Lemma logged_closed : closed (logged r s) = closed s.
Proof. by_cases. Qed.
Lemma logged_sent : sent (logged r s) = sent s.
Proof. by_cases. Qed.
Lemma logged_sleeps : sleeps (logged r s) = sleeps s.
Proof. by_cases. Qed.

Lemma logged_stdout_on :
  lr_level r <= loglevel s -> stdout (logged r s) = stdout s ++ [r].
Proof.
  intros H. unfold logged.
  replace (loglevel s >=? lr_level r) with true by lia. reflexivity.
Qed.

Lemma logged_syslog_on :
  lr_level r <= loglevel s -> syslog_out (logged r s) = syslog_out s ++ [r].
Proof.
  intros H. unfold logged.
  replace (loglevel s >=? lr_level r) with true by lia. reflexivity.
Qed.

Lemma logged_off : loglevel s < lr_level r -> logged r s = s.
Proof.
  intros H. unfold logged.
  replace (loglevel s >=? lr_level r) with false by lia. reflexivity.
Qed.
End LoggedProjections.

Create Rewrite HintDb logged.

#[global] Hint Rewrite logged_loglevel logged_socket_file logged_channels
  logged_hardware logged_fs logged_handled logged_stderr logged_reads
  logged_server logged_accepted logged_closed logged_sent logged_sleeps : logged.

(** ** One request through the codec *)

Lemma list_getitem_channel_set (i : Z) :
  0 <= i <= 7 -> list_getitem channel_set i = mret {| ain_pin := i |}.
Proof.
  intros H.
  assert (i = 0 \/ i = 1 \/ i = 2 \/ i = 3 \/ i = 4 \/ i = 5 \/ i = 6 \/ i = 7)
    as Hi by lia.
  repeat destruct Hi as [->|Hi]; try subst i; reflexivity.
Qed.

Lemma dispatch_voltage (s : State) (data : list Byte.byte) (cs : list Z)
      (i : Z) (v : spec_float) :
  Codec.utf8_decode data = Some cs ->
  Codec.py_int (Codec.strip cs) = Some i ->
  0 <= i <= 7 ->
  channels s = channel_set ->
  hw_sample (hardware s) (length (reads s)) i = Volts v ->
  dispatch data s
  = (Ok (Codec.format_4f v),
     logged (voltage_record i (Codec.format_4f v))
       (record_read i (logged (request_record i) s))).
Proof.
  intros Hdec Hint Hi Hch Hv.
  unfold dispatch, decode_strip, int_of_str. rewrite Hdec.
  rewrite bind_run. unfold mret at 1, M_ret at 1. rewrite Hint.
  rewrite bind_run. unfold mret at 1, M_ret at 1.
  rewrite bind_run, log_message_json_run.
  replace ((0 <=? i) && (i <=? 7)) with true by lia.
  rewrite bind_run. unfold get at 1.
  rewrite bind_run, logged_channels, Hch, list_getitem_channel_set by assumption.
  unfold mret at 1, M_ret at 1.
  rewrite bind_run. unfold voltage.
  rewrite bind_run. unfold get at 1. rewrite bind_run. unfold modify at 1.
  rewrite logged_hardware, logged_reads. cbn [ain_pin]. rewrite Hv.
  unfold mret at 1, M_ret at 1.
  rewrite bind_run, log_message_json_run. reflexivity.
Qed.

Lemma dispatch_out_of_range (s : State) (data : list Byte.byte) (cs : list Z) (i : Z) :
  Codec.utf8_decode data = Some cs ->
  Codec.py_int (Codec.strip cs) = Some i ->
  i < 0 \/ 7 < i ->
  dispatch data s
  = (Ok "ERROR: Channel must be 0-7"%string, logged (request_record i) s).
Proof.
  intros Hdec Hint Hi.
  unfold dispatch, decode_strip, int_of_str. rewrite Hdec.
  rewrite bind_run. unfold mret at 1, M_ret at 1. rewrite Hint.
  rewrite bind_run. unfold mret at 1, M_ret at 1.
  rewrite bind_run, log_message_json_run.
  replace ((0 <=? i) && (i <=? 7)) with false by lia.
  reflexivity.
Qed.

Lemma dispatch_unparsable (s : State) (data : list Byte.byte) :
  (forall cs, Codec.utf8_decode data = Some cs -> Codec.py_int (Codec.strip cs) = None) ->
  exists e, dispatch data s = (Raise e, s) /\ is_ValueError e = true.
Proof.
  intros H. unfold dispatch, decode_strip, int_of_str.
  destruct (Codec.utf8_decode data) as [cs|] eqn:Hdec.
  - rewrite bind_run. unfold mret at 1, M_ret at 1.
    rewrite (H cs eq_refl). eexists; split; reflexivity.
  - eexists; split; reflexivity.
Qed.

Lemma respond_voltage (s : State) (data : list Byte.byte) (cs : list Z)
      (i : Z) (v : spec_float) :
  Codec.utf8_decode data = Some cs ->
  Codec.py_int (Codec.strip cs) = Some i ->
  0 <= i <= 7 ->
  channels s = channel_set ->
  hw_sample (hardware s) (length (reads s)) i = Volts v ->
  respond data s
  = (Ok (Codec.format_4f v),
     logged (voltage_record i (Codec.format_4f v))
       (record_read i (logged (request_record i) s))).
Proof.
  intros. unfold respond, try_except.
  erewrite dispatch_voltage by eassumption. reflexivity.
Qed.

Lemma respond_out_of_range (s : State) (data : list Byte.byte) (cs : list Z) (i : Z) :
  Codec.utf8_decode data = Some cs ->
  Codec.py_int (Codec.strip cs) = Some i ->
  i < 0 \/ 7 < i ->
  respond data s
  = (Ok "ERROR: Channel must be 0-7"%string, logged (request_record i) s).
Proof.
  intros. unfold respond, try_except.
  erewrite dispatch_out_of_range by eassumption. reflexivity.
Qed.

Lemma respond_unparsable (s : State) (data : list Byte.byte) :
  (forall cs, Codec.utf8_decode data = Some cs -> Codec.py_int (Codec.strip cs) = None) ->
  respond data s = (Ok "ERROR: Invalid channel format"%string, s).
Proof.
  intros H. destruct (dispatch_unparsable s data H) as (e & He & Hv).
  unfold respond, try_except. rewrite He. simpl. rewrite Hv. reflexivity.
Qed.

(** A well-behaved connection that carried a request gets exactly the
    codec's reply, and is closed afterwards. *)
Lemma serve_one_reply (s s1 : State) (c : connection) (reply : string) :
  conn_recv_fault c = None ->
  conn_send_fault c = None ->
  received c <> [] ->
  respond (received c) (count_accept s) = (Ok reply, s1) ->
  serve_one (Connects c) s = (Ok tt, count_close (record_sent reply s1)).
Proof.
  intros Hr Hs Hne Hresp.
  unfold serve_one, try_except, server_accept. run_monad.
  unfold with_closing, handle_connection, conn_recv, conn_sendall.
  rewrite Hr, Hs. run_monad. fold (received c).
  destruct (received c) as [|b bs] eqn:E; [congruence|].
  rewrite Hresp. reflexivity.
Qed.

Lemma parsed_payload_nonempty (data : list Byte.byte) (cs : list Z) (i : Z) :
  Codec.utf8_decode data = Some cs ->
  Codec.py_int (Codec.strip cs) = Some i ->
  data <> [].
Proof. intros Hdec Hint ->. cbv in Hdec. injection Hdec as <-. discriminate Hint. Qed.

(** ** Serving a single request *)

(** C1.  For every channel index [i] in [0,7], a request whose payload
    decodes and strips to the decimal string of [i] is answered with the
    sampled voltage in fixed four-decimal form (digits, a dot, four
    digits, nothing after), and serving it performs exactly one hardware
    read, on channel [i].  The sample is one the ADC can report: the read
    succeeds and the voltage is finite and not negative. *)
Theorem C1_channel_request_voltage_reply
        (s : State) (c : connection) (cs : list Z) (i : Z) (v : spec_float) :
  0 <= i <= 7 ->
  conn_recv_fault c = None ->
  conn_send_fault c = None ->
  Codec.utf8_decode (received c) = Some cs ->
  Codec.strip cs = Codec.codepoints (Codec.py_str i) ->
  channels s = channel_set ->
  hw_sample (hardware s) (length (reads s)) i = Volts v ->
  Codec.nonneg_finite v = true ->
  fst (serve_one (Connects c) s) = Ok tt /\
  sent (snd (serve_one (Connects c) s)) = sent s ++ [Codec.format_4f v] /\
  Codec.is_voltage_text (Codec.format_4f v) = true /\
  reads (snd (serve_one (Connects c) s)) = reads s ++ [i].
Proof.
  intros Hi Hr Hs Hdec Hstrip Hch Hv Hfin.
  assert (Hint : Codec.py_int (Codec.strip cs) = Some i)
    by (rewrite Hstrip; apply RoundTrip.py_int_py_str).
  pose proof (respond_voltage (count_accept s) _ _ _ _ Hdec Hint Hi Hch Hv) as Hresp.
  rewrite (serve_one_reply _ _ _ _ Hr Hs (parsed_payload_nonempty _ _ _ Hdec Hint) Hresp).
  cbn [fst snd count_close record_sent sent reads].
  autorewrite with logged. cbn [record_read sent reads].
  autorewrite with logged.
  auto using CodecFacts.format_4f_is_voltage_text.
Qed.

Lemma C1_witness :
  sent (snd (serve_one (Connects (client "2")) (serving_state 3))) = ["1.6500"%string] /\
  reads (snd (serve_one (Connects (client "2")) (serving_state 3))) = [2].
Proof.
  pose proof (C1_channel_request_voltage_reply (serving_state 3) (client "2")
                [50] 2 volts_1_65) as H.
  destruct H as (_ & Hsent & _ & Hreads);
    [lia | reflexivity | reflexivity | reflexivity | reflexivity | reflexivity
     | reflexivity | reflexivity |].
  split; [exact Hsent | exact Hreads].
Defined.

(** C2.  For every channel index outside [0,7], negative or at least 8,
    the reply is exactly "ERROR: Channel must be 0-7"; no voltage is
    sampled or sent. *)
Theorem C2_out_of_range_reply
        (s : State) (c : connection) (cs : list Z) (i : Z) :
  conn_recv_fault c = None ->
  conn_send_fault c = None ->
  Codec.utf8_decode (received c) = Some cs ->
  Codec.py_int (Codec.strip cs) = Some i ->
  i < 0 \/ 7 < i ->
  fst (serve_one (Connects c) s) = Ok tt /\
  sent (snd (serve_one (Connects c) s)) = sent s ++ ["ERROR: Channel must be 0-7"%string] /\
  reads (snd (serve_one (Connects c) s)) = reads s.
Proof.
  intros Hr Hs Hdec Hint Hi.
  pose proof (respond_out_of_range (count_accept s) _ _ _ Hdec Hint Hi) as Hresp.
  rewrite (serve_one_reply _ _ _ _ Hr Hs (parsed_payload_nonempty _ _ _ Hdec Hint) Hresp).
  cbn [fst snd count_close record_sent sent reads].
  autorewrite with logged. auto.
Qed.

Lemma C2_witness :
  sent (snd (serve_one (Connects (client "9")) (serving_state 3)))
  = ["ERROR: Channel must be 0-7"%string] /\
  sent (snd (serve_one (Connects (client "-1")) (serving_state 3)))
  = ["ERROR: Channel must be 0-7"%string].
Proof.
  split.
  - apply (C2_out_of_range_reply (serving_state 3) (client "9") [57] 9);
      [reflexivity | reflexivity | reflexivity | reflexivity | lia].
  - apply (C2_out_of_range_reply (serving_state 3) (client "-1") [45; 49] (-1));
      [reflexivity | reflexivity | reflexivity | reflexivity | lia].
Defined.

(** C3.  For every non-empty payload whose text does not parse as a
    base-10 integer (a payload that is not UTF-8 at all included), the
    reply is exactly "ERROR: Invalid channel format". *)
Theorem C3_unparsable_reply (s : State) (c : connection) :
  conn_recv_fault c = None ->
  conn_send_fault c = None ->
  received c <> [] ->
  (forall cs, Codec.utf8_decode (received c) = Some cs ->
              Codec.py_int (Codec.strip cs) = None) ->
  fst (serve_one (Connects c) s) = Ok tt /\
  sent (snd (serve_one (Connects c) s)) = sent s ++ ["ERROR: Invalid channel format"%string] /\
  reads (snd (serve_one (Connects c) s)) = reads s.
Proof.
  intros Hr Hs Hne Hbad.
  rewrite (serve_one_reply _ _ _ _ Hr Hs Hne (respond_unparsable (count_accept s) _ Hbad)).
  auto.
Qed.

Lemma C3_witness :
  sent (snd (serve_one (Connects (client "abc")) (serving_state 3)))
  = ["ERROR: Invalid channel format"%string] /\
  sent (snd (serve_one (Connects (client "   ")) (serving_state 3)))
  = ["ERROR: Invalid channel format"%string] /\
  sent (snd (serve_one (Connects (client "3.5")) (serving_state 3)))
  = ["ERROR: Invalid channel format"%string].
Proof.
  split; [|split].
  - apply (C3_unparsable_reply (serving_state 3) (client "abc"));
      [reflexivity | reflexivity | discriminate |].
    intros cs [= <-]. reflexivity.
  - apply (C3_unparsable_reply (serving_state 3) (client "   "));
      [reflexivity | reflexivity | discriminate |].
    intros cs [= <-]. reflexivity.
  - apply (C3_unparsable_reply (serving_state 3) (client "3.5"));
      [reflexivity | reflexivity | discriminate |].
    intros cs [= <-]. reflexivity.
Defined.

(** C9.  The parser takes whatever [int()] takes once the payload is
    decoded and stripped, not just bare ASCII digits: a sign, surrounding
    white space and non-ASCII decimal digits all parse, and a parsed value
    in [0,7] gets the ordinary voltage reply for that channel. *)
Theorem C9_int_literal_forms
        (s : State) (c : connection) (cs : list Z) (i : Z) (v : spec_float) :
  conn_recv_fault c = None ->
  conn_send_fault c = None ->
  Codec.utf8_decode (received c) = Some cs ->
  Codec.py_int (Codec.strip cs) = Some i ->
  0 <= i <= 7 ->
  channels s = channel_set ->
  hw_sample (hardware s) (length (reads s)) i = Volts v ->
  fst (serve_one (Connects c) s) = Ok tt /\
  sent (snd (serve_one (Connects c) s)) = sent s ++ [Codec.format_4f v] /\
  reads (snd (serve_one (Connects c) s)) = reads s ++ [i].
Proof.
  intros Hr Hs Hdec Hint Hi Hch Hv.
  pose proof (respond_voltage (count_accept s) _ _ _ _ Hdec Hint Hi Hch Hv) as Hresp.
  rewrite (serve_one_reply _ _ _ _ Hr Hs (parsed_payload_nonempty _ _ _ Hdec Hint) Hresp).
  cbn [fst snd count_close record_sent sent reads].
  autorewrite with logged. cbn [record_read sent reads].
  autorewrite with logged. auto.
Qed.

Lemma C9_witness :
  (Codec.py_int [43; 51] = Some 3 /\
   sent (snd (serve_one (Connects (client "+3")) (serving_state 3))) = ["1.6500"%string] /\
   reads (snd (serve_one (Connects (client "+3")) (serving_state 3))) = [3]) /\
  (Codec.py_int [32; 51; 32] = Some 3 /\
   sent (snd (serve_one (Connects (client " 3 ")) (serving_state 3))) = ["1.6500"%string] /\
   reads (snd (serve_one (Connects (client " 3 ")) (serving_state 3))) = [3]) /\
  (Codec.utf8_decode [Byte.xd9; Byte.xa3] = Some [0x663] /\
   Codec.py_int [0x663] = Some 3 /\
   sent (snd (serve_one (Connects (client_bytes [Byte.xd9; Byte.xa3])) (serving_state 3)))
   = ["1.6500"%string] /\
   reads (snd (serve_one (Connects (client_bytes [Byte.xd9; Byte.xa3])) (serving_state 3)))
   = [3]).
Proof.
  split; [|split].
  - split; [reflexivity|].
    apply (C9_int_literal_forms (serving_state 3) (client "+3") [43; 51] 3 volts_1_65);
      [reflexivity | reflexivity | reflexivity | reflexivity | lia | reflexivity | reflexivity].
  - split; [reflexivity|].
    apply (C9_int_literal_forms (serving_state 3) (client " 3 ") [32; 51; 32] 3 volts_1_65);
      [reflexivity | reflexivity | reflexivity | reflexivity | lia | reflexivity | reflexivity].
  - split; [reflexivity|]. split; [reflexivity|].
    apply (C9_int_literal_forms (serving_state 3) (client_bytes [Byte.xd9; Byte.xa3])
             [0x663] 3 volts_1_65);
      [reflexivity | reflexivity | reflexivity | reflexivity | lia | reflexivity | reflexivity].
Defined.

(** C4, counterexample.  "Empty after trimming" is not what decides the
    no-reply path: a payload of one space is empty after trimming, yet it
    is answered, with the format error. *)
Lemma C4_whitespace_payload_is_answered :
  Codec.utf8_decode (received (client " ")) = Some [32] /\
  Codec.strip [32] = [] /\
  sent (serving_state 3) = [] /\
  sent (snd (serve_one (Connects (client " ")) (serving_state 3)))
  = ["ERROR: Invalid channel format"%string].
Proof. repeat split. Qed.

(** C4, amended.  A payload of zero bytes (the peer closed without
    writing) is dropped: nothing is sent, sampled, logged or slept on, the
    connection is closed and the loop goes on.  A payload that has bytes
    but is empty after trimming is not dropped; it gets the reply
    "ERROR: Invalid channel format". *)
Theorem C4_empty_payload_dropped (s : State) (c : connection) :
  conn_recv_fault c = None ->
  (received c = [] ->
   serve_one (Connects c) s = (Ok tt, count_close (count_accept s))) /\
  (forall cs,
     received c <> [] ->
     conn_send_fault c = None ->
     Codec.utf8_decode (received c) = Some cs ->
     Codec.strip cs = [] ->
     fst (serve_one (Connects c) s) = Ok tt /\
     sent (snd (serve_one (Connects c) s))
     = sent s ++ ["ERROR: Invalid channel format"%string]).
Proof.
  intros Hr. split.
  - intros He.
    unfold serve_one, try_except, server_accept. run_monad.
    unfold with_closing, handle_connection, conn_recv.
    rewrite Hr. run_monad. fold (received c). rewrite He. reflexivity.
  - intros cs Hne Hs Hdec Hstrip.
    assert (Hbad : forall cs', Codec.utf8_decode (received c) = Some cs' ->
                               Codec.py_int (Codec.strip cs') = None).
    { intros cs' Hdec'. rewrite Hdec in Hdec'. injection Hdec' as <-.
      rewrite Hstrip. reflexivity. }
    rewrite (serve_one_reply _ _ _ _ Hr Hs Hne (respond_unparsable (count_accept s) _ Hbad)).
    auto.
Qed.

Lemma C4_witness :
  sent (snd (serve_one (Connects (client "")) (serving_state 3))) = [] /\
  closed (snd (serve_one (Connects (client "")) (serving_state 3))) = 1%nat /\
  sent (snd (serve_one (Connects (client " ")) (serving_state 3)))
  = ["ERROR: Invalid channel format"%string].
Proof.
  destruct (C4_empty_payload_dropped (serving_state 3) (client "") eq_refl) as [H _].
  destruct (C4_empty_payload_dropped (serving_state 3) (client " ") eq_refl) as [_ H'].
  rewrite (H eq_refl).
  split; [reflexivity | split; [reflexivity|]].
  apply (H' [32]); [discriminate | reflexivity | reflexivity | reflexivity].
Defined.

(** ** What the actions of the loop leave alone *)

Section Compositional.
Context {X A B : Type} (view : State -> X).

Lemma unchanged_ret (a : A) : unchanged view (mret a : M A).
Proof. intros s. reflexivity. Qed.

Lemma unchanged_raise (e : exc) : unchanged view (raise e : M A).
Proof. intros s. reflexivity. Qed.

Lemma unchanged_bind (m : M A) (f : A -> M B) :
  unchanged view m -> (forall a, unchanged view (f a)) -> unchanged view (m ≫= f).
Proof.
  intros Hm Hf s. rewrite bind_run. specialize (Hm s).
  destruct (m s) as [[a|e] s1]; cbn [snd] in *; [|assumption].
  rewrite <- Hm. apply Hf.
Qed.

Lemma unchanged_select (e : exc) (clauses : list (except_clause A)) :
  Forall (fun cl => forall e', unchanged view (snd cl e')) clauses ->
  unchanged view (select_clause e clauses).
Proof.
  induction 1 as [|[catches handler] rest Hh _ IH]; cbn [select_clause].
  - apply unchanged_raise.
  - destruct (catches e); [apply Hh | apply IH].
Qed.

Lemma unchanged_try_except (body : M A) (clauses : list (except_clause A)) :
  unchanged view body ->
  Forall (fun cl => forall e', unchanged view (snd cl e')) clauses ->
  unchanged view (try_except body clauses).
Proof.
  intros Hb Hc s. unfold try_except. specialize (Hb s).
  destruct (body s) as [[a|e] s1]; cbn [snd] in *; [assumption|].
  rewrite <- Hb. now apply unchanged_select.
Qed.

Lemma unchanged_with_closing (body : M A) (finish : M unit) :
  unchanged view body -> unchanged view finish ->
  unchanged view (with_closing body finish).
Proof.
  intros Hb Hf s. unfold with_closing. specialize (Hb s).
  destruct (body s) as [r s1]; cbn [snd] in *.
  rewrite <- Hb. apply Hf.
Qed.

Lemma unchanged_get : unchanged view get.
Proof. intros s. reflexivity. Qed.

Lemma unchanged_modify (f : State -> State) :
  (forall s, view (f s) = view s) -> unchanged view (modify f).
Proof. intros H s. apply H. Qed.

Lemma unchanged_lib_call (o : option (exc_class * string)) : unchanged view (lib_call o).
Proof. destruct o as [[cls msg]|]; intros s; reflexivity. Qed.

Lemma unchanged_log (m : log_message) (l : Z) (sv : string) :
  (forall r s, view (emit r s) = view s) ->
  unchanged view (log_message_json m l sv).
Proof.
  intros H s. rewrite log_message_json_run. cbn [snd].
  unfold logged. destruct (_ >=? _); [apply H | reflexivity].
Qed.

Lemma only_ret (a : A) : only_Exception (mret a : M A).
Proof. intros s e s' H. discriminate H. Qed.

Lemma only_raise_Exc (cls : exc_class) (msg : string) :
  only_Exception (raise (Exc cls msg) : M A).
Proof. intros s e s' [= <- _]. reflexivity. Qed.

Lemma only_bind (m : M A) (f : A -> M B) :
  only_Exception m -> (forall a, only_Exception (f a)) -> only_Exception (m ≫= f).
Proof.
  intros Hm Hf s e s'. rewrite bind_run.
  destruct (m s) as [[a|e0] s1] eqn:E.
  - apply Hf.
  - intros [= <- _]. eapply Hm, E.
Qed.

Lemma only_select (e : exc) (clauses : list (except_clause A)) :
  is_Exception e = true ->
  Forall (fun cl => forall e', only_Exception (snd cl e')) clauses ->
  only_Exception (select_clause e clauses).
Proof.
  intros He. induction 1 as [|[catches handler] rest Hh _ IH]; cbn [select_clause].
  - intros s e' s' [= <- _]. assumption.
  - destruct (catches e); [apply Hh | apply IH].
Qed.

Lemma only_try_except (body : M A) (clauses : list (except_clause A)) :
  only_Exception body ->
  Forall (fun cl => forall e', only_Exception (snd cl e')) clauses ->
  only_Exception (try_except body clauses).
Proof.
  intros Hb Hc s e s'. unfold try_except.
  destruct (body s) as [[a|e0] s1] eqn:E; [discriminate|].
  apply only_select; [eapply Hb, E | assumption].
Qed.

Lemma only_with_closing (body : M A) (finish : M unit) :
  only_Exception body -> only_Exception (with_closing body finish).
Proof.
  intros Hb s e s'. unfold with_closing.
  destruct (body s) as [r s1] eqn:E. intros [= -> _]. eapply Hb, E.
Qed.

End Compositional.

(** A coarser view is unchanged when a finer one is. *)
Lemma unchanged_coarser {X Y A} (fine : State -> X) (coarse : State -> Y) (m : M A) :
  (forall s s', fine s' = fine s -> coarse s' = coarse s) ->
  unchanged fine m -> unchanged coarse m.
Proof. intros H Hm s. apply H, Hm. Qed.

Lemma beyond_request_globals (s s' : State) :
  beyond_request s' = beyond_request s -> globals s' = globals s.
Proof. unfold beyond_request. congruence. Qed.

Lemma only_get : only_Exception get.
Proof. intros s e s' H. discriminate H. Qed.

Lemma only_modify (f : State -> State) : only_Exception (modify f).
Proof. intros s e s' H. discriminate H. Qed.

Lemma only_lib_call (o : option (exc_class * string)) : only_Exception (lib_call o).
Proof.
  destruct o as [[cls msg]|]; intros s e s'; cbn; intros [= <- _] || discriminate.
  reflexivity.
Qed.

Lemma only_log (m : log_message) (l : Z) (sv : string) :
  only_Exception (log_message_json m l sv).
Proof. intros s e s'. rewrite log_message_json_run. discriminate. Qed.

Create HintDb daemon.

#[global] Hint Resolve unchanged_ret unchanged_raise unchanged_get
  unchanged_lib_call only_ret only_raise_Exc only_bind only_try_except
  only_with_closing only_get only_modify only_lib_call only_log : daemon.

Ltac daemon_step :=
  match goal with
  | |- unchanged _ (_ ≫= _) => apply unchanged_bind; [|intros ?]
  | |- only_Exception (_ ≫= _) => apply only_bind; [|intros ?]
  | |- unchanged _ (try_except _ _) => apply unchanged_try_except
  | |- only_Exception (try_except _ _) => apply only_try_except
  | |- unchanged _ (with_closing _ _) => apply unchanged_with_closing
  | |- only_Exception (with_closing _ _) => apply only_with_closing
  | |- unchanged _ (modify _) => apply unchanged_modify; intros ?; reflexivity
  | |- unchanged _ (log_message_json _ _ _) => apply unchanged_log; intros ? ?; reflexivity
  | |- Forall _ [] => constructor
  | |- Forall _ (_ :: _) => constructor; [intros ?; cbn [snd]|]
  | |- unchanged _ (match ?x with _ => _ end) => destruct x
  | |- only_Exception (match ?x with _ => _ end) => destruct x
  | |- _ => solve [eauto with daemon]
  end.

Ltac daemon := repeat daemon_step.

Lemma unchanged_list_getitem {X A} (view : State -> X) (l : list A) (i : Z) :
  unchanged view (list_getitem l i).
Proof. unfold list_getitem. daemon. Qed.

Lemma only_list_getitem {A} (l : list A) (i : Z) : only_Exception (list_getitem l i).
Proof. unfold list_getitem. daemon. Qed.

Lemma unchanged_voltage (h : AnalogIn) : unchanged beyond_request (voltage h).
Proof. unfold voltage. daemon. Qed.

Lemma only_voltage (h : AnalogIn) : only_Exception (voltage h).
Proof. unfold voltage. daemon. Qed.

#[global] Hint Resolve unchanged_list_getitem only_list_getitem unchanged_voltage
  only_voltage : daemon.

Lemma unchanged_dispatch (data : list Byte.byte) : unchanged beyond_request (dispatch data).
Proof. unfold dispatch, decode_strip, int_of_str. daemon. Qed.

Lemma only_dispatch (data : list Byte.byte) : only_Exception (dispatch data).
Proof. unfold dispatch, decode_strip, int_of_str. daemon. Qed.

#[global] Hint Resolve unchanged_dispatch only_dispatch : daemon.

Lemma unchanged_respond (data : list Byte.byte) : unchanged beyond_request (respond data).
Proof. unfold respond. daemon. Qed.

(** The codec always produces a reply: every failure of the inner [try]
    is an [Exception], and the two clauses between them catch those. *)
Lemma respond_total (data : list Byte.byte) (s : State) :
  exists reply s1, respond data s = (Ok reply, s1).
Proof.
  unfold respond, try_except.
  destruct (dispatch data s) as [[reply|e] s1] eqn:E; [eauto|].
  apply only_dispatch in E. cbn [select_clause].
  destruct (is_ValueError e); [eauto|]. rewrite E. eauto.
Qed.

#[global] Hint Resolve unchanged_respond : daemon.

Lemma unchanged_handle_connection (c : connection) :
  unchanged beyond_request (handle_connection c).
Proof. unfold handle_connection, conn_recv, conn_sendall. daemon. Qed.

Lemma only_handle_connection (c : connection) : only_Exception (handle_connection c).
Proof.
  unfold handle_connection, conn_recv, conn_sendall. daemon.
Qed.

Lemma globals_handle_connection (c : connection) :
  unchanged globals (handle_connection c).
Proof.
  eapply unchanged_coarser;
    [apply beyond_request_globals | apply unchanged_handle_connection].
Qed.

Lemma unchanged_signal_handler (sig : signal) : unchanged globals (signal_handler sig).
Proof. unfold signal_handler, sys_exit, os_path_exists, os_unlink. daemon. Qed.

Lemma unchanged_deliver (sig : signal) : unchanged globals (deliver sig).
Proof. unfold deliver. daemon; apply unchanged_signal_handler. Qed.

#[global] Hint Resolve globals_handle_connection only_handle_connection
  unchanged_signal_handler unchanged_deliver : daemon.

Lemma unchanged_serve_one (ev : event) : unchanged globals (serve_one ev).
Proof. unfold serve_one, server_accept, time_sleep_ms. daemon. Qed.

Lemma unchanged_accept_loop (evs : list event) : unchanged globals (accept_loop evs).
Proof.
  induction evs; cbn [accept_loop]; daemon.
  apply unchanged_serve_one.
Qed.

(** ** The accept loop *)

(** C8.  Serving a request leaves the daemon's state as it was: the
    channel set and the socket path are the same before and after every
    connection, whatever the payload, and so after any run of the loop.
    Only the voltage sent back can differ between two identical
    requests. *)
Theorem C8_requests_leave_daemon_state (s : State) :
  (forall ev,
     channels (snd (serve_one ev s)) = channels s /\
     socket_file (snd (serve_one ev s)) = socket_file s) /\
  (forall evs,
     channels (snd (accept_loop evs s)) = channels s /\
     socket_file (snd (accept_loop evs s)) = socket_file s) /\
  (exists s0 c,
     sent (snd (accept_loop [Connects c; Connects c] s0))
     = ["1.6500"; "0.0000"]%string).
Proof.
  split; [|split].
  - intros ev. pose proof (unchanged_serve_one ev s) as H.
    unfold globals in H. split; congruence.
  - intros evs. pose proof (unchanged_accept_loop evs s) as H.
    unfold globals in H. split; congruence.
  - exists (set_channels channel_set (initial_state drifting_hardware ∅)), (client "0").
    reflexivity.
Qed.

Lemma serve_one_fault (s : State) (ev : event) (cls : exc_class) (msg : string) :
  service_fault ev = Some (cls, msg) ->
  exists s1,
    serve_one ev s = (Ok tt, record_sleep 100 (logged (error_record msg) s1)) /\
    beyond_request s1 = beyond_request s.
Proof.
  destruct ev as [c|cls' msg'|sig]; cbn [service_fault]; [| |discriminate].
  - destruct (conn_recv_fault c) as [[cls' msg']|] eqn:Hr.
    + intros [= -> ->]. exists (count_close (count_accept s)). split; [|reflexivity].
      unfold serve_one, try_except, server_accept. run_monad.
      unfold with_closing, handle_connection, conn_recv. rewrite Hr. run_monad.
      cbn [select_clause is_Exception exc_str].
      rewrite ?bind_run, log_message_json_run. reflexivity.
    + destruct (received c) as [|b l] eqn:Hrecv; [discriminate|].
      intros Hs.
      destruct (respond_total (b :: l) (count_accept s)) as (reply & s1 & Hresp).
      exists (count_close s1). split.
      * unfold serve_one, try_except, server_accept. run_monad.
        unfold with_closing, handle_connection, conn_recv, conn_sendall.
        rewrite Hr, Hs. run_monad. fold (received c). rewrite Hrecv, Hresp.
        cbn [select_clause is_Exception exc_str snd].
        rewrite ?bind_run, log_message_json_run. reflexivity.
      * pose proof (unchanged_respond (b :: l) (count_accept s)) as H.
        rewrite Hresp in H. exact H.
  - intros [= -> ->]. exists s. split; [|reflexivity].
    unfold serve_one, try_except, server_accept. run_monad.
    cbn [select_clause is_Exception exc_str].
    rewrite ?bind_run, log_message_json_run. reflexivity.
Qed.

Lemma serve_one_survives (s : State) (ev : event) :
  from_client ev = true -> fst (serve_one ev s) = Ok tt.
Proof.
  intros Hev. unfold serve_one, try_except.
  match goal with |- context [?m s] => assert (Hm : only_Exception m) end.
  { destruct ev; [| |discriminate]; unfold server_accept; daemon. }
  match goal with |- context [?m s] => destruct (m s) as [[[]|e] s1] eqn:E end;
    [reflexivity|].
  apply Hm in E. cbn [select_clause]. rewrite E.
  rewrite bind_run, log_message_json_run. reflexivity.
Qed.

Lemma accept_loop_survives (evs : list event) (s : State) :
  Forall (fun ev => from_client ev = true) evs -> fst (accept_loop evs s) = Ok tt.
Proof.
  intros H. revert s. induction H as [|ev evs Hev _ IH]; intros s; [reflexivity|].
  cbn [accept_loop]. rewrite bind_run.
  pose proof (serve_one_survives s ev Hev) as Hs.
  destruct (serve_one ev s) as [[[]|e] s1]; [apply IH | discriminate Hs].
Qed.



(** ** Shutdown *)

Lemma signal_handler_run (sig : signal) (s : State) :
  signal_handler sig s = (Raise (SystemExit 0), after_shutdown s).
Proof.
  unfold signal_handler, after_shutdown, os_path_exists, os_unlink.
  rewrite bind_run, log_message_json_run. run_monad.
  rewrite logged_socket_file, logged_fs.
  destruct (fs s !! socket_file s) as [n|] eqn:E.
  - rewrite bool_decide_eq_true_2 by eauto. run_monad.
    rewrite ?logged_fs, ?E. reflexivity.
  - rewrite bool_decide_eq_false_2 by (intros [? ?]; congruence). reflexivity.
Qed.

Lemma after_shutdown_fs (s : State) :
  fs (after_shutdown s) = delete (socket_file s) (fs s).
Proof.
  unfold after_shutdown. case_bool_decide as H.
  - reflexivity.
  - rewrite logged_fs. symmetry. apply delete_id.
    destruct (fs s !! socket_file s) eqn:E; [exfalso; eauto | reflexivity].
Qed.

Lemma after_shutdown_stdout (s : State) :
  stdout (after_shutdown s) = stdout (logged shutdown_record s) /\
  syslog_out (after_shutdown s) = syslog_out (logged shutdown_record s).
Proof. unfold after_shutdown. case_bool_decide; split; reflexivity. Qed.

Lemma module_load_handles (s : State) (sig : signal) :
  sig ∈ handled_signals (snd (module_load s)).
Proof.
  unfold module_load, signal_signal. run_monad. cbn [handled_signals set_handled].
  destruct sig; set_solver.
Qed.

Lemma deliver_handled (sig : signal) (s : State) :
  sig ∈ handled_signals s -> deliver sig s = signal_handler sig s.
Proof.
  intros H. unfold deliver. run_monad. rewrite bool_decide_eq_true_2 by assumption.
  reflexivity.
Qed.

(** C7, counterexample.  The shutdown message is not always logged: with
    the log level set to 0 the handler removes the socket file and exits
    with status 0, but no message reaches either log sink. *)
Lemma C7_shutdown_message_is_level_gated :
  fst (signal_handler SIGTERM (serving_state 0)) = Raise (SystemExit 0) /\
  stdout (snd (signal_handler SIGTERM (serving_state 0))) = [] /\
  syslog_out (snd (signal_handler SIGTERM (serving_state 0))) = [].
Proof. repeat split. Qed.

(** C7, amended.  Both termination signals are routed to the handler at
    module load.  The handler logs its informational message when the
    configured log level is at least 2 (and nothing below that), deletes
    the socket file if it exists, touching no other file, and ends the
    process with exit status 0; afterwards no file is left at the socket
    path. *)
Theorem C7_shutdown_on_termination_signal (sig : signal) (s : State) :
  (forall s0, sig ∈ handled_signals (snd (module_load s0))) /\
  (sig ∈ handled_signals s -> deliver sig s = signal_handler sig s) /\
  fst (signal_handler sig s) = Raise (SystemExit 0) /\
  fst (exit_status (signal_handler sig s)) = Some 0 /\
  fs (snd (signal_handler sig s)) !! socket_file s = None /\
  (forall p, p <> socket_file s -> fs (snd (signal_handler sig s)) !! p = fs s !! p) /\
  (2 <= loglevel s ->
   stdout (snd (signal_handler sig s)) = stdout s ++ [shutdown_record] /\
   syslog_out (snd (signal_handler sig s)) = syslog_out s ++ [shutdown_record]) /\
  (loglevel s < 2 ->
   stdout (snd (signal_handler sig s)) = stdout s /\
   syslog_out (snd (signal_handler sig s)) = syslog_out s).
Proof.
  rewrite signal_handler_run. cbn [fst snd exit_status].
  destruct (after_shutdown_stdout s) as [Hout Hsys].
  rewrite after_shutdown_fs, Hout, Hsys.
  repeat apply conj.
  - intros s0. apply module_load_handles.
  - intros H. rewrite (deliver_handled _ _ H). apply signal_handler_run.
  - reflexivity.
  - reflexivity.
  - apply lookup_delete_eq.
  - intros p Hp. apply lookup_delete_ne. congruence.
  - intros H. rewrite logged_stdout_on, logged_syslog_on by exact H. auto.
  - intros H. rewrite logged_off by exact H. auto.
Qed.

Lemma C7_witness :
  stdout (snd (signal_handler SIGINT (serving_state 3))) = [shutdown_record] /\
  fs (snd (signal_handler SIGINT (serving_state 3))) !! "/tmp/adc-daemon.sock"%string = None /\
  stdout (snd (signal_handler SIGTERM (serving_state 1))) = [].
Proof.
  destruct (C7_shutdown_on_termination_signal SIGINT (serving_state 3))
    as (_ & _ & _ & _ & Hgone & _ & Hon & _).
  destruct (C7_shutdown_on_termination_signal SIGTERM (serving_state 1))
    as (_ & _ & _ & _ & _ & _ & _ & Hoff).
  split; [apply Hon; cbn; lia | split; [exact Hgone | apply Hoff; cbn; lia]].
Defined.



(** ** Start-up *)

Lemma parse_arguments_run (cmd : cmdline) (s : State) :
  parse_arguments cmd s
  = match parsed_args cmd with
    | Some a => (Ok a, s)
    | None => (Raise (SystemExit 2), write_stderr (usage_error cmd) s)
    end.
Proof.
  unfold parse_arguments, parsed_args, usage_error, loglevel_arg, parser_error.
  destruct (opt_loglevel cmd) as [t|]; [destruct (Codec.py_int _)|];
    destruct (opt_hwversion cmd) as [v|]; try reflexivity;
    cbn; destruct (bool_decide _); reflexivity.
Qed.

Lemma parsed_args_revision (cmd : cmdline) (a : args) :
  parsed_args cmd = Some a ->
  args_hwversion a = "2.2"%string \/ args_hwversion a = "5.1"%string
  \/ args_hwversion a = "7.1"%string.
Proof.
  unfold parsed_args. destruct (loglevel_arg cmd) as [l|]; [|discriminate].
  cbn. destruct (opt_hwversion cmd) as [v|]; [|discriminate].
  case_bool_decide as Hv; [|discriminate]. intros [= <-]. cbn.
  unfold hwversion_choices in Hv.
  rewrite !elem_of_cons, elem_of_nil in Hv. tauto.
Qed.

Lemma new_AnalogIn_run (mcp : unit) (p : Z) (s : State) :
  new_AnalogIn mcp p s
  = match hw_analog_in (hardware s) p with
    | Some (cls, msg) => (Raise (Exc cls msg), s)
    | None => (Ok {| ain_pin := p |}, s)
    end.
Proof.
  unfold new_AnalogIn. run_monad.
  destruct (hw_analog_in (hardware s) p) as [[cls msg]|]; reflexivity.
Qed.

Lemma mapM_new_AnalogIn (pins : list Z) (s : State) :
  mapM (new_AnalogIn tt) pins s
  = match first_fault (hw_analog_in (hardware s)) pins with
    | Some (cls, msg) => (Raise (Exc cls msg), s)
    | None => (Ok (map (fun p => {| ain_pin := p |}) pins), s)
    end.
Proof.
  induction pins as [|p pins IH]; [reflexivity|].
  cbn [mapM first_fault]. rewrite bind_run, new_AnalogIn_run.
  destruct (hw_analog_in (hardware s) p) as [[cls msg]|]; [reflexivity|].
  rewrite bind_run, IH. destruct (first_fault _ pins) as [[cls msg]|]; reflexivity.
Qed.

Lemma init_adc_run (pin : Z) (s : State) :
  init_adc (Some pin) s
  = match init_fault (hardware s) with
    | Some (cls, msg) => (Raise (Exc cls msg), s)
    | None => (Ok tt, logged init_record (set_channels channel_set s))
    end.
Proof.
  unfold init_adc, init_fault, busio_SPI, MCP3008. run_monad.
  destruct (hw_spi (hardware s)) as [[cls msg]|]; [reflexivity|].
  destruct (hw_mcp3008 (hardware s)) as [[cls msg]|]; [reflexivity|].
  rewrite mapM_new_AnalogIn.
  destruct (first_fault _ mcp_pins) as [[cls msg]|]; [reflexivity|].
  rewrite log_message_json_run. reflexivity.
Qed.

Lemma open_socket_run (s : State) : open_socket s = (Ok tt, listening s).
Proof.
  unfold open_socket, listening, os_path_exists, os_unlink, socket_socket,
    server_bind, os_chmod, server_listen.
  run_monad.
  destruct (fs s !! socket_file s) as [n|] eqn:E.
  - rewrite bool_decide_eq_true_2 by eauto. run_monad. rewrite E.
    cbn [fs set_fs set_server]. rewrite lookup_delete_eq.
    cbn [fs set_fs set_server]. rewrite lookup_insert_eq.
    cbn [fs set_fs set_server server node_kind_of bound_path].
    rewrite log_message_json_run, insert_insert_eq, insert_delete_eq.
    reflexivity.
  - rewrite bool_decide_eq_false_2 by (intros [? ?]; congruence). run_monad.
    cbn [fs set_fs set_server]. rewrite E.
    cbn [fs set_fs set_server]. rewrite lookup_insert_eq.
    cbn [fs set_fs set_server server node_kind_of bound_path].
    rewrite log_message_json_run, insert_insert_eq.
    reflexivity.
Qed.

Ltac decide_closed :=
  repeat match goal with
         | |- context [bool_decide ?P] =>
           let b := eval vm_compute in (bool_decide P) in
           change (bool_decide P) with b
         end.

Lemma startup_run (cmd : cmdline) (s : State) : startup cmd s = started cmd s.
Proof.
  unfold startup, started.
  rewrite bind_run, parse_arguments_run.
  destruct (parsed_args cmd) as [a|] eqn:Ha; [|reflexivity].
  pose proof (parsed_args_revision _ _ Ha) as Hv.
  destruct a as [l v]. cbn [args_hwversion args_loglevel] in *.
  unfold cs_pin, DigitalInOut.
  destruct Hv as [-> | [-> | ->]]; decide_closed; run_monad;
    cbn [hardware set_loglevel String.eqb Ascii.eqb Bool.eqb];
    (destruct (hw_digital_in_out (hardware s) _) as [[cls msg]|]; [reflexivity|]);
    rewrite log_message_json_run; unfold try_except;
    rewrite init_adc_run, logged_hardware; cbn [hardware set_loglevel];
    (destruct (init_fault (hardware s)) as [[cls msg]|];
     [cbn [select_clause is_Exception exc_str]; rewrite log_message_json_run; reflexivity
     | apply open_socket_run]).
Qed.

(** With nothing to stop it, start-up ends listening: the eight channels
    in place, the socket file there with mode 0o666, the server bound to
    it with a backlog of 5. *)
Lemma startup_succeeds (cmd : cmdline) (s : State) (a : args) :
  parsed_args cmd = Some a ->
  startup_fault cmd (hardware s) = None ->
  exists s',
    startup cmd s = (Ok tt, s') /\
    channels s' = channel_set /\
    loglevel s' = args_loglevel a /\
    socket_file s' = socket_file s /\
    hardware s' = hardware s /\
    server s' = Some {| bound_path := Some (socket_file s); backlog := Some 5 |} /\
    fs s' !! socket_file s = Some {| node_kind_of := SocketFile; node_mode := 438 |} /\
    reads s' = reads s /\ sent s' = sent s.
Proof.
  intros Ha Hnone. rewrite startup_run. unfold started, startup_fault in *.
  rewrite Ha in *.
  destruct (hw_digital_in_out _ _) as [[cls msg]|]; [discriminate|].
  destruct (init_fault _) as [[cls msg]|]; [discriminate|].
  eexists. split; [reflexivity|]. unfold listening.
  autorewrite with logged. cbn [channels loglevel socket_file hardware server fs reads sent
                                set_server set_fs set_channels].
  autorewrite with logged. cbn [channels loglevel socket_file hardware server fs reads sent
                                set_loglevel].
  rewrite lookup_insert_eq.
  repeat split; cbn [channels loglevel socket_file hardware reads sent set_channels];
    autorewrite with logged; reflexivity.
Qed.

(** ** Fatal start-up errors *)




(** ** One connection, in full *)

Lemma serve_one_connects (c : connection) (s : State) :
  serve_one (Connects c) s = (Ok tt, after_connection c s).
Proof.
  unfold after_connection, serve_one, try_except, server_accept. run_monad.
  unfold with_closing, handle_connection, conn_recv, conn_sendall.
  destruct (conn_recv_fault c) as [[cls msg]|] eqn:Hr; run_monad.
  - cbn [select_clause is_Exception exc_str].
    rewrite ?bind_run, log_message_json_run. reflexivity.
  - fold (received c). destruct (received c) as [|b l] eqn:Hd; [reflexivity|].
    destruct (respond_total (b :: l) (count_accept s)) as (reply & s1 & E).
    rewrite E. cbn [fst snd reply_of].
    destruct (conn_send_fault c) as [[cls msg]|]; run_monad; [|reflexivity].
    cbn [select_clause is_Exception exc_str].
    rewrite ?bind_run, log_message_json_run. reflexivity.
Qed.

Lemma serve_one_accept_fails (cls : exc_class) (msg : string) (s : State) :
  serve_one (AcceptFails cls msg) s
  = (Ok tt, record_sleep 100 (logged (error_record msg) s)).
Proof.
  unfold serve_one, try_except, server_accept. run_monad.
  cbn [select_clause is_Exception exc_str].
  rewrite ?bind_run, log_message_json_run. reflexivity.
Qed.

Lemma serve_one_signalled (sig : signal) (s : State) :
  sig ∈ handled_signals s ->
  serve_one (Signalled sig) s = (Raise (SystemExit 0), after_shutdown s).
Proof.
  intros H. unfold serve_one, try_except, server_accept.
  rewrite !bind_run, (deliver_handled _ _ H), signal_handler_run. reflexivity.
Qed.

Lemma respond_run (data : list Byte.byte) (s : State) :
  respond data s = (Ok (fst (responded data s)), snd (responded data s)).
Proof.
  unfold responded, respond, try_except, dispatch, decode_strip, int_of_str,
    voltage, list_getitem.
  run_monad.
  destruct (Codec.utf8_decode data) as [cs|]; [|reflexivity].
  destruct (Codec.py_int (Codec.strip cs)) as [i|]; [|reflexivity].
  rewrite log_message_json_run. fold (request_record i).
  destruct ((0 <=? i) && (i <=? 7)) eqn:Hrange; [|reflexivity].
  rewrite logged_channels.
  replace (i <? 0) with false by lia. replace (i <? 0) with false by lia.
  destruct (channels s !! Z.to_nat i) as [h|]; [|reflexivity].
  rewrite logged_hardware, logged_reads.
  destruct (hw_sample (hardware s) (length (reads s)) (ain_pin h)) as [v|cls msg].
  - rewrite log_message_json_run. reflexivity.
  - cbn [select_clause fst snd]. destruct (is_ValueError (Exc cls msg)); reflexivity.
Qed.

Lemma serve_one_state (ev : event) (s : State) :
  snd (serve_one ev s) = after_event ev s.
Proof.
  destruct ev as [c|cls msg|sig]; cbn [after_event].
  - now rewrite serve_one_connects.
  - now rewrite serve_one_accept_fails.
  - case_bool_decide as H.
    + now rewrite serve_one_signalled.
    + unfold serve_one, try_except, server_accept, deliver. run_monad.
      rewrite bool_decide_eq_false_2 by assumption. reflexivity.
Qed.

(** *** What the codec leaves behind *)

Lemma format_4f_not_ERROR (v : spec_float) : starts_with_ERROR (Codec.format_4f v) = false.
Proof.
  assert (Hfix : forall neg n, 0 <= n -> starts_with_ERROR (Codec.fixed4 neg n) = false).
  { intros neg n Hn. unfold Codec.fixed4.
    assert (Hq : 0 <= n / 10000) by (apply Z.div_pos; lia).
    destruct (CodecFacts.py_str_nonneg_digits _ Hq) as [Hd Hne].
    destruct neg; [reflexivity|].
    destruct (Codec.py_str (n / 10000)) as [|a r]; [congruence|].
    cbn [Codec.all_digits] in Hd. apply andb_true_iff in Hd as [Ha _].
    change ("" +:+ ?x)%string with x.
    change (String a r +:+ ?x)%string with (String a (r +:+ x)).
    unfold starts_with_ERROR. cbn [String.prefix].
    destruct (ascii_dec "E" a) as [<-|]; [discriminate Ha | reflexivity]. }
  destruct v as [s|[|]| |s m e]; try reflexivity.
  - apply Hfix. lia.
  - apply Hfix, CodecFacts.scaled_4dp_nonneg.
Qed.

Ltac responded_cases data s :=
  unfold responded;
  destruct (Codec.utf8_decode data) as [?cs|];
  [destruct (Codec.py_int (Codec.strip _)) as [?i|];
   [cbn zeta; destruct ((0 <=? _) && (_ <=? 7));
    [destruct (channels s !! Z.to_nat _) as [?h|] eqn:?Hget;
     [destruct (hw_sample _ _ _) as [?v|?cls ?msg]|]|]|]|];
  cbn [fst snd].

Lemma prefix_append (p t : string) : String.prefix p (p +:+ t) = true.
Proof.
  induction p as [|a p IH].
  - now destruct t.
  - change (String.prefix (String a p) (String a p +:+ t))
      with (if ascii_dec a a then String.prefix p (p +:+ t) else false).
    destruct (ascii_dec a a); [exact IH | congruence].
Qed.

Lemma responded_reply (data : list Byte.byte) (s : State) :
  is_error_reply (fst (responded data s)) = true \/
  exists v, fst (responded data s) = Codec.format_4f v.
Proof.
  responded_cases data s; eauto.
  left. destruct (is_ValueError _); [reflexivity | apply prefix_append].
Qed.

Lemma responded_counters (data : list Byte.byte) (s : State) :
  sent (snd (responded data s)) = sent s /\
  accepted (snd (responded data s)) = accepted s /\
  closed (snd (responded data s)) = closed s.
Proof.
  responded_cases data s; autorewrite with logged;
    cbn [record_read sent accepted closed]; autorewrite with logged; auto.
Qed.

Lemma responded_reads (data : list Byte.byte) (s : State) :
  exists rd,
    reads (snd (responded data s)) = reads s ++ rd /\
    (length rd <= 1)%nat /\
    Forall (fun p => p ∈ channel_pins s) rd.
Proof.
  assert (Hnone : forall s', reads s' = reads s ->
            exists rd, reads s' = reads s ++ rd /\ (length rd <= 1)%nat /\
                       Forall (fun p => p ∈ channel_pins s) rd).
  { intros s' ->. exists []. rewrite app_nil_r. repeat split; [cbn; lia | constructor]. }
  assert (Hone : forall s' k h, channels s !! k = Some h ->
            reads s' = reads s ++ [ain_pin h] ->
            exists rd, reads s' = reads s ++ rd /\ (length rd <= 1)%nat /\
                       Forall (fun p => p ∈ channel_pins s) rd).
  { intros s' k h Hk ->. exists [ain_pin h]. repeat split; [cbn; lia|].
    constructor; [|constructor]. unfold channel_pins.
    apply list_elem_of_fmap. eauto using list_elem_of_lookup_2. }
  responded_cases data s;
    try (apply Hnone; autorewrite with logged; reflexivity);
    (eapply Hone; [eassumption|]; autorewrite with logged;
     cbn [record_read reads]; autorewrite with logged; reflexivity).
Qed.

(** *** The log invariants *)

Lemma logged_mirrored (r : log_record) (s : State) :
  mirrored s -> mirrored (logged r s).
Proof.
  unfold mirrored, logged. intros H.
  destruct (loglevel s >=? lr_level r); cbn [emit syslog_out stdout]; congruence.
Qed.

Lemma logged_level_bounded (r : log_record) (s : State) :
  level_bounded s -> level_bounded (logged r s).
Proof.
  unfold level_bounded, logged. intros H.
  destruct (loglevel s >=? lr_level r) eqn:E; [|assumption].
  cbn [emit stdout loglevel]. apply Forall_app. split; [assumption|].
  constructor; [lia | constructor].
Qed.

Lemma same_logs_mirrored (s s' : State) :
  stdout s' = stdout s -> syslog_out s' = syslog_out s ->
  mirrored s -> mirrored s'.
Proof. unfold mirrored. congruence. Qed.

Lemma same_logs_level_bounded (s s' : State) :
  stdout s' = stdout s -> loglevel s' = loglevel s ->
  level_bounded s -> level_bounded s'.
Proof. unfold level_bounded. intros -> ->. auto. Qed.

Lemma responded_logs (data : list Byte.byte) (s : State) :
  (mirrored s -> mirrored (snd (responded data s))) /\
  (level_bounded s -> level_bounded (snd (responded data s))).
Proof.
  responded_cases data s; split; intros H;
    repeat first
      [ assumption
      | apply logged_mirrored
      | apply logged_level_bounded
      | match goal with
        | |- mirrored (record_read _ ?x) =>
          apply (same_logs_mirrored x); [reflexivity | reflexivity |]
        | |- level_bounded (record_read _ ?x) =>
          apply (same_logs_level_bounded x); [reflexivity | reflexivity |]
        end ].
Qed.

Lemma after_connection_logs (c : connection) (s : State) :
  (mirrored s -> mirrored (after_connection c s)) /\
  (level_bounded s -> level_bounded (after_connection c s)).
Proof.
  unfold after_connection. rewrite respond_run. cbn [fst snd reply_of].
  destruct (responded_logs (received c) (count_accept s)) as [Hm Hl].
  destruct (conn_recv_fault c) as [[cls msg]|];
    [|destruct (received c) as [|b l];
      [|destruct (conn_send_fault c) as [[cls msg]|]]];
    split; intros H;
    repeat first
      [ assumption
      | apply logged_mirrored
      | apply logged_level_bounded
      | apply Hm | apply Hl
      | match goal with
        | |- mirrored (?f ?x) =>
          apply (same_logs_mirrored x); [reflexivity | reflexivity |]
        | |- mirrored (?f _ ?x) =>
          apply (same_logs_mirrored x); [reflexivity | reflexivity |]
        | |- level_bounded (?f ?x) =>
          apply (same_logs_level_bounded x); [reflexivity | reflexivity |]
        | |- level_bounded (?f _ ?x) =>
          apply (same_logs_level_bounded x); [reflexivity | reflexivity |]
        end ].
Qed.

Lemma after_shutdown_logs (s : State) :
  (mirrored s -> mirrored (after_shutdown s)) /\
  (level_bounded s -> level_bounded (after_shutdown s)).
Proof.
  unfold after_shutdown. case_bool_decide as Hex; split; intros Hinv;
    repeat first
      [ assumption
      | apply logged_mirrored
      | apply logged_level_bounded
      | match goal with
        | |- mirrored (?f _ ?x) =>
          apply (same_logs_mirrored x); [reflexivity | reflexivity |]
        | |- level_bounded (?f _ ?x) =>
          apply (same_logs_level_bounded x); [reflexivity | reflexivity |]
        end ].
Qed.

Lemma after_event_logs (ev : event) (s : State) :
  (mirrored s -> mirrored (after_event ev s)) /\
  (level_bounded s -> level_bounded (after_event ev s)).
Proof.
  destruct ev as [c|cls msg|sig]; cbn [after_event].
  - apply after_connection_logs.
  - split; intros H.
    + apply (same_logs_mirrored (logged (error_record msg) s));
        [reflexivity | reflexivity | now apply logged_mirrored].
    + apply (same_logs_level_bounded (logged (error_record msg) s));
        [reflexivity | reflexivity | now apply logged_level_bounded].
  - case_bool_decide; [apply after_shutdown_logs | tauto].
Qed.

(** *** Counters, replies and reads *)

Lemma after_event_closed (ev : event) (s : State) :
  all_closed s -> all_closed (after_event ev s).
Proof.
  unfold all_closed. intros H. destruct ev as [c|cls msg|sig]; cbn [after_event].
  - unfold after_connection. rewrite respond_run. cbn [fst snd reply_of].
    destruct (responded_counters (received c) (count_accept s)) as (_ & Ha & Hc).
    destruct (conn_recv_fault c) as [[cls msg]|];
      [|destruct (received c) as [|b l];
        [|destruct (conn_send_fault c) as [[cls msg]|]]];
      cbn [record_sleep count_close record_sent accepted closed];
      autorewrite with logged;
      cbn [record_sleep count_close count_accept record_sent accepted closed] in *;
      congruence.
  - cbn [record_sleep accepted closed]. now autorewrite with logged.
  - case_bool_decide; [|assumption]. unfold after_shutdown.
    case_bool_decide; cbn [set_fs accepted closed]; now autorewrite with logged.
Qed.

Lemma after_event_sent (ev : event) (s : State) :
  exists rp,
    sent (after_event ev s) = sent s ++ rp /\
    (length rp <= connections [ev])%nat /\
    Forall well_formed_reply rp.
Proof.
  assert (Hnone : forall s' k, sent s' = sent s ->
            exists rp, sent s' = sent s ++ rp /\ (length rp <= k)%nat /\
                       Forall well_formed_reply rp).
  { intros s' k ->. exists []. rewrite app_nil_r. repeat split; [cbn; lia | constructor]. }
  destruct ev as [c|cls msg|sig]; cbn [after_event].
  - unfold after_connection. rewrite respond_run. cbn [fst snd reply_of].
    destruct (responded_counters (received c) (count_accept s)) as (Hs & _ & _).
    destruct (conn_recv_fault c) as [[cls msg]|];
      [|destruct (received c) as [|b l] eqn:Hd;
        [|destruct (conn_send_fault c) as [[cls msg]|]]];
      try (apply Hnone; cbn [record_sleep count_close sent]; autorewrite with logged;
           cbn [count_close sent]; try rewrite Hs; reflexivity).
    exists [fst (responded (b :: l) (count_accept s))].
    cbn [count_close record_sent sent]. rewrite Hs. repeat split; [cbn; lia|].
    constructor; [apply responded_reply | constructor].
  - apply Hnone. cbn [record_sleep sent]. now autorewrite with logged.
  - apply Hnone. case_bool_decide; [|reflexivity]. unfold after_shutdown.
    case_bool_decide; cbn [set_fs sent]; now autorewrite with logged.
Qed.

Lemma after_event_reads (ev : event) (s : State) :
  exists rd,
    reads (after_event ev s) = reads s ++ rd /\
    (length rd <= connections [ev])%nat /\
    Forall (fun p => p ∈ channel_pins s) rd.
Proof.
  assert (Hnone : forall s' k, reads s' = reads s ->
            exists rd, reads s' = reads s ++ rd /\ (length rd <= k)%nat /\
                       Forall (fun p => p ∈ channel_pins s) rd).
  { intros s' k ->. exists []. rewrite app_nil_r. repeat split; [cbn; lia | constructor]. }
  destruct ev as [c|cls msg|sig]; cbn [after_event].
  - unfold after_connection. rewrite respond_run. cbn [fst snd reply_of].
    destruct (responded_reads (received c) (count_accept s)) as (rd & Hrd & Hlen & Hin).
    destruct (conn_recv_fault c) as [[cls msg]|];
      [|destruct (received c) as [|b l] eqn:Hd;
        [|destruct (conn_send_fault c) as [[cls msg]|]]];
      try (apply Hnone; cbn [record_sleep count_close reads]; autorewrite with logged;
           reflexivity);
      exists rd; (split; [|split; [exact Hlen | exact Hin]]);
      cbn [record_sleep count_close record_sent reads]; autorewrite with logged;
      cbn [count_close reads]; exact Hrd.
  - apply Hnone. cbn [record_sleep reads]. now autorewrite with logged.
  - apply Hnone. case_bool_decide; [|reflexivity]. unfold after_shutdown.
    case_bool_decide; cbn [set_fs reads]; now autorewrite with logged.
Qed.

Lemma after_event_globals (ev : event) (s : State) :
  globals (after_event ev s) = globals s.
Proof. rewrite <- serve_one_state. apply unchanged_serve_one. Qed.

(** *** From one turn to the whole loop *)

Lemma accept_loop_cons (ev : event) (rest : list event) (s : State) :
  accept_loop (ev :: rest) s
  = match fst (serve_one ev s) with
    | Ok _ => accept_loop rest (after_event ev s)
    | Raise e => (Raise e, after_event ev s)
    end.
Proof.
  cbn [accept_loop]. rewrite bind_run, <- serve_one_state.
  destruct (serve_one ev s) as [[[]|e] s1]; reflexivity.
Qed.

Lemma accept_loop_invariant (P : State -> Prop) :
  (forall ev s, P s -> P (after_event ev s)) ->
  forall evs s, P s -> P (snd (accept_loop evs s)).
Proof.
  intros Hstep evs. induction evs as [|ev rest IH]; intros s Hs; [exact Hs|].
  rewrite accept_loop_cons.
  destruct (fst (serve_one ev s)); [apply IH|]; now apply Hstep.
Qed.

Lemma accept_loop_extends {X} (view : State -> list X) (I : State -> Prop)
      (Q : X -> Prop) :
  (forall ev s, I s ->
     I (after_event ev s) /\
     exists xs, view (after_event ev s) = view s ++ xs /\
                (length xs <= connections [ev])%nat /\ Forall Q xs) ->
  forall evs s, I s ->
    exists xs, view (snd (accept_loop evs s)) = view s ++ xs /\
               (length xs <= connections evs)%nat /\ Forall Q xs.
Proof.
  intros Hstep evs. induction evs as [|ev rest IH]; intros s Hs.
  { exists []. rewrite app_nil_r. repeat split; [cbn; lia | constructor]. }
  rewrite accept_loop_cons.
  destruct (Hstep ev s Hs) as (Hi & xs & Hx & Hlen & Hq).
  assert (Hc : connections (ev :: rest) = (connections [ev] + connections rest)%nat).
  { unfold connections. cbn [List.filter]. destruct ev; cbn [length]; lia. }
  destruct (fst (serve_one ev s)).
  - destruct (IH _ Hi) as (ys & Hy & Hleny & Hqy).
    exists (xs ++ ys). rewrite Hy, Hx, app_assoc, length_app, Forall_app.
    repeat split; [lia | assumption | assumption].
  - exists xs. cbn [snd]. repeat split; [assumption | lia | assumption].
Qed.

(** ** Further properties of the serving loop *)

Lemma error_reply_starts_with_ERROR (reply : string) :
  is_error_reply reply = true -> starts_with_ERROR reply = true.
Proof.
  unfold is_error_reply, starts_with_ERROR.
  destruct reply as [|a1 [|a2 [|a3 [|a4 [|a5 r]]]]]; cbn [String.prefix];
    repeat (destruct (ascii_dec _ _)); intros H;
    solve [discriminate H | reflexivity | destruct r; reflexivity].
Qed.

(** X2.  Over any run of the loop the replies sent only ever grow,
    by at most one per connection, and every reply is of one of two kinds
    that the client's [startswith("ERROR")] test tells apart: a text
    beginning "ERROR: ", or a formatted sample, which never begins with
    "ERROR". *)
Theorem replies_are_errors_or_voltages (evs : list event) (s : State) :
  exists rp,
    sent (snd (accept_loop evs s)) = sent s ++ rp /\
    (length rp <= connections evs)%nat /\
    Forall (fun reply =>
              (is_error_reply reply = true /\ starts_with_ERROR reply = true) \/
              (exists v, reply = Codec.format_4f v /\ starts_with_ERROR reply = false))
           rp.
Proof.
  apply (accept_loop_extends sent (fun _ => True)); [|exact I].
  intros ev s0 _. split; [exact I|].
  destruct (after_event_sent ev s0) as (rp & Hs & Hlen & Hwf).
  exists rp. repeat split; try assumption.
  eapply Forall_impl; [exact Hwf|]. intros reply [He|[v ->]].
  - left. auto using error_reply_starts_with_ERROR.
  - right. eauto using format_4f_not_ERROR.
Qed.

(** X3.  With the channel list [main] builds in place, any run
    of the loop performs at most one bus transaction per connection, and
    only ever on pins 0 to 7. *)
Theorem reads_stay_on_the_eight_pins (evs : list event) (s : State) :
  channels s = channel_set ->
  exists rd,
    reads (snd (accept_loop evs s)) = reads s ++ rd /\
    (length rd <= connections evs)%nat /\
    Forall (fun p => 0 <= p <= 7) rd.
Proof.
  apply (accept_loop_extends reads (fun s0 => channels s0 = channel_set)).
  intros ev s0 Hch. split.
  - pose proof (after_event_globals ev s0) as Hg. unfold globals in Hg. congruence.
  - destruct (after_event_reads ev s0) as (rd & Hr & Hlen & Hin).
    exists rd. repeat split; try assumption.
    eapply Forall_impl; [exact Hin|]. intros p Hp.
    unfold channel_pins in Hp. rewrite Hch in Hp. cbn in Hp.
    rewrite !elem_of_cons, elem_of_nil in Hp. lia.
Qed.

Lemma reads_stay_on_the_eight_pins_witness :
  exists rd,
    reads (snd (accept_loop [Connects (client "7"); Connects (client "8");
                             Connects (client "-1"); Connects (client "0")]
                  (serving_state 3))) = rd /\
    (length rd <= 4)%nat /\ Forall (fun p => 0 <= p <= 7) rd.
Proof.
  destruct (reads_stay_on_the_eight_pins
              [Connects (client "7"); Connects (client "8");
               Connects (client "-1"); Connects (client "0")]
              (serving_state 3) eq_refl) as (rd & Hr & Hlen & Hin).
  exists rd. split; [exact Hr | split; [exact Hlen | exact Hin]].
Defined.

(** X4.  Every connection the loop accepts it also closes,
    whatever the payload and whether or not a socket call fails: if all
    accepted connections were closed before a run of the loop, they are
    after it. *)
Theorem accepted_connections_are_closed (evs : list event) (s : State) :
  all_closed s -> all_closed (snd (accept_loop evs s)).
Proof. apply accept_loop_invariant. intros ev s0. apply after_event_closed. Qed.

Lemma accepted_connections_are_closed_witness :
  all_closed (snd (accept_loop [Connects (client "2"); Connects (vanishing_client "2");
                                Connects (client ""); AcceptFails OSError "boom";
                                Signalled SIGTERM; Connects (client "3")]
                     (serving_state 3))).
Proof.
  apply (accepted_connections_are_closed
           [Connects (client "2"); Connects (vanishing_client "2");
            Connects (client ""); AcceptFails OSError "boom";
            Signalled SIGTERM; Connects (client "3")]
           (serving_state 3)).
  reflexivity.
Defined.

(** *** How the loop composes *)

Lemma accept_loop_app (evs1 evs2 : list event) (s : State) :
  accept_loop (evs1 ++ evs2) s
  = match accept_loop evs1 s with
    | (Ok _, s1) => accept_loop evs2 s1
    | (Raise e, s1) => (Raise e, s1)
    end.
Proof.
  revert s. induction evs1 as [|ev rest IH]; intros s; [reflexivity|].
  cbn [app accept_loop]. rewrite !bind_run.
  destruct (serve_one ev s) as [[[]|e] s1]; [apply IH | reflexivity].
Qed.

Lemma responded_beyond_request (data : list Byte.byte) (s : State) :
  beyond_request (snd (responded data s)) = beyond_request s.
Proof.
  pose proof (unchanged_respond data s) as H. now rewrite respond_run in H.
Qed.

Lemma after_event_surroundings (ev : event) (s : State) :
  from_client ev = true -> surroundings (after_event ev s) = surroundings s.
Proof.
  destruct ev as [c|cls msg|sig]; cbn [after_event from_client]; [| |discriminate];
    intros _; unfold surroundings.
  - unfold after_connection. rewrite respond_run. cbn [fst snd reply_of].
    pose proof (responded_beyond_request (received c) (count_accept s)) as Hb.
    unfold beyond_request in Hb.
    cbn [count_accept hardware fs handled_signals stderr server sleeps] in Hb.
    destruct (conn_recv_fault c) as [[cls msg]|];
      [|destruct (received c) as [|b l];
        [|destruct (conn_send_fault c) as [[cls msg]|]]];
      cbn [record_sleep count_close record_sent hardware fs handled_signals stderr server];
      autorewrite with logged;
      cbn [count_close count_accept hardware fs handled_signals stderr server];
      try reflexivity; congruence.
  - cbn [record_sleep hardware fs handled_signals stderr server].
    now autorewrite with logged.
Qed.

Lemma accept_loop_surroundings (evs : list event) (s : State) :
  Forall (fun ev => from_client ev = true) evs ->
  surroundings (snd (accept_loop evs s)) = surroundings s.
Proof.
  intros H. revert s. induction H as [|ev rest Hev _ IH]; intros s; [reflexivity|].
  rewrite accept_loop_cons.
  destruct (fst (serve_one ev s)); cbn [snd]; [rewrite IH|];
    now apply after_event_surroundings.
Qed.

(** X5.  Handling client events, whatever they are, never touches what
    surrounds the serving of requests: the file system (the socket file
    stays as it is), the server socket, the signal routing and standard
    error are as they were. *)
Theorem serving_leaves_the_surroundings (evs : list event) (s : State) :
  Forall (fun ev => from_client ev = true) evs ->
  fs (snd (accept_loop evs s)) = fs s /\
  server (snd (accept_loop evs s)) = server s /\
  handled_signals (snd (accept_loop evs s)) = handled_signals s /\
  stderr (snd (accept_loop evs s)) = stderr s.
Proof.
  intros H. pose proof (accept_loop_surroundings evs s H) as Hs.
  unfold surroundings in Hs. injection Hs as _ Hfs Hh Herr Hsrv. auto.
Qed.

Lemma serving_leaves_the_surroundings_witness :
  fs (snd (accept_loop [Connects (client "2"); Connects (vanishing_client "x");
                        AcceptFails OSError "boom"] (serving_state 3)))
  !! "/tmp/adc-daemon.sock"%string
  = Some {| node_kind_of := SocketFile; node_mode := 438 |}.
Proof.
  destruct (serving_leaves_the_surroundings
              [Connects (client "2"); Connects (vanishing_client "x");
               AcceptFails OSError "boom"] (serving_state 3)) as (Hfs & _).
  - repeat constructor.
  - rewrite Hfs. reflexivity.
Defined.

(** X6.  Shutdown in mid-stream: when a termination signal arrives after some
    client events, those have been served, the handler runs on the state
    they left, and the process ends with [SystemExit(0)]; whatever would
    have come after the signal is never served. *)
Theorem nothing_is_served_after_the_signal
        (before after : list event) (sig : signal) (s : State) :
  Forall (fun ev => from_client ev = true) before ->
  sig ∈ handled_signals s ->
  accept_loop (before ++ Signalled sig :: after) s
  = (Raise (SystemExit 0), after_shutdown (snd (accept_loop before s))).
Proof.
  intros Hb Hsig. rewrite accept_loop_app.
  pose proof (accept_loop_survives before s Hb) as Hok.
  pose proof (accept_loop_surroundings before s Hb) as Hh.
  apply (f_equal (fun t => t.1.1.2)) in Hh. cbn [fst snd surroundings] in Hh.
  destruct (accept_loop before s) as [[[]|e] s1]; [|discriminate Hok].
  cbn [snd fst] in *. rewrite accept_loop_cons, serve_one_signalled by now rewrite Hh.
  cbn [fst after_event]. rewrite bool_decide_eq_true_2 by now rewrite Hh.
  reflexivity.
Qed.

Lemma nothing_is_served_after_the_signal_witness :
  sent (snd (accept_loop ([Connects (client "2")] ++ Signalled SIGTERM
                            :: [Connects (client "3"); Connects (client "4")])
               (serving_state 3))) = ["1.6500"%string].
Proof.
  rewrite (nothing_is_served_after_the_signal [Connects (client "2")]
             [Connects (client "3"); Connects (client "4")] SIGTERM (serving_state 3)).
  - reflexivity.
  - repeat constructor.
  - cbn [handled_signals serving_state]. set_solver.
Defined.

(** ** Logging over a whole run *)

Lemma started_logs (cmd : cmdline) (s : State) :
  mirrored s -> stdout s = [] ->
  mirrored (snd (started cmd s)) /\ level_bounded (snd (started cmd s)).
Proof.
  intros Hm He.
  assert (Hl : forall l, level_bounded (set_loglevel l s)).
  { intros l. unfold level_bounded. cbn [set_loglevel stdout]. rewrite He. constructor. }
  assert (Hm' : forall l, mirrored (set_loglevel l s)) by (intros l; exact Hm).
  unfold started.
  destruct (parsed_args cmd) as [a|]; cbn [snd].
  2:{ split; [exact Hm|]. unfold level_bounded. cbn [write_stderr stdout]. rewrite He.
      constructor. }
  destruct (hw_digital_in_out _ _) as [[cls msg]|]; cbn [snd]; [auto|].
  destruct (init_fault _) as [[cls msg]|]; cbn [snd].
  - auto using logged_mirrored, logged_level_bounded.
  - unfold listening. split.
    + apply logged_mirrored.
      apply (same_logs_mirrored
               (logged init_record
                  (set_channels channel_set
                     (logged (start_record (args_hwversion a))
                        (set_loglevel (args_loglevel a) s)))));
        [reflexivity | reflexivity |].
      apply logged_mirrored.
      apply (same_logs_mirrored
               (logged (start_record (args_hwversion a))
                  (set_loglevel (args_loglevel a) s)));
        [reflexivity | reflexivity |].
      auto using logged_mirrored.
    + apply logged_level_bounded.
      apply (same_logs_level_bounded
               (logged init_record
                  (set_channels channel_set
                     (logged (start_record (args_hwversion a))
                        (set_loglevel (args_loglevel a) s)))));
        [reflexivity | reflexivity |].
      apply logged_level_bounded.
      apply (same_logs_level_bounded
               (logged (start_record (args_hwversion a))
                  (set_loglevel (args_loglevel a) s)));
        [reflexivity | reflexivity |].
      auto using logged_level_bounded.
Qed.

Lemma exit_status_logs (r : result unit * State) :
  stdout (snd (exit_status r)) = stdout (snd r) /\
  syslog_out (snd (exit_status r)) = syslog_out (snd r) /\
  loglevel (snd (exit_status r)) = loglevel (snd r).
Proof. destruct r as [[[]|[cls msg|code|[|]]] s]; repeat split. Qed.

Lemma run_logs (cmd : cmdline) (evs : list event) (hw : Hardware)
      (files : gmap string node) :
  mirrored (snd (run cmd evs (initial_state hw files))) /\
  level_bounded (snd (run cmd evs (initial_state hw files))).
Proof.
  unfold run.
  destruct (exit_status_logs ((module_load ≫= λ _, main cmd evs) (initial_state hw files)))
    as (Hout & Hsys & Hlev).
  unfold mirrored, level_bounded. rewrite Hout, Hsys, Hlev. clear Hout Hsys Hlev.
  unfold main, module_load, signal_signal. rewrite !bind_run. run_monad.
  rewrite startup_run.
  match goal with |- context [started cmd ?s0] =>
    destruct (started_logs cmd s0 eq_refl eq_refl) as [Hm Hl];
    destruct (started cmd s0) as [[[]|e] s1]
  end; cbn [snd] in *; [|auto].
  split.
  - apply (accept_loop_invariant mirrored); [|exact Hm].
    intros ev s2. apply after_event_logs.
  - apply (accept_loop_invariant level_bounded); [|exact Hl].
    intros ev s2. apply after_event_logs.
Qed.

(** X7.  The two log sinks: whatever the command line, the hardware and the
    events, at the end of a run the system log and standard output hold the
    same records in the same order. *)
Theorem log_sinks_hold_the_same_records
        (cmd : cmdline) (evs : list event) (hw : Hardware) (files : gmap string node) :
  syslog_out (snd (run cmd evs (initial_state hw files)))
  = stdout (snd (run cmd evs (initial_state hw files))).
Proof. apply run_logs. Qed.

(** X8.  The level gate: over a whole run no record is emitted whose level
    is above the level the daemon was configured with. *)
Theorem no_record_above_the_configured_level
        (cmd : cmdline) (evs : list event) (hw : Hardware) (files : gmap string node) :
  Forall (fun r => lr_level r <= loglevel (snd (run cmd evs (initial_state hw files))))
         (stdout (snd (run cmd evs (initial_state hw files)))).
Proof. apply run_logs. Qed.

(** ** Start-up and serving, end to end *)



(** X10.  A started daemon keeps serving: if start-up meets no fault and
    everything that follows comes from clients, the process has not exited
    at the end of the run, the socket file is still in place with mode
    0o666, the server is still listening on it and the channel list is
    still the eight handles. *)
Theorem started_daemon_keeps_serving
        (cmd : cmdline) (evs : list event) (hw : Hardware)
        (files : gmap string node) (a : args) :
  parsed_args cmd = Some a ->
  startup_fault cmd hw = None ->
  Forall (fun ev => from_client ev = true) evs ->
  fst (run cmd evs (initial_state hw files)) = None /\
  fs (snd (run cmd evs (initial_state hw files))) !! "/tmp/adc-daemon.sock"%string
  = Some {| node_kind_of := SocketFile; node_mode := 438 |} /\
  server (snd (run cmd evs (initial_state hw files)))
  = Some {| bound_path := Some "/tmp/adc-daemon.sock"%string; backlog := Some 5 |} /\
  channels (snd (run cmd evs (initial_state hw files))) = channel_set.
Proof.
  intros Ha Hnone Hevs. unfold run, main, module_load, signal_signal.
  rewrite !bind_run. run_monad.
  match goal with |- context [startup cmd ?s0] =>
    destruct (startup_succeeds cmd s0 a Ha Hnone)
      as (s1 & -> & Hch & _ & _ & _ & Hsrv & Hfs & _)
  end.
  cbn [socket_file set_handled initial_state] in Hsrv, Hfs.
  pose proof (accept_loop_survives evs s1 Hevs) as Hok.
  pose proof (accept_loop_surroundings evs s1 Hevs) as Hsur.
  assert (Hfs' : fs (snd (accept_loop evs s1)) = fs s1)
    by (apply (f_equal (fun t => t.1.1.1.2)) in Hsur; exact Hsur).
  assert (Hsrv' : server (snd (accept_loop evs s1)) = server s1)
    by (apply (f_equal (fun t => t.2)) in Hsur; exact Hsur).
  pose proof (unchanged_accept_loop evs s1) as Hg. unfold globals in Hg.
  destruct (accept_loop evs s1) as [[[]|e] s2]; [|discriminate Hok].
  cbn [exit_status fst snd] in *. repeat split; congruence.
Qed.

Lemma started_daemon_keeps_serving_witness :
  fst (run (command_line (Some "5"%string) "2.2")
         [Connects (client "0"); Connects (client "junk"); AcceptFails OSError "boom"]
         (initial_state bench_hardware ∅)) = None.
Proof.
  apply (started_daemon_keeps_serving (command_line (Some "5"%string) "2.2")
           [Connects (client "0"); Connects (client "junk"); AcceptFails OSError "boom"]
           bench_hardware ∅ {| args_loglevel := 5; args_hwversion := "2.2" |});
    [reflexivity | reflexivity | repeat constructor].
Defined.

(** ** The argument parser *)



(** ** The log line *)

(** X12.  One record per line: whatever text the JSON encoder returns, the line
    written out holds no line feed and no carriage return, is no longer
    than the text, and is the text itself when that had neither. *)
Theorem log_line_has_no_line_break (json_log : list Z) :
  ~ In 10 (one_line json_log) /\
  ~ In 13 (one_line json_log) /\
  (length (one_line json_log) <= length json_log)%nat /\
  (~ In 10 json_log -> ~ In 13 json_log -> one_line json_log = json_log).
Proof.
  unfold one_line, remove_char, replace_char. repeat split.
  - rewrite filter_In, in_map_iff. intros [(c & Hc & _) _].
    destruct (c =? 10) eqn:E; lia.
  - rewrite filter_In. intros [_ H]. discriminate H.
  - etransitivity; [apply filter_length_le|]. now rewrite length_map.
  - induction json_log as [|c t IH]; [reflexivity|].
    intros H10 H13. cbn [In] in H10, H13. cbn [map List.filter].
    replace (c =? 10) with false by lia. replace (c =? 13) with false by lia.
    cbn [negb]. f_equal. apply IH; tauto.
Qed.

(** ** Client and daemon together *)

Lemma utf8_decode_vals_ascii (l : list Z) :
  Forall (fun c => 0 <= c < 128) l -> Codec.utf8_decode_vals l = Some l.
Proof.
  induction 1 as [|c l Hc _ IH]; [reflexivity|].
  cbn [Codec.utf8_decode_vals]. replace (c <? 128) with true by lia.
  now rewrite IH.
Qed.

Lemma codepoints_py_str (n : Z) :
  Forall (fun c => c = 45 \/ 48 <= c <= 57) (Codec.codepoints (Codec.py_str n)).
Proof.
  assert (Hu : forall d, Forall (fun c => c = 45 \/ 48 <= c <= 57) (uint_codes d)).
  { intros d. eapply Forall_impl; [apply RoundTrip.uint_codes_digit|]. cbn. auto. }
  assert (Hz : forall d, Codec.codepoints (NilZero.string_of_uint d)
                         = match d with Nil => [48] | _ => uint_codes d end).
  { intros d. unfold NilZero.string_of_uint.
    rewrite <- RoundTrip.codepoints_string_of_uint. now destruct d. }
  unfold Codec.py_str. destruct n as [|p|p]; cbn [Z.to_int NilZero.string_of_int].
  - change (Forall (fun c => c = 45 \/ 48 <= c <= 57) [48]). repeat constructor; lia.
  - rewrite Hz. destruct (Pos.to_uint p) eqn:E; rewrite <- ?E; auto.
    repeat constructor; lia.
  - change (Codec.codepoints (String "-" ?t)) with (45 :: Codec.codepoints t).
    constructor; [auto|]. rewrite Hz.
    destruct (Pos.to_uint p) eqn:E; rewrite <- ?E; auto.
    repeat constructor; lia.
Qed.

Lemma request_decodes (n : Z) :
  Codec.utf8_decode (Client.request_bytes n) = Some (Codec.codepoints (Codec.py_str n)) /\
  Codec.strip (Codec.codepoints (Codec.py_str n)) = Codec.codepoints (Codec.py_str n) /\
  Codec.py_int (Codec.strip (Codec.codepoints (Codec.py_str n))) = Some n.
Proof.
  pose proof (codepoints_py_str n) as H.
  assert (Hs : Codec.strip (Codec.codepoints (Codec.py_str n))
               = Codec.codepoints (Codec.py_str n)).
  { apply RoundTrip.strip_no_space. eapply Forall_impl; [exact H|].
    intros c [->|Hc]; [reflexivity | now apply RoundTrip.isspace_digit]. }
  repeat split.
  - unfold Codec.utf8_decode, Client.request_bytes.
    apply utf8_decode_vals_ascii. eapply Forall_impl; [exact H|]. cbn. lia.
  - exact Hs.
  - rewrite Hs. apply RoundTrip.py_int_py_str.
Qed.


Lemma select_channels_range (arg chans : list Z) :
  Client.select_channels arg = Some chans ->
  chans <> [] /\ Forall (fun ch => 0 <= ch <= 7) chans.
Proof.
  unfold Client.select_channels. case_bool_decide as Hall.
  - intros [= <-]. split; [discriminate|]. repeat constructor; lia.
  - destruct (Client.int_of_text arg) as [n|]; [|discriminate].
    destruct ((0 <=? n) && (n <=? 7)) eqn:E; cbn [negb]; [|discriminate].
    intros [= <-]. split; [discriminate|]. repeat constructor; lia.
Qed.

Lemma received_request (n : Z) :
  (length (Client.request_bytes n) <= 1024)%nat ->
  received (client_bytes (Client.request_bytes n)) = Client.request_bytes n.
Proof. intros H. unfold received, client_bytes. cbn [conn_incoming]. now apply take_ge. Qed.

Lemma daemon_exchange_reply (s s1 : State) (request : list Byte.byte) (reply : string) :
  received (client_bytes request) <> [] ->
  respond (received (client_bytes request)) (count_accept s) = (Ok reply, s1) ->
  sent s1 = sent s ->
  Client.daemon_exchange s request
  = Client.Received (take 1024 (list_byte_of_string reply)).
Proof.
  intros Hne Hresp Hsent. unfold Client.daemon_exchange.
  rewrite (serve_one_reply s s1 (client_bytes request) reply eq_refl eq_refl Hne Hresp).
  cbn [snd count_close record_sent sent]. rewrite Hsent, drop_app_length.
  cbn [flat_map]. now rewrite app_nil_r.
Qed.

(** X13.  What the client asks for, the daemon serves: a channel argument the
    client accepts yields a non-empty list of channels, all from 0 to 7;
    and for each of them a serving daemon whose hardware delivers a sample
    answers the client's request with that sample in four-decimal form,
    never with an error. *)
Theorem accepted_channels_are_served
        (arg chans : list Z) (ch : Z) (s : State) (v : spec_float) :
  Client.select_channels arg = Some chans ->
  In ch chans ->
  channels s = channel_set ->
  hw_sample (hardware s) (length (reads s)) ch = Volts v ->
  chans <> [] /\
  0 <= ch <= 7 /\
  Client.daemon_exchange s (Client.request_bytes ch)
  = Client.Received (take 1024 (list_byte_of_string (Codec.format_4f v))).
Proof.
  intros Hsel Hin Hch Hv.
  destruct (select_channels_range _ _ Hsel) as [Hne Hall].
  pose proof (proj1 (List.Forall_forall _ _) Hall ch Hin) as Hr. cbn beta in Hr.
  split; [exact Hne | split; [exact Hr|]].
  destruct (request_decodes ch) as (Hdec & Hstrip & Hint).
  assert (Hlen : (length (Client.request_bytes ch) <= 1024)%nat).
  { assert (ch = 0 \/ ch = 1 \/ ch = 2 \/ ch = 3 \/ ch = 4 \/ ch = 5 \/ ch = 6 \/ ch = 7)
      as Hc by lia.
    repeat destruct Hc as [->|Hc]; try subst ch; cbn; lia. }
  pose proof (received_request ch Hlen) as Hrecv.
  eapply daemon_exchange_reply.
  - rewrite Hrecv. eapply parsed_payload_nonempty; [exact Hdec | exact Hint].
  - rewrite Hrecv. eapply respond_voltage; eauto.
  - cbn [sent]. autorewrite with logged. cbn [record_read sent].
    now autorewrite with logged.
Qed.

Lemma accepted_channels_are_served_witness :
  Client.daemon_exchange (serving_state 3) (Client.request_bytes 5)
  = Client.Received (list_byte_of_string "1.6500").
Proof.
  destruct (accepted_channels_are_served (Codec.codepoints "all") [0; 1; 2; 3; 4; 5; 6; 7]
              5 (serving_state 3) volts_1_65 eq_refl) as (_ & _ & H);
    [cbn; tauto | reflexivity | reflexivity |].
  exact H.
Defined.

(** X14.  A query the daemon refuses: for a channel outside 0-7 the daemon's
    reply makes [get_adc_voltage] return [None] and print
    "Communication error: ERROR: Channel must be 0-7", whatever [float()]
    would have made of the text: the reply never reaches it. *)
Theorem refused_query_returns_None
        (py_float : list Z -> option spec_float) (float_error ascii_error : list Z)
        (n : Z) (s : State) :
  n < 0 \/ 7 < n ->
  (length (Client.request_bytes n) <= 1024)%nat ->
  Client.get_adc_voltage py_float float_error ascii_error (Client.daemon_exchange s) n
  = Client.failed (Codec.codepoints "ERROR: Channel must be 0-7").
Proof.
  intros Hn Hlen.
  destruct (request_decodes n) as (Hdec & Hstrip & Hint).
  pose proof (received_request n Hlen) as Hrecv.
  pose proof (respond_out_of_range (count_accept s) _ _ _ Hdec Hint Hn) as Hresp.
  rewrite <- Hrecv in Hresp.
  unfold Client.get_adc_voltage.
  rewrite (daemon_exchange_reply s _ _ _ ltac:(rewrite Hrecv;
             exact (parsed_payload_nonempty _ _ _ Hdec Hint)) Hresp
             ltac:(now autorewrite with logged)).
  reflexivity.
Qed.

Lemma refused_query_returns_None_witness :
  Client.returned
    (Client.get_adc_voltage (fun _ => Some volts_1_65) [] []
       (Client.daemon_exchange (serving_state 3)) 9) = None.
Proof.
  rewrite (refused_query_returns_None (fun _ => Some volts_1_65) [] [] 9 (serving_state 3));
    [reflexivity | lia | cbn; lia].
Defined.

Lemma log_line_has_no_line_break_witness :
  one_line [97; 10; 98; 13; 99] = [97; 32; 98; 99] /\ one_line [123; 125] = [123; 125].
Proof.
  destruct (log_line_has_no_line_break [123; 125]) as (_ & _ & _ & Hid).
  split; [reflexivity|].
  apply Hid; cbn; lia.
Defined.


(** ** Reading back a formatted voltage *)

Module FloatFacts.
Import Codec PyFloat.

Lemma round_half_even_near (a d n : Z) :
  0 < d -> 2 * Z.abs (a - n * d) < d -> round_half_even a d = n.
Proof.
  intros Hd Hnear. unfold round_half_even.
  pose proof (Z.div_mod a d ltac:(lia)) as Hdm.
  pose proof (Z.mod_pos_bound a d Hd) as Hm.
  assert (Hq : a / d = n \/ a / d = n - 1) by nia.
  destruct Hq as [Hq|Hq]; rewrite Hq in *.
  - replace (2 * (a mod d) <? d) with true by nia. reflexivity.
  - replace (2 * (a mod d) <? d) with false by nia.
    replace (d <? 2 * (a mod d)) with true by nia. lia.
Qed.

Lemma round_half_even_error (a d : Z) :
  0 < d -> 2 * Z.abs (round_half_even a d * d - a) <= d.
Proof.
  intros Hd. unfold round_half_even.
  pose proof (Z.div_mod a d ltac:(lia)) as Hdm.
  pose proof (Z.mod_pos_bound a d Hd) as Hm.
  destruct (2 * (a mod d) <? d) eqn:E1; [nia|].
  destruct (d <? 2 * (a mod d)) eqn:E2; [nia|].
  destruct (Z.even (a / d)); nia.
Qed.


(** Where [n / 10000] lies between powers of two. *)
Lemma floor_log2_bounds (n : Z) :
  0 < n < 2 ^ 52 ->
  let lg := Z.log2 n - 13 in
  let fl := if (if 0 <=? lg then 10000 * 2 ^ lg <=? n else 10000 <=? n * 2 ^ (- lg))
            then lg else lg - 1 in
  -14 <= fl <= 38 /\
  10000 * 2 ^ 52 <= n * 2 ^ (52 - fl) < 10000 * 2 ^ 53.
Proof.
  intros Hn lg fl.
  assert (HL : 0 <= Z.log2 n < 52).
  { split; [apply Z.log2_nonneg|]. apply Z.log2_lt_pow2; lia. }
  destruct (Z.log2_spec n ltac:(lia)) as [Hlo Hhi].
  replace (Z.succ (Z.log2 n)) with (Z.log2 n + 1) in Hhi by lia.
  subst fl. destruct (0 <=? lg) eqn:Hsign.
  - assert (Hlg : 0 <= lg <= 38) by (subst lg; lia).
    assert (HQ : 0 < 2 ^ lg) by (apply Z.pow_pos_nonneg; lia).
    assert (E1 : 2 ^ Z.log2 n = 8192 * 2 ^ lg).
    { replace (Z.log2 n) with (13 + lg) by (subst lg; lia).
      rewrite Z.pow_add_r by lia. reflexivity. }
    assert (E2 : 2 ^ (Z.log2 n + 1) = 16384 * 2 ^ lg).
    { replace (Z.log2 n + 1) with (14 + lg) by (subst lg; lia).
      rewrite Z.pow_add_r by lia. reflexivity. }
    destruct (10000 * 2 ^ lg <=? n) eqn:T.
    + assert (E3 : 2 ^ lg * 2 ^ (52 - lg) = 2 ^ 52).
      { rewrite <- Z.pow_add_r by lia. f_equal; lia. }
      assert (HP : 0 < 2 ^ (52 - lg)) by (apply Z.pow_pos_nonneg; lia).
      split; [lia|]. nia.
    + assert (E3 : 2 ^ lg * 2 ^ (52 - (lg - 1)) = 2 ^ 53).
      { rewrite <- Z.pow_add_r by lia. f_equal; lia. }
      assert (HP : 0 < 2 ^ (52 - (lg - 1))) by (apply Z.pow_pos_nonneg; lia).
      split; [lia|]. nia.
  - assert (Hlg : -13 <= lg < 0) by (subst lg; lia).
    assert (HR : 0 < 2 ^ (- lg)) by (apply Z.pow_pos_nonneg; lia).
    assert (E1 : 2 ^ Z.log2 n * 2 ^ (- lg) = 8192).
    { rewrite <- Z.pow_add_r by lia. replace (Z.log2 n + - lg) with 13 by (subst lg; lia).
      try reflexivity. }
    assert (E2 : 2 ^ (Z.log2 n + 1) * 2 ^ (- lg) = 16384).
    { rewrite <- Z.pow_add_r by lia.
      replace (Z.log2 n + 1 + - lg) with 14 by (subst lg; lia). try reflexivity. }
    destruct (10000 <=? n * 2 ^ (- lg)) eqn:T.
    + assert (E3 : 2 ^ (52 - lg) = 2 ^ 52 * 2 ^ (- lg)).
      { rewrite <- Z.pow_add_r by lia. f_equal; lia. }
      split; [lia|]. rewrite E3. nia.
    + assert (E3 : 2 ^ (52 - (lg - 1)) = 2 ^ 53 * 2 ^ (- lg)).
      { rewrite <- Z.pow_add_r by lia. f_equal; lia. }
      split; [lia|]. rewrite E3. nia.
Qed.


(** The binary64 nearest to [n / 10000] prints back as [n]. *)
Lemma nearest_four_decimals (n : Z) :
  0 < n < 2 ^ 52 ->
  exists m e,
    nearest false n (-4) = S754_finite false m e /\
    scaled_4dp m e = n.
Proof.
  intros Hn. destruct (floor_log2_bounds n Hn) as [Hfl Hbounds].
  cbv zeta in Hfl, Hbounds. unfold nearest.
  replace (n =? 0) with false by lia.
  change (0 <=? -4) with false. cbv iota.
  change (10 ^ (- -4)) with 10000. change (Z.log2 10000) with 13.
  set (lg := Z.log2 n - 13) in *.
  set (fl := if (if 0 <=? lg then 10000 * 2 ^ lg <=? n else 10000 <=? n * 2 ^ (- lg))
             then lg else lg - 1) in *.
  cbv zeta.
  replace (Z.max (fl - 52) (-1074)) with (fl - 52) by lia.
  replace (fl - 52 <? 0) with true by lia.
  replace (- (fl - 52)) with (52 - fl) by lia.
  set (k := 52 - fl) in *.
  assert (Hk : 14 <= k <= 66) by (subst k; lia).
  assert (Hpow : 16384 <= 2 ^ k).
  { change 16384 with (2 ^ 14). apply Z.pow_le_mono_r; lia. }
  pose proof (round_half_even_error (n * 2 ^ k) 10000 ltac:(lia)) as Herr.
  set (mant := round_half_even (n * 2 ^ k) 10000) in *.
  assert (Hmant : 2 ^ 52 <= mant <= 2 ^ 53) by lia.
  destruct (mant =? 2 ^ 53) eqn:Hcarry.
  - apply Z.eqb_eq in Hcarry.
    change (2 ^ 52 =? 0) with false. cbv iota.
    replace (971 <? fl - 52 + 1) with false by lia.
    exists (Z.to_pos (2 ^ 52)), (fl - 52 + 1). split; [reflexivity|].
    unfold scaled_4dp. replace (0 <=? fl - 52 + 1) with false by lia.
    replace (- (fl - 52 + 1)) with (k - 1) by (subst k; lia).
    assert (Hk1 : 2 ^ k = 2 * 2 ^ (k - 1)).
    { replace k with (1 + (k - 1)) at 1 by lia. rewrite Z.pow_add_r by lia. reflexivity. }
    apply round_half_even_near; [apply Z.pow_pos_nonneg; lia|].
    change (Z.pos (Z.to_pos (2 ^ 52))) with (2 ^ 52). lia.
  - apply Z.eqb_neq in Hcarry.
    replace (mant =? 0) with false by lia.
    replace (971 <? fl - 52) with false by lia.
    exists (Z.to_pos mant), (fl - 52). split; [reflexivity|].
    unfold scaled_4dp. replace (0 <=? fl - 52) with false by lia.
    replace (- (fl - 52)) with k by (subst k; lia).
    rewrite Z2Pos.id by lia.
    apply round_half_even_near; lia.
Qed.


(** *** The text of a formatted voltage, as code points *)

Lemma codepoints_app (s1 s2 : string) :
  codepoints (s1 +:+ s2) = codepoints s1 ++ codepoints s2.
Proof.
  unfold codepoints. induction s1 as [|a s1 IH]; [reflexivity|].
  change (String a s1 +:+ s2)%string with (String a (s1 +:+ s2)).
  change (list_byte_of_string (String a ?t))
    with (byte_of_ascii a :: list_byte_of_string t).
  cbn [map app]. now rewrite IH.
Qed.

Lemma py_str_uint (i : Z) :
  0 <= i ->
  exists d, codepoints (py_str i) = uint_codes d /\
            uint_codes d <> [] /\ uint_acc d 0 = i.
Proof.
  intros Hi. destruct i as [|p|p]; [| |lia].
  - exists (D0 Nil). repeat split. discriminate.
  - exists (Pos.to_uint p).
    pose proof (DecimalPos.Unsigned.to_uint_nonnil p) as Hnil.
    assert (E : codepoints (py_str (Z.pos p)) = uint_codes (Pos.to_uint p)).
    { unfold py_str. cbn [Z.to_int NilZero.string_of_int]. unfold NilZero.string_of_uint.
      rewrite <- RoundTrip.codepoints_string_of_uint.
      destruct (Pos.to_uint p); congruence. }
    split; [exact E|]. split.
    + destruct (Pos.to_uint p); cbn; congruence.
    + rewrite RoundTrip.uint_acc_zero, DecimalPos.Unsigned.of_to. reflexivity.
Qed.

Lemma digit_char_code (d : Z) :
  0 <= d <= 9 -> codepoints (String (digit_char d) "") = [48 + d].
Proof.
  intros Hd.
  assert (d = 0 \/ d = 1 \/ d = 2 \/ d = 3 \/ d = 4 \/ d = 5 \/ d = 6 \/ d = 7
          \/ d = 8 \/ d = 9) as H by lia.
  repeat destruct H as [->|H]; try subst d; reflexivity.
Qed.

(** The reply for [n] ten-thousandths: the digits of the integer part, a
    dot, and four digits whose value is the remainder. *)
Lemma fixed4_codepoints (n : Z) :
  0 <= n ->
  exists d d3 d2 d1 d0,
    codepoints (fixed4 false n)
    = uint_codes d ++ 46 :: [48 + d3; 48 + d2; 48 + d1; 48 + d0] /\
    uint_codes d <> [] /\
    0 <= d3 <= 9 /\ 0 <= d2 <= 9 /\ 0 <= d1 <= 9 /\ 0 <= d0 <= 9 /\
    (((uint_acc d 0 * 10 + d3) * 10 + d2) * 10 + d1) * 10 + d0 = n.
Proof.
  intros Hn.
  assert (Hq : 0 <= n / 10000) by (apply Z.div_pos; lia).
  destruct (py_str_uint _ Hq) as (d & Hd & Hne & Hval).
  set (f := n mod 10000).
  assert (Hf : 0 <= f < 10000) by (subst f; apply Z.mod_pos_bound; lia).
  exists d, (f / 1000 mod 10), (f / 100 mod 10), (f / 10 mod 10), (f mod 10).
  assert (H3 : 0 <= f / 1000 mod 10 <= 9)
    by (pose proof (Z.mod_pos_bound (f / 1000) 10); lia).
  assert (H2 : 0 <= f / 100 mod 10 <= 9)
    by (pose proof (Z.mod_pos_bound (f / 100) 10); lia).
  assert (H1 : 0 <= f / 10 mod 10 <= 9)
    by (pose proof (Z.mod_pos_bound (f / 10) 10); lia).
  assert (H0 : 0 <= f mod 10 <= 9)
    by (pose proof (Z.mod_pos_bound f 10); lia).
  repeat split; try lia; try assumption.
  - unfold fixed4. change ("" +:+ ?x)%string with x.
    rewrite codepoints_app, Hd. f_equal.
    change ("." +:+ ?x)%string with (String "."%char x).
    unfold pad4. fold f.
    change (codepoints (String "." (String ?a (String ?b (String ?c (String ?e ""))))))
      with (46 :: (codepoints (String a "") ++ codepoints (String b "")
                     ++ codepoints (String c "") ++ codepoints (String e ""))).
    rewrite !digit_char_code by assumption. reflexivity.
  - rewrite Hval. subst f.
    pose proof (Z.div_mod n 10000 ltac:(lia)).
    Z.to_euclidean_division_equations. lia.
Qed.


(** *** Reading that text back with [float()] *)

Lemma digit_bounds (c : Z) : is_digit c = true <-> 48 <= c <= 57.
Proof. unfold is_digit, in_range. rewrite andb_true_iff, !Z.leb_le. tauto. Qed.

Lemma uint_codes_digits (d : uint) :
  List.Forall (fun c => is_digit c = true) (uint_codes d).
Proof. induction d; cbn [uint_codes]; constructor; auto. Qed.

Lemma scan_digits_digit (acc count c : Z) (r : list Z) :
  is_digit c = true ->
  scan_digits acc count (c :: r) = scan_digits (10 * acc + (c - 48)) (count + 1) r.
Proof. intros H. cbn [scan_digits]. now rewrite H. Qed.

Lemma scan_digits_stop (acc count : Z) (rest : list Z) :
  match rest with c :: _ => is_digit c = false | [] => True end ->
  scan_digits acc count rest = (acc, count, rest).
Proof. destruct rest as [|c r]; [reflexivity|]. intros H. cbn [scan_digits]. now rewrite H. Qed.

Lemma scan_digits_uint (d : uint) (acc count : Z) (rest : list Z) :
  match rest with c :: _ => is_digit c = false | [] => True end ->
  scan_digits acc count (uint_codes d ++ rest)
  = (uint_acc d acc, count + Z.of_nat (length (uint_codes d)), rest).
Proof.
  intros Hrest. revert acc count.
  induction d; intros acc count; cbn [uint_codes uint_acc app length];
    [ rewrite scan_digits_stop by assumption
    | rewrite scan_digits_digit by reflexivity; rewrite IHd .. ];
    (apply pair_equal_spec; split; [apply pair_equal_spec; split|]);
    try reflexivity; try lia; f_equal; lia.
Qed.

Lemma map_to_ascii_ascii (cs : list Z) :
  List.Forall (fun c => c < 127) cs -> map to_ascii cs = cs.
Proof.
  induction 1 as [|c r Hc _ IH]; [reflexivity|].
  cbn [map]. rewrite IH. unfold to_ascii.
  destruct (Z.ltb_spec c 127); [reflexivity|lia].
Qed.

Lemma lstrip_blank_head (cs : list Z) :
  match cs with c :: _ => is_blank c = false | [] => True end ->
  lstrip_blank cs = cs.
Proof. destruct cs as [|c r]; [reflexivity|]. intros H. cbn [lstrip_blank]. now rewrite H. Qed.

Lemma strip_blank_no_blank (cs : list Z) :
  List.Forall (fun c => is_blank c = false) cs -> strip_blank cs = cs.
Proof.
  intros H. unfold strip_blank.
  rewrite (lstrip_blank_head cs) by (destruct H; auto).
  rewrite lstrip_blank_head, rev_involutive; [reflexivity|].
  apply Forall_rev in H. destruct H; auto.
Qed.

Lemma drop_underscores_none (prev : Z) (cs : list Z) :
  prev <> 95 -> List.Forall (fun c => c <> 95) cs ->
  drop_underscores prev cs = Some cs.
Proof.
  intros Hp H. revert prev Hp.
  induction H as [|c r Hc _ IH]; intros prev Hp; cbn [drop_underscores].
  - destruct (Z.eqb_spec prev 95); [contradiction|reflexivity].
  - destruct (Z.eqb_spec c 95); [contradiction|].
    destruct (Z.eqb_spec prev 95); [contradiction|].
    cbn [andb]. now rewrite IH.
Qed.

(** [float()] of a plain decimal with four fractional digits is the
    double nearest to the number the digits spell. *)
Lemma py_float_decimal (d : uint) (d3 d2 d1 d0 : Z) :
  uint_codes d <> [] ->
  0 <= d3 <= 9 -> 0 <= d2 <= 9 -> 0 <= d1 <= 9 -> 0 <= d0 <= 9 ->
  py_float (uint_codes d ++ 46 :: [48 + d3; 48 + d2; 48 + d1; 48 + d0])
  = Some (nearest false
            ((((uint_acc d 0 * 10 + d3) * 10 + d2) * 10 + d1) * 10 + d0) (-4)).
Proof.
  intros Hne H3 H2 H1 H0.
  set (frac := [48 + d3; 48 + d2; 48 + d1; 48 + d0]).
  assert (Hall : List.Forall (fun c => 46 <= c <= 57) (uint_codes d ++ 46 :: frac)).
  { apply Forall_app. split.
    - eapply List.Forall_impl; [|apply uint_codes_digits].
      intros c Hc. apply digit_bounds in Hc. lia.
    - subst frac. repeat constructor; lia. }
  unfold py_float.
  rewrite map_to_ascii_ascii
    by (eapply List.Forall_impl; [|exact Hall]; cbn; intros; lia).
  rewrite strip_blank_no_blank.
  2:{ eapply List.Forall_impl; [|exact Hall]. cbn. intros c Hc.
      unfold is_blank, in_range.
      destruct (Z.leb_spec 9 c), (Z.leb_spec c 13), (Z.eqb_spec c 32);
        cbn; try reflexivity; lia. }
  rewrite drop_underscores_none
    by first [lia | eapply List.Forall_impl; [|exact Hall]; cbn; intros; lia].
  pose proof (uint_codes_digits d) as Hd.
  destruct (uint_codes d) as [|c r] eqn:Ec; [contradiction|].
  assert (Hc : 48 <= c <= 57) by (inversion Hd; subst; now apply digit_bounds).
  cbn [app].
  destruct (Z.eqb_spec c 45); [lia|]. destruct (Z.eqb_spec c 43); [lia|].
  cbn [map].
  assert (Hl : lower c = c).
  { unfold lower, in_range. destruct (Z.leb_spec 65 c); [lia|reflexivity]. }
  rewrite Hl.
  rewrite !bool_decide_eq_false_2
    by (intros E; apply (f_equal (fun l => hd 0 l)) in E; cbn in E; lia).
  cbn [orb].
  change (c :: r ++ 46 :: frac) with ((c :: r) ++ 46 :: frac). rewrite <- Ec.
  unfold parse_decimal.
  rewrite scan_digits_uint by reflexivity.
  change (46 =? 46) with true. cbv iota beta.
  subst frac.
  rewrite !scan_digits_digit by (apply digit_bounds; lia).
  cbn [scan_digits].
  destruct (Z.eqb_spec (0 + Z.of_nat (length (uint_codes d)) + (0 + 1 + 1 + 1 + 1)) 0);
    [lia|].
  do 2 f_equal; lia.
Qed.

Lemma py_float_fixed4 (n : Z) :
  0 <= n ->
  py_float (codepoints (fixed4 false n)) = Some (nearest false n (-4)).
Proof.
  intros Hn.
  destruct (fixed4_codepoints n Hn)
    as (d & d3 & d2 & d1 & d0 & -> & Hne & H3 & H2 & H1 & H0 & <-).
  now apply py_float_decimal.
Qed.


(** The reply for a sample the ADC can report is read back by [float()],
    and the value read formats to the same text. *)
Lemma float_of_voltage_text (v : spec_float) :
  nonneg_finite v = true ->
  ten_thousandths v < 2 ^ 52 ->
  exists x,
    py_float (codepoints (format_4f v)) = Some x /\
    nonneg_finite x = true /\
    ten_thousandths x = ten_thousandths v /\
    format_4f x = format_4f v.
Proof.
  intros Hv Hn.
  destruct v as [[|]|[|]| |[|] m e]; try discriminate Hv; cbn [format_4f ten_thousandths] in *.
  - exists (S754_zero false). rewrite py_float_fixed4 by lia. repeat split.
  - pose proof (CodecFacts.scaled_4dp_nonneg m e) as H0.
    rewrite py_float_fixed4 by exact H0.
    destruct (Z.eq_dec (scaled_4dp m e) 0) as [E|E].
    + rewrite E. exists (S754_zero false). repeat split.
    + destruct (nearest_four_decimals (scaled_4dp m e)) as (m' & e' & Hx & Hs); [lia|].
      exists (S754_finite false m' e'). rewrite Hx.
      cbn [format_4f nonneg_finite ten_thousandths].
      now rewrite Hs.
Qed.

(** *** The length of a reply *)

Lemma unorm_fixed_head (d : uint) :
  unorm d = d -> d <> zero ->
  match d with Nil | D0 _ => False | _ => True end.
Proof.
  intros Hfix Hnz. destruct d as [|r| | | | | | | | |]; try exact I.
  - discriminate Hfix.
  - rewrite DecimalFacts.unorm_D0 in Hfix.
    destruct r as [|r'| | | | | | | | |] eqn:Er; [now apply Hnz|..];
      (rewrite <- Er in *;
       assert (Hr : r <> Nil) by (rewrite Er; discriminate);
       pose proof (DecimalFacts.nb_digits_unorm r Hr) as Hle;
       rewrite Hfix in Hle; cbn [nb_digits] in Hle; lia).
Qed.

Lemma uint_acc_lower (d : uint) (acc : Z) :
  0 <= acc -> acc * 10 ^ Z.of_nat (length (uint_codes d)) <= uint_acc d acc.
Proof.
  revert acc. induction d; intros acc Hacc; cbn [uint_codes uint_acc length];
    [ cbn; lia
    | rewrite Nat2Z.inj_succ, Z.pow_succ_r by lia;
      (etransitivity; [|apply IHd; lia]);
      pose proof (Z.pow_nonneg 10 (Z.of_nat (length (uint_codes d))) ltac:(lia));
      nia .. ].
Qed.

Lemma py_str_length (i : Z) :
  0 <= i < 10 ^ 16 -> (length (codepoints (py_str i)) <= 16)%nat.
Proof.
  intros Hi. destruct i as [|p|p]; [cbn; lia| |lia].
  assert (E : codepoints (py_str (Z.pos p)) = uint_codes (Pos.to_uint p)).
  { pose proof (DecimalPos.Unsigned.to_uint_nonnil p) as Hnil.
    unfold py_str. cbn [Z.to_int NilZero.string_of_int]. unfold NilZero.string_of_uint.
    rewrite <- RoundTrip.codepoints_string_of_uint.
    destruct (Pos.to_uint p); congruence. }
  rewrite E.
  assert (Hval : uint_acc (Pos.to_uint p) 0 = Z.pos p)
    by (rewrite RoundTrip.uint_acc_zero, DecimalPos.Unsigned.of_to; reflexivity).
  assert (Hfix : unorm (Pos.to_uint p) = Pos.to_uint p).
  { rewrite <- (DecimalPos.Unsigned.to_of (Pos.to_uint p)).
    now rewrite DecimalPos.Unsigned.of_to. }
  pose proof (unorm_fixed_head _ Hfix (DecimalPos.Unsigned.to_uint_nonzero p)) as Hhead.
  destruct (Pos.to_uint p) as [|r|r|r|r|r|r|r|r|r|r]; try contradiction;
    cbn [uint_codes uint_acc length] in *;
    (match type of Hval with
     | uint_acc r ?a = _ => pose proof (uint_acc_lower r a ltac:(lia)) as Hlow
     end;
     assert (Hlt : 10 ^ Z.of_nat (length (uint_codes r)) < 10 ^ 16) by nia;
     apply Z.pow_lt_mono_r_iff in Hlt; lia).
Qed.

Lemma format_4f_length (v : spec_float) :
  nonneg_finite v = true ->
  ten_thousandths v < 2 ^ 52 ->
  (length (list_byte_of_string (format_4f v)) <= 1024)%nat.
Proof.
  intros Hv Hn.
  assert (Hfix : forall n, 0 <= n < 2 ^ 52 ->
                   (length (codepoints (fixed4 false n)) <= 1024)%nat).
  { intros n Hb. unfold fixed4. change ("" +:+ ?x)%string with x.
    rewrite codepoints_app, length_app.
    assert (0 <= n / 10000 < 10 ^ 16).
    { split; [apply Z.div_pos; lia|].
      apply Z.div_lt_upper_bound; [lia|].
      change (2 ^ 52) with 4503599627370496 in Hb.
      change (10 ^ 16) with 10000000000000000. lia. }
    pose proof (py_str_length (n / 10000) ltac:(assumption)).
    change (length (codepoints ("." +:+ pad4 (n mod 10000)))) with 5%nat. lia. }
  replace (length (list_byte_of_string (format_4f v)))
    with (length (codepoints (format_4f v)))
    by (unfold codepoints; apply length_map).
  destruct v as [[|]|[|]| |[|] m e]; try discriminate Hv; cbn [format_4f ten_thousandths] in *.
  - apply Hfix. lia.
  - apply Hfix. pose proof (CodecFacts.scaled_4dp_nonneg m e). lia.
Qed.

Lemma fixed4_chars (n : Z) :
  0 <= n ->
  List.Forall (fun c => 46 <= c <= 57) (codepoints (fixed4 false n)) /\
  exists c r, codepoints (fixed4 false n) = c :: r /\ 48 <= c <= 57.
Proof.
  intros Hn.
  destruct (fixed4_codepoints n Hn)
    as (d & d3 & d2 & d1 & d0 & -> & Hne & H3 & H2 & H1 & H0 & _).
  split.
  - apply Forall_app. split.
    + eapply List.Forall_impl; [|apply RoundTrip.uint_codes_digit]. cbn. intros; lia.
    + repeat constructor; lia.
  - pose proof (RoundTrip.uint_codes_digit d) as Hd.
    destruct (uint_codes d) as [|c r]; [contradiction|].
    inversion Hd; subst. exists c, (r ++ 46 :: [48 + d3; 48 + d2; 48 + d1; 48 + d0]).
    split; [reflexivity|assumption].
Qed.

Lemma format_4f_chars (v : spec_float) :
  nonneg_finite v = true ->
  List.Forall (fun c => 46 <= c <= 57) (codepoints (format_4f v)) /\
  exists c r, codepoints (format_4f v) = c :: r /\ 48 <= c <= 57.
Proof.
  intros Hv.
  destruct v as [[|]|[|]| |[|] m e]; try discriminate Hv; cbn [format_4f].
  - apply fixed4_chars. lia.
  - apply fixed4_chars, CodecFacts.scaled_4dp_nonneg.
Qed.

End FloatFacts.

(** ** The client reads back what the daemon sent *)

Lemma daemon_exchange_voltage (s : State) (ch : Z) (v : spec_float) :
  0 <= ch <= 7 ->
  channels s = channel_set ->
  hw_sample (hardware s) (length (reads s)) ch = Volts v ->
  Client.daemon_exchange s (Client.request_bytes ch)
  = Client.Received (take 1024 (list_byte_of_string (Codec.format_4f v))).
Proof.
  intros Hr Hch Hv.
  destruct (request_decodes ch) as (Hdec & Hstrip & Hint).
  assert (Hlen : (length (Client.request_bytes ch) <= 1024)%nat).
  { assert (ch = 0 \/ ch = 1 \/ ch = 2 \/ ch = 3 \/ ch = 4 \/ ch = 5 \/ ch = 6 \/ ch = 7)
      as Hc by lia.
    repeat destruct Hc as [->|Hc]; try subst ch; cbn; lia. }
  pose proof (received_request ch Hlen) as Hrecv.
  eapply daemon_exchange_reply.
  - rewrite Hrecv. eapply parsed_payload_nonempty; [exact Hdec | exact Hint].
  - rewrite Hrecv. eapply respond_voltage; eauto.
  - cbn [sent]. autorewrite with logged. cbn [record_read sent].
    now autorewrite with logged.
Qed.

Lemma ascii_decode_text (t : string) :
  List.Forall (fun c => c < 128) (Codec.codepoints t) ->
  Client.ascii_decode (list_byte_of_string t) = Some (Codec.codepoints t).
Proof.
  intros H. unfold Client.ascii_decode.
  replace (forallb (fun b => Codec.byte_val b <? 128) (list_byte_of_string t)) with true;
    [reflexivity|].
  symmetry. apply forallb_forall. intros b Hb.
  apply Z.ltb_lt.
  apply (proj1 (List.Forall_forall _ _) H).
  unfold Codec.codepoints. now apply in_map.
Qed.

Lemma startswith_other_head (p c : Z) (prefix t : list Z) :
  p <> c -> Client.startswith (p :: prefix) (c :: t) = false.
Proof. intros H. cbn [Client.startswith]. destruct (Z.eqb_spec p c); [contradiction|reflexivity]. Qed.

(** What [get_adc_voltage] makes of the reply text of a sample. *)
Lemma get_adc_voltage_of_reply
      (float_error ascii_error : list Z)
      (transport : list Byte.byte -> Client.exchange) (ch : Z) (v : spec_float) :
  transport (Client.request_bytes ch)
  = Client.Received (take 1024 (list_byte_of_string (Codec.format_4f v))) ->
  Codec.nonneg_finite v = true ->
  ten_thousandths v < 2 ^ 52 ->
  exists x,
    Client.get_adc_voltage PyFloat.py_float float_error ascii_error transport ch
    = {| Client.returned := Some x; Client.printed := [] |} /\
    Codec.nonneg_finite x = true /\
    ten_thousandths x = ten_thousandths v /\
    Codec.format_4f x = Codec.format_4f v.
Proof.
  intros Htr Hv Hn.
  destruct (FloatFacts.float_of_voltage_text v Hv Hn) as (x & Hx & Hfin & Hsame & Hfmt).
  destruct (FloatFacts.format_4f_chars v Hv) as (Hall & c & r & Hhead & Hc).
  exists x. split; [|split; [|split]; assumption].
  unfold Client.get_adc_voltage. rewrite Htr.
  rewrite take_ge by (apply FloatFacts.format_4f_length; assumption).
  rewrite ascii_decode_text
    by (eapply List.Forall_impl; [|exact Hall]; cbn; intros; lia).
  cbv zeta.
  rewrite RoundTrip.strip_no_space.
  2:{ eapply List.Forall_impl; [|exact Hall]. cbn. intros a Ha.
      unfold Codec.isspace, Codec.in_range. lia. }
  rewrite Hhead at 1.
  change (Codec.codepoints "ERROR") with [69; 82; 82; 79; 82].
  rewrite startswith_other_head by lia.
  now rewrite Hx.
Qed.

(** X15.  The reply survives the client's [float()]: for a sample the ADC
    can report, below 2^52 ten-thousandths of a volt, [float()] accepts the
    daemon's four-decimal text, and formatting the value it returns to four
    decimals gives that text again. *)
Theorem voltage_text_survives_float (v : spec_float) :
  Codec.nonneg_finite v = true ->
  ten_thousandths v < 2 ^ 52 ->
  exists x,
    PyFloat.py_float (Codec.codepoints (Codec.format_4f v)) = Some x /\
    Codec.nonneg_finite x = true /\
    Codec.format_4f x = Codec.format_4f v.
Proof.
  intros Hv Hn.
  destruct (FloatFacts.float_of_voltage_text v Hv Hn) as (x & Hx & Hfin & _ & Hfmt).
  now exists x.
Qed.

Lemma voltage_text_survives_float_witness :
  exists x,
    PyFloat.py_float (Codec.codepoints "1.6500") = Some x /\
    Codec.nonneg_finite x = true /\
    Codec.format_4f x = "1.6500"%string.
Proof.
  apply (voltage_text_survives_float volts_1_65); [reflexivity | vm_compute; reflexivity].
Defined.

(** X16.  A served query returns the voltage: when a serving daemon samples
    a value the ADC can report on a channel from 0 to 7, [get_adc_voltage]
    for that channel prints nothing and returns a float that shows, to four
    decimals, exactly the text the daemon sent. *)
Theorem served_query_returns_the_voltage
        (float_error ascii_error : list Z) (ch : Z) (s : State) (v : spec_float) :
  0 <= ch <= 7 ->
  channels s = channel_set ->
  hw_sample (hardware s) (length (reads s)) ch = Volts v ->
  Codec.nonneg_finite v = true ->
  ten_thousandths v < 2 ^ 52 ->
  exists x,
    Client.get_adc_voltage PyFloat.py_float float_error ascii_error
      (Client.daemon_exchange s) ch
    = {| Client.returned := Some x; Client.printed := [] |} /\
    Codec.format_4f x = Codec.format_4f v.
Proof.
  intros Hr Hch Hs Hv Hn.
  destruct (get_adc_voltage_of_reply float_error ascii_error
              (Client.daemon_exchange s) ch v
              (daemon_exchange_voltage s ch v Hr Hch Hs) Hv Hn)
    as (x & Hget & _ & _ & Hfmt).
  exists x. split; assumption.
Qed.

Lemma served_query_returns_the_voltage_witness :
  exists x,
    Client.get_adc_voltage PyFloat.py_float [] [] (Client.daemon_exchange (serving_state 3)) 5
    = {| Client.returned := Some x; Client.printed := [] |} /\
    Codec.format_4f x = "1.6500"%string.
Proof.
  apply (served_query_returns_the_voltage [] [] 5 (serving_state 3) volts_1_65);
    [lia | reflexivity | reflexivity | reflexivity | vm_compute; reflexivity].
Defined.

(** ** The client's [main] against a serving daemon *)

Lemma served_voltage_state (s : State) (ch : Z) (v : spec_float) :
  0 <= ch <= 7 ->
  channels s = channel_set ->
  hw_sample (hardware s) (length (reads s)) ch = Volts v ->
  exists s1,
    snd (serve_one (Connects (client_bytes (Client.request_bytes ch))) s) = s1 /\
    channels s1 = channels s /\ hardware s1 = hardware s /\
    reads s1 = reads s ++ [ch] /\
    sent s1 = sent s ++ [Codec.format_4f v].
Proof.
  intros Hr Hch Hv.
  destruct (request_decodes ch) as (Hdec & Hstrip & Hint).
  assert (Hlen : (length (Client.request_bytes ch) <= 1024)%nat).
  { assert (ch = 0 \/ ch = 1 \/ ch = 2 \/ ch = 3 \/ ch = 4 \/ ch = 5 \/ ch = 6 \/ ch = 7)
      as Hc by lia.
    repeat destruct Hc as [->|Hc]; try subst ch; cbn; lia. }
  pose proof (received_request ch Hlen) as Hrecv.
  eexists. split.
  - erewrite serve_one_reply; [reflexivity | reflexivity | reflexivity | |].
    + rewrite Hrecv. eapply parsed_payload_nonempty; [exact Hdec | exact Hint].
    + rewrite Hrecv. eapply respond_voltage; eauto.
  - cbn [snd count_close record_sent channels hardware reads sent].
    autorewrite with logged. cbn [record_read channels hardware reads sent].
    autorewrite with logged. cbn [count_accept channels hardware reads sent].
    repeat split.
Qed.

(** One query against a serving daemon. *)
Lemma query_served (float_error ascii_error : list Z) (ch : Z) (s : State) :
  0 <= ch <= 7 ->
  channels s = channel_set ->
  always_delivers (hardware s) ->
  exists v x s1,
    ClientMain.query PyFloat.py_float float_error ascii_error ClientMain.daemon_peer ch s
    = ({| Client.returned := Some x; Client.printed := [] |}, s1) /\
    Codec.nonneg_finite v = true /\
    Codec.nonneg_finite x = true /\
    ten_thousandths x < 2 ^ 52 /\
    Codec.format_4f x = Codec.format_4f v /\
    channels s1 = channels s /\ hardware s1 = hardware s /\
    reads s1 = reads s ++ [ch] /\
    sent s1 = sent s ++ [Codec.format_4f v].
Proof.
  intros Hr Hch Hhw.
  destruct (Hhw (length (reads s)) ch Hr) as (v & Hv & Hfin & Hbound).
  destruct (served_voltage_state s ch v Hr Hch Hv)
    as (s1 & Hs1 & Hch1 & Hhw1 & Hreads1 & Hsent1).
  destruct (get_adc_voltage_of_reply float_error ascii_error
              (fun request => fst (ClientMain.daemon_peer s request)) ch v
              (daemon_exchange_voltage s ch v Hr Hch Hv) Hfin Hbound)
    as (x & Hget & Hxfin & Hsame & Hfmt).
  rewrite <- Hsame in Hbound.
  exists v, x, s1. unfold ClientMain.query. rewrite Hget.
  change (snd (ClientMain.daemon_peer s (Client.request_bytes ch)))
    with (snd (serve_one (Connects (client_bytes (Client.request_bytes ch))) s)).
  rewrite Hs1. repeat split; assumption.
Qed.

Lemma display_served
      (float_error ascii_error : list Z) (chans : list Z) (s : State) :
  List.Forall (fun ch => 0 <= ch <= 7) chans ->
  channels s = channel_set ->
  always_delivers (hardware s) ->
  exists replies s',
    ClientMain.display PyFloat.py_float float_error ascii_error ClientMain.daemon_peer
      false chans s = (map Codec.codepoints replies, s') /\
    sent s' = sent s ++ replies /\
    reads s' = reads s ++ chans /\
    length replies = length chans /\
    List.Forall (fun r => Codec.is_voltage_text r = true) replies.
Proof.
  intros Hall. revert s.
  induction Hall as [|ch rest Hr _ IH]; intros s Hch Hhw.
  - exists [], s. cbn [ClientMain.display map length].
    rewrite !app_nil_r. repeat split. constructor.
  - destruct (query_served float_error ascii_error ch s Hr Hch Hhw)
      as (v & x & s1 & Hq & Hfin & _ & _ & Hfmt & Hch1 & Hhw1 & Hreads1 & Hsent1).
    destruct (IH s1) as (replies & s' & Hdisp & Hsent & Hreads & Hlen & Htexts).
    { now rewrite Hch1. }
    { now rewrite Hhw1. }
    exists (Codec.format_4f v :: replies), s'.
    cbn [ClientMain.display]. rewrite Hq, Hdisp.
    cbn [Client.printed Client.returned ClientMain.display_line app map length].
    rewrite Hfmt, Hsent, Hreads, Hsent1, Hreads1, <- !app_assoc.
    cbn [app]. repeat split; [congruence|].
    constructor; [|exact Htexts].
    now apply CodecFacts.format_4f_is_voltage_text.
Qed.

(** X17.  One-shot display: when the channel argument is accepted and the
    daemon is serving with hardware that always delivers a sample the ADC
    can report, [adc.py] without [--loop] and [--verbose] returns after
    writing exactly the replies the daemon sent for its queries, one line
    per selected channel and in order, each a four-decimal voltage and
    none an error line; the daemon reads exactly the selected channels, in
    order. *)
Theorem one_shot_prints_the_replies
        (float_error ascii_error green reset_all : list Z)
        (arg chans : list Z) (hwversion : string) (sleeps : nat) (s : State) :
  Client.select_channels arg = Some chans ->
  channels s = channel_set ->
  always_delivers (hardware s) ->
  exists replies s',
    ClientMain.main PyFloat.py_float float_error ascii_error ClientMain.daemon_peer
      green reset_all
      {| ClientMain.channel := arg; ClientMain.verbose := false;
         ClientMain.loop := false; ClientMain.hwversion := hwversion |} sleeps s
    = (ClientMain.Returns,
       concat (map (fun r => ClientMain.print (Codec.codepoints r)) replies), s') /\
    sent s' = sent s ++ replies /\
    reads s' = reads s ++ chans /\
    length replies = length chans /\
    List.Forall (fun r => Codec.is_voltage_text r = true) replies.
Proof.
  intros Hsel Hch Hhw.
  destruct (select_channels_range _ _ Hsel) as [_ Hall].
  destruct (display_served float_error ascii_error chans s Hall Hch Hhw)
    as (replies & s' & Hdisp & Hrest).
  exists replies, s'. split; [|exact Hrest].
  unfold ClientMain.main. cbn [ClientMain.verbose ClientMain.channel ClientMain.loop].
  rewrite Hsel, Hdisp. cbn [app]. now rewrite map_map.
Qed.

Lemma one_shot_prints_the_replies_witness :
  exists replies s',
    ClientMain.main PyFloat.py_float [] [] ClientMain.daemon_peer [] []
      {| ClientMain.channel := Codec.codepoints "all"; ClientMain.verbose := false;
         ClientMain.loop := false; ClientMain.hwversion := "7.1" |} 0 (serving_state 3)
    = (ClientMain.Returns,
       concat (map (fun r => ClientMain.print (Codec.codepoints r)) replies), s') /\
    sent s' = sent (serving_state 3) ++ replies /\
    reads s' = reads (serving_state 3) ++ [0; 1; 2; 3; 4; 5; 6; 7] /\
    length replies = 8%nat /\
    List.Forall (fun r => Codec.is_voltage_text r = true) replies.
Proof.
  apply (one_shot_prints_the_replies [] [] [] [] (Codec.codepoints "all")
           [0; 1; 2; 3; 4; 5; 6; 7] "7.1" 0 (serving_state 3));
    [reflexivity | reflexivity |].
  intros k ch _. exists volts_1_65. split; [reflexivity|].
  split; [reflexivity | vm_compute; reflexivity].
Defined.

(** ** The client's [main] when no daemon listens *)

Lemma query_nobody_listens {W : Type}
      (py_float : list Z -> option spec_float) (float_error ascii_error : list Z)
      (socket : ClientMain.peer W) (msg : string) (ch : Z) (w : W) :
  nobody_listens msg socket ->
  fst (ClientMain.query py_float float_error ascii_error socket ch w)
  = Client.failed (Codec.codepoints msg).
Proof.
  intros Hno. unfold ClientMain.query, Client.get_adc_voltage. cbn [fst].
  now rewrite Hno.
Qed.

Lemma display_nobody_listens {W : Type}
      (py_float : list Z -> option spec_float) (float_error ascii_error : list Z)
      (socket : ClientMain.peer W) (msg : string) (chans : list Z) (w : W) :
  nobody_listens msg socket ->
  concat (map ClientMain.print
            (fst (ClientMain.display py_float float_error ascii_error socket false chans w)))
  = concat (map (failure_report msg) chans).
Proof.
  intros Hno. revert w. induction chans as [|ch rest IH]; intros w; [reflexivity|].
  cbn [ClientMain.display].
  pose proof (query_nobody_listens py_float float_error ascii_error socket msg ch w Hno) as Hq.
  destruct (ClientMain.query py_float float_error ascii_error socket ch w) as [o w1].
  cbn [fst] in Hq. subst o.
  specialize (IH w1).
  destruct (ClientMain.display py_float float_error ascii_error socket false rest w1)
    as [lines w2].
  cbn [fst] in *. cbn [Client.failed Client.printed Client.returned
                       ClientMain.display_line app map concat].
  rewrite IH. unfold failure_report. now rewrite <- app_assoc.
Qed.

(** X18.  One-shot display with no daemon listening: for an accepted
    channel argument [adc.py] still returns normally; for every selected
    channel in turn it writes the communication error and then
    "Error reading channel N", and nothing else. *)
Theorem one_shot_reports_every_failure {W : Type}
        (py_float : list Z -> option spec_float)
        (float_error ascii_error green reset_all : list Z)
        (socket : ClientMain.peer W) (msg : string)
        (arg chans : list Z) (hwversion : string) (sleeps : nat) (w : W) :
  nobody_listens msg socket ->
  Client.select_channels arg = Some chans ->
  fst (ClientMain.main py_float float_error ascii_error socket green reset_all
         {| ClientMain.channel := arg; ClientMain.verbose := false;
            ClientMain.loop := false; ClientMain.hwversion := hwversion |} sleeps w)
  = (ClientMain.Returns, concat (map (failure_report msg) chans)).
Proof.
  intros Hno Hsel. unfold ClientMain.main.
  cbn [ClientMain.verbose ClientMain.channel ClientMain.loop]. rewrite Hsel.
  pose proof (display_nobody_listens py_float float_error ascii_error socket msg chans w Hno)
    as Hd.
  destruct (ClientMain.display py_float float_error ascii_error socket false chans w)
    as [lines w'].
  cbn [fst app] in *. now rewrite Hd.
Qed.

Lemma one_shot_reports_every_failure_witness :
  fst (ClientMain.main (fun _ => None) [] [] (fun (w : unit) _ => (Client.ConnectFails "refused", w))
         [] []
         {| ClientMain.channel := [51]; ClientMain.verbose := false;
            ClientMain.loop := false; ClientMain.hwversion := "7.1" |} 0 tt)
  = (ClientMain.Returns, failure_report "refused" 3 ++ []).
Proof.
  apply (one_shot_reports_every_failure (fun _ => None) [] [] [] []
           (fun (w : unit) _ => (Client.ConnectFails "refused", w)) "refused"
           [51] [3] "7.1" 0 tt);
    [intros w request; reflexivity | reflexivity].
Defined.

Lemma array_index_channel (ch : Z) :
  0 <= ch <= 7 -> ClientMain.array_index 8 ch = Some (Z.to_nat ch).
Proof.
  intros H. unfold ClientMain.array_index.
  destruct (Z.ltb_spec ch 0); [lia|].
  destruct (Z.ltb_spec ch 0); [lia|].
  destruct (Z.leb_spec (Z.of_nat 8) ch); [lia|]. reflexivity.
Qed.

(** X19.  Loop mode does not survive a failed query: with [--loop], if
    the query for the first selected channel returns [None] (no daemon
    listening, a failing socket call, an error reply or a reply that is
    not a number), storing it in the array of readings raises [TypeError],
    which nothing catches: the program ends there instead of polling on,
    whatever the number of sleeps before the interrupt. *)
Theorem loop_mode_dies_on_a_failed_query {W : Type}
        (py_float : list Z -> option spec_float)
        (float_error ascii_error green reset_all : list Z)
        (socket : ClientMain.peer W)
        (a : ClientMain.args) (ch : Z) (rest : list Z) (sleeps : nat) (w : W) :
  ClientMain.loop a = true ->
  Client.select_channels (ClientMain.channel a) = Some (ch :: rest) ->
  Client.returned
    (fst (ClientMain.query py_float float_error ascii_error socket ch w)) = None ->
  fst (fst (ClientMain.main py_float float_error ascii_error socket green reset_all
              a sleeps w))
  = ClientMain.Dies_TypeError.
Proof.
  intros Hloop Hsel Hnone.
  destruct (select_channels_range _ _ Hsel) as [_ Hall].
  inversion Hall as [|? ? Hr _]; subst.
  unfold ClientMain.main. rewrite Hsel, Hloop.
  set (st := {| ClientMain.linecount := 0 |}).
  assert (Hpoll : forall st0 : ClientMain.loop_state,
             ClientMain.world st0 = w ->
             length (ClientMain.thisreading st0) = 8%nat ->
             fst (ClientMain.poll py_float float_error ascii_error socket green reset_all
                    ch st0) = Some ClientMain.Dies_TypeError).
  { intros st0 Hw Hlen. unfold ClientMain.poll. rewrite Hw.
    destruct (ClientMain.query py_float float_error ascii_error socket ch w) as [o w1].
    cbn [fst] in Hnone. unfold ClientMain.setitem.
    cbn [ClientMain.write ClientMain.thisreading].
    rewrite Hlen, array_index_channel, Hnone by assumption. reflexivity. }
  assert (Hloopmode :
            fst (ClientMain.loop_mode py_float float_error ascii_error socket green
                   reset_all a (ch :: rest) sleeps st) = Some ClientMain.Dies_TypeError).
  { destruct sleeps; cbn [ClientMain.loop_mode ClientMain.poll_all];
      (match goal with
       | |- context [ClientMain.poll _ _ _ _ _ _ ch ?s0] =>
         pose proof (Hpoll s0) as Hp;
         destruct (ClientMain.poll py_float float_error ascii_error socket green
                     reset_all ch s0) as [[e|] st1]
       end;
       [ cbn [fst] in Hp |- *; apply Hp; destruct (_ && _); reflexivity
       | exfalso; cbn [fst] in Hp;
         assert (None = Some ClientMain.Dies_TypeError)
           by (apply Hp; destruct (_ && _); reflexivity);
         discriminate ]). }
  destruct (ClientMain.loop_mode py_float float_error ascii_error socket green
              reset_all a (ch :: rest) sleeps st) as [raised st'].
  cbn [fst] in *. now rewrite Hloopmode.
Qed.

Lemma loop_mode_dies_on_a_failed_query_witness :
  fst (fst (ClientMain.main PyFloat.py_float [] []
              (fun (w : unit) _ => (Client.ConnectFails "refused", w)) [] []
              {| ClientMain.channel := Codec.codepoints "all"; ClientMain.verbose := false;
                 ClientMain.loop := true; ClientMain.hwversion := "7.1" |} 5 tt))
  = ClientMain.Dies_TypeError.
Proof.
  apply (loop_mode_dies_on_a_failed_query PyFloat.py_float [] [] [] []
           (fun (w : unit) _ => (Client.ConnectFails "refused", w))
           _ 0 [1; 2; 3; 4; 5; 6; 7] 5 tt);
    reflexivity.
Defined.

(** ** Loop mode against a serving daemon *)

Lemma round_4_shows_the_same (x : spec_float) :
  Codec.nonneg_finite x = true ->
  ten_thousandths x < 2 ^ 52 ->
  Codec.format_4f (ClientMain.round_4 x) = Codec.format_4f x.
Proof.
  intros Hx Hn.
  destruct x as [[|]|[|]| |[|] m e]; try discriminate Hx; [reflexivity|].
  cbn [ClientMain.round_4 ten_thousandths Codec.format_4f] in *.
  pose proof (CodecFacts.scaled_4dp_nonneg m e) as H0.
  destruct (Z.eq_dec (Codec.scaled_4dp m e) 0) as [E|E].
  - rewrite E. reflexivity.
  - destruct (FloatFacts.nearest_four_decimals (Codec.scaled_4dp m e))
      as (m' & e' & Hx' & Hs); [lia|].
    rewrite Hx'. cbn [Codec.format_4f]. now rewrite Hs.
Qed.

Lemma getitem_channel (a : list spec_float) (ch : Z) :
  length a = 8%nat -> 0 <= ch <= 7 ->
  exists x, ClientMain.getitem a ch = inr x /\ a !! Z.to_nat ch = Some x.
Proof.
  intros Hlen Hr. unfold ClientMain.getitem.
  rewrite Hlen, array_index_channel by assumption. cbn [mbind option_bind].
  destruct (lookup_lt_is_Some_2 a (Z.to_nat ch) ltac:(lia)) as [x Hx].
  exists x. now rewrite Hx.
Qed.

Lemma setitem_channel (a : list spec_float) (ch : Z) (x : spec_float) :
  length a = 8%nat -> 0 <= ch <= 7 ->
  ClientMain.setitem a ch (Some x) = inr (<[Z.to_nat ch := x]> a).
Proof.
  intros Hlen Hr. unfold ClientMain.setitem.
  now rewrite Hlen, array_index_channel by assumption.
Qed.

Ltac conjuncts := repeat first [assumption | reflexivity | split].

(** One pass of the loop body against a serving daemon. *)
Lemma poll_served (float_error ascii_error green reset_all : list Z)
      (hw : Hardware) (ch : Z) (st : ClientMain.loop_state) :
  polling hw st -> always_delivers hw -> 0 <= ch <= 7 ->
  exists st' v,
    ClientMain.poll PyFloat.py_float float_error ascii_error ClientMain.daemon_peer
      green reset_all ch st = (None, st') /\
    polling hw st' /\
    ClientMain.linecount st' = ClientMain.linecount st /\
    Codec.nonneg_finite v = true /\
    reads (ClientMain.world st') = reads (ClientMain.world st) ++ [ch] /\
    sent (ClientMain.world st') = sent (ClientMain.world st) ++ [Codec.format_4f v].
Proof.
  intros (Hlast & Hthis & Hch & Hhw) Hdel Hr.
  rewrite <- Hhw in Hdel.
  destruct (query_served float_error ascii_error ch (ClientMain.world st) Hr Hch Hdel)
    as (v & x & s1 & Hq & Hfin & Hxfin & Hxb & Hfmt & Hch1 & Hhw1 & Hreads1 & Hsent1).
  unfold ClientMain.poll. rewrite Hq.
  cbn [Client.printed Client.returned map concat ClientMain.write
       ClientMain.thisreading ClientMain.lastreading ClientMain.linecount
       ClientMain.world ClientMain.output].
  rewrite (setitem_channel _ ch x Hthis Hr).
  destruct (getitem_channel (ClientMain.lastreading st) ch Hlast Hr) as (l & -> & _).
  destruct (getitem_channel (<[Z.to_nat ch := x]> (ClientMain.thisreading st)) ch
              ltac:(now rewrite length_insert) Hr) as (c & -> & _).
  rewrite (setitem_channel _ ch c Hlast Hr).
  eexists _, v. split; [reflexivity|].
  unfold polling.
  cbn [ClientMain.thisreading ClientMain.lastreading ClientMain.linecount
       ClientMain.world ClientMain.output].
  rewrite !length_insert, Hch1, Hhw1.
  conjuncts.
Qed.

Lemma poll_all_served (float_error ascii_error green reset_all : list Z)
      (hw : Hardware) (chans : list Z) (st : ClientMain.loop_state) :
  polling hw st -> always_delivers hw ->
  List.Forall (fun ch => 0 <= ch <= 7) chans ->
  exists st' replies,
    ClientMain.poll_all PyFloat.py_float float_error ascii_error ClientMain.daemon_peer
      green reset_all chans st = (None, st') /\
    polling hw st' /\
    ClientMain.linecount st' = ClientMain.linecount st /\
    reads (ClientMain.world st') = reads (ClientMain.world st) ++ chans /\
    sent (ClientMain.world st') = sent (ClientMain.world st) ++ replies /\
    length replies = length chans /\
    List.Forall (fun r => Codec.is_voltage_text r = true) replies.
Proof.
  intros Hpoll Hdel Hall. revert st Hpoll.
  induction Hall as [|ch rest Hr _ IH]; intros st Hpoll.
  - exists st, []. cbn [ClientMain.poll_all length]. rewrite !app_nil_r.
    conjuncts. constructor.
  - destruct (poll_served float_error ascii_error green reset_all hw ch st Hpoll Hdel Hr)
      as (st1 & v & Hp & Hpoll1 & Hline1 & Hfin & Hreads1 & Hsent1).
    destruct (IH st1 Hpoll1)
      as (st' & replies & Hrest & Hpoll' & Hline & Hreads & Hsent & Hlen & Htexts).
    exists st', (Codec.format_4f v :: replies).
    cbn [ClientMain.poll_all]. rewrite Hp, Hrest.
    rewrite Hline, Hline1, Hreads, Hreads1, Hsent, Hsent1, <- !app_assoc.
    cbn [app length]. conjuncts; [congruence|].
    constructor; [|exact Htexts].
    now apply CodecFacts.format_4f_is_voltage_text.
Qed.

Lemma loop_mode_served (float_error ascii_error green reset_all : list Z)
      (hw : Hardware) (a : ClientMain.args) (chans : list Z) (sleeps : nat)
      (st : ClientMain.loop_state) :
  polling hw st -> always_delivers hw ->
  List.Forall (fun ch => 0 <= ch <= 7) chans ->
  exists st' replies text,
    ClientMain.loop_mode PyFloat.py_float float_error ascii_error ClientMain.daemon_peer
      green reset_all a chans sleeps st = (None, st') /\
    ClientMain.output st'
    = text ++ ClientMain.print (10 :: Codec.codepoints "Exiting loop.") /\
    reads (ClientMain.world st')
    = reads (ClientMain.world st) ++ concat (replicate (S sleeps) chans) /\
    sent (ClientMain.world st') = sent (ClientMain.world st) ++ replies /\
    length replies = (S sleeps * length chans)%nat /\
    List.Forall (fun r => Codec.is_voltage_text r = true) replies.
Proof.
  intros Hpoll Hdel Hall. revert st Hpoll.
  induction sleeps as [|n IH]; intros st Hpoll; cbn [ClientMain.loop_mode].
  - set (st0 := if _ && _ then _ else _).
    assert (Hpoll0 : polling hw st0 /\ ClientMain.world st0 = ClientMain.world st).
    { subst st0. destruct (_ && _); [|now split]. split; [exact Hpoll|reflexivity]. }
    destruct Hpoll0 as [Hpoll0 Hw0].
    destruct (poll_all_served float_error ascii_error green reset_all hw chans st0
                Hpoll0 Hdel Hall)
      as (st1 & replies & Hp & Hpoll1 & _ & Hreads & Hsent & Hlen & Htexts).
    rewrite Hp. eexists _, replies, _. split; [reflexivity|].
    cbn [ClientMain.write ClientMain.output ClientMain.world replicate concat].
    rewrite Hreads, Hsent, Hw0, app_nil_r.
    conjuncts. lia.
  - set (st0 := if _ && _ then _ else _).
    assert (Hpoll0 : polling hw st0 /\ ClientMain.world st0 = ClientMain.world st).
    { subst st0. destruct (_ && _); [|now split]. split; [exact Hpoll|reflexivity]. }
    destruct Hpoll0 as [Hpoll0 Hw0].
    destruct (poll_all_served float_error ascii_error green reset_all hw chans st0
                Hpoll0 Hdel Hall)
      as (st1 & replies & Hp & Hpoll1 & _ & Hreads & Hsent & Hlen & Htexts).
    rewrite Hp.
    match goal with
    | |- context [ClientMain.loop_mode _ _ _ _ _ _ a chans n ?s2] =>
      destruct (IH s2) as (st' & replies' & text & Hl & Hout & Hreads' & Hsent' & Hlen' & Htexts')
    end.
    { exact Hpoll1. }
    exists st', (replies ++ replies'), text. split; [exact Hl|].
    split; [exact Hout|].
    cbn [ClientMain.world] in Hreads', Hsent'.
    rewrite Hreads', Hsent', Hreads, Hsent, Hw0, <- !app_assoc.
    change (concat (replicate (S (S n)) chans)) with (chans ++ concat (replicate (S n) chans)).
    conjuncts.
    + rewrite length_app. lia.
    + apply Forall_app. split; assumption.
Qed.

(** X20.  Loop mode polls until interrupted: with [--loop], an accepted
    channel argument and a serving daemon whose hardware always delivers a
    sample the ADC can report, no reading is ever missing, so the program
    runs until the interrupt, writes "Exiting loop." last and returns; with
    [n] completed sleeps before the interrupt the daemon has read the
    selected channels [n + 1] times over, in order, and answered each
    query with a four-decimal voltage. *)
Theorem loop_mode_polls_until_interrupted
        (float_error ascii_error green reset_all : list Z)
        (a : ClientMain.args) (chans : list Z) (sleeps : nat) (s : State) :
  ClientMain.loop a = true ->
  Client.select_channels (ClientMain.channel a) = Some chans ->
  channels s = channel_set ->
  always_delivers (hardware s) ->
  exists text replies s',
    ClientMain.main PyFloat.py_float float_error ascii_error ClientMain.daemon_peer
      green reset_all a sleeps s
    = (ClientMain.Returns,
       text ++ ClientMain.print (10 :: Codec.codepoints "Exiting loop."), s') /\
    reads s' = reads s ++ concat (replicate (S sleeps) chans) /\
    sent s' = sent s ++ replies /\
    length replies = (S sleeps * length chans)%nat /\
    List.Forall (fun r => Codec.is_voltage_text r = true) replies.
Proof.
  intros Hloop Hsel Hch Hdel.
  destruct (select_channels_range _ _ Hsel) as [_ Hall].
  unfold ClientMain.main. rewrite Hsel, Hloop.
  match goal with
  | |- context [ClientMain.loop_mode _ _ _ _ _ _ a chans sleeps ?s0] =>
    destruct (loop_mode_served float_error ascii_error green reset_all (hardware s)
                a chans sleeps s0)
      as (st' & replies & text & Hl & Hout & Hreads & Hsent & Hlen & Htexts)
  end.
  { conjuncts. }
  { exact Hdel. }
  { exact Hall. }
  rewrite Hl. cbn [default]. rewrite Hout.
  exists text, replies, (ClientMain.world st').
  conjuncts.
Qed.

Lemma loop_mode_polls_until_interrupted_witness :
  exists text replies s',
    ClientMain.main PyFloat.py_float [] [] ClientMain.daemon_peer [] []
      {| ClientMain.channel := [53]; ClientMain.verbose := false;
         ClientMain.loop := true; ClientMain.hwversion := "7.1" |} 2 (serving_state 3)
    = (ClientMain.Returns,
       text ++ ClientMain.print (10 :: Codec.codepoints "Exiting loop."), s') /\
    reads s' = reads (serving_state 3) ++ concat (replicate 3 [5]) /\
    sent s' = sent (serving_state 3) ++ replies /\
    length replies = (3 * 1)%nat /\
    List.Forall (fun r => Codec.is_voltage_text r = true) replies.
Proof.
  apply (loop_mode_polls_until_interrupted [] [] [] []
           {| ClientMain.channel := [53]; ClientMain.verbose := false;
              ClientMain.loop := true; ClientMain.hwversion := "7.1" |}
           [5] 2 (serving_state 3));
    [reflexivity | reflexivity | reflexivity |].
  intros k ch _. exists volts_1_65. split; [reflexivity|].
  split; [reflexivity | vm_compute; reflexivity].
Defined.

(** X21.  Rounding before formatting changes nothing: for a reading that
    is finite, not negative and below 2^52 ten-thousandths of a volt,
    [printvalue] writes the reading's own four-decimal text followed by a
    space and a tab, either plain or between the green and the reset
    sequences, whatever the previous reading was. *)
Theorem printvalue_shows_the_reading
        (green reset_all : list Z) (last current : spec_float) :
  Codec.nonneg_finite current = true ->
  ten_thousandths current < 2 ^ 52 ->
  let text := Codec.codepoints (Codec.format_4f current) ++ [32; 9] in
  ClientMain.printvalue green reset_all last current = text \/
  ClientMain.printvalue green reset_all last current = (green ++ text) ++ reset_all.
Proof.
  intros Hfin Hb text. unfold ClientMain.printvalue.
  rewrite (round_4_shows_the_same current Hfin Hb).
  destruct (match _ with Some g => _ | None => false end); [right|left]; reflexivity.
Qed.

Lemma printvalue_shows_the_reading_witness :
  let text := Codec.codepoints "1.6500" ++ [32; 9] in
  ClientMain.printvalue [27] [28] (S754_zero false) volts_1_65 = text \/
  ClientMain.printvalue [27] [28] (S754_zero false) volts_1_65 = ([27] ++ text) ++ [28].
Proof.
  apply (printvalue_shows_the_reading [27] [28] (S754_zero false) volts_1_65);
    [reflexivity | vm_compute; reflexivity].
Defined.

(** ** What [printvalue] highlights *)

Module Highlight.

Lemma binary_round_aux_signed (s : bool) (m e : Z) (l : location) :
  signed s (binary_round_aux 53 1024 s m e l).
Proof.
  unfold binary_round_aux.
  destruct (shr_fexp 53 1024 m e l) as [mrs' e'].
  destruct (shr_fexp 53 1024 _ e' loc_Exact) as [mrs'' e''].
  destruct (shr_m mrs'') as [|p|p]; cbn [signed]; [reflexivity| |exact I].
  destruct (e'' <=? 1024 - 53); reflexivity.
Qed.

Lemma binary_round_signed (s : bool) (m : positive) (e : Z) :
  signed s (binary_round 53 1024 s m e).
Proof.
  unfold binary_round. destruct (shl_align m e _) as [mz ez].
  apply binary_round_aux_signed.
Qed.

Lemma iter_xO_value (m d : positive) :
  Z.pos (Pos.iter xO m d) = Z.pos m * 2 ^ Z.pos d.
Proof.
  induction d as [|d IH] using Pos.peano_ind.
  - cbn [Pos.iter]. lia.
  - rewrite Pos.iter_succ, Pos2Z.inj_succ, Z.pow_succ_r, Pos2Z.inj_xO, IH by lia. lia.
Qed.

Lemma shl_align_value (m : positive) (e ez : Z) :
  ez <= e -> Z.pos (fst (shl_align m e ez)) = Z.pos m * 2 ^ (e - ez).
Proof.
  intros H. unfold shl_align.
  destruct (ez - e) as [|d|d] eqn:E; try lia; cbn [fst].
  - replace (e - ez) with 0 by lia. lia.
  - replace (e - ez) with (Z.pos d) by lia. apply iter_xO_value.
Qed.

(** Subtracting a number from one that is no greater gives no positive
    number. *)
Lemma SFsub_not_positive (mx : positive) (ex : Z) (my : positive) (ey : Z) :
  le_exact (S754_finite false mx ex) (S754_finite false my ey) ->
  signed true (SFsub 53 1024 (S754_finite false mx ex) (S754_finite false my ey)) \/
  SFsub 53 1024 (S754_finite false mx ex) (S754_finite false my ey) = S754_zero false.
Proof.
  cbn [le_exact]. intros Hle. cbn [SFsub cond_Zopp].
  rewrite <- (shl_align_value mx ex (Z.min ex ey)) in Hle by lia.
  rewrite <- (shl_align_value my ey (Z.min ex ey)) in Hle by lia.
  destruct (Z.pos (shl_align mx ex (Z.min ex ey)).1 - Z.pos (shl_align my ey (Z.min ex ey)).1)
    as [|p|p] eqn:E; cbn [binary_normalize].
  - now right.
  - lia.
  - left. apply binary_round_signed.
Qed.

Lemma SFdiv_signed (x : spec_float) (my : positive) (ey : Z) :
  signed true x -> signed true (SFdiv 53 1024 x (S754_finite false my ey)).
Proof.
  destruct x as [s|s| |s m e]; cbn [signed SFdiv]; intros Hs; subst; try exact I;
    try reflexivity.
  destruct (SFdiv_core_binary _ _ _ _ _ _) as [[mz ez] lz].
  apply binary_round_aux_signed.
Qed.

Lemma SFmul_signed (x : spec_float) (my : positive) (ey : Z) :
  signed true x -> signed true (SFmul 53 1024 x (S754_finite false my ey)).
Proof.
  destruct x as [s|s| |s m e]; cbn [signed SFmul]; intros Hs; subst; try exact I;
    try reflexivity.
  apply binary_round_aux_signed.
Qed.

Lemma not_above_signed (mx : positive) (ex : Z) (g : spec_float) :
  signed true g -> SFltb (S754_finite false mx ex) g = false.
Proof.
  destruct g as [s|s| |s m e]; cbn [signed]; intros Hs; subst; reflexivity.
Qed.

Lemma SFdiv_same (m : positive) (e : Z) :
  SFdiv 53 1024 (S754_finite false m e) (S754_finite false m e)
  = S754_finite false 4503599627370496 (-52).
Proof.
  cbn [SFdiv xorb]. unfold SFdiv_core_binary.
  replace (Zdigits2 (Z.pos m) + e - (Zdigits2 (Z.pos m) + e)) with 0 by lia.
  replace (e - e) with 0 by lia.
  change (Z.min (fexp 53 1024 0) 0) with (-53).
  change (0 - -53) with 53.
  cbv iota beta.
  rewrite Z.shiftl_mul_pow2 by lia.
  pose proof (Z.div_mul (2 ^ 53) (Z.pos m) ltac:(lia)) as Hq.
  pose proof (Z.mod_mul (2 ^ 53) (Z.pos m) ltac:(lia)) as Hr.
  rewrite (Z.mul_comm (2 ^ 53)) in Hq, Hr.
  unfold Z.div, Z.modulo in Hq, Hr.
  destruct (Z.div_eucl (Z.pos m * 2 ^ 53) (Z.pos m)) as [q r].
  cbn [fst snd] in Hq, Hr. subst q r.
  unfold new_location. destruct (Z.even (Z.pos m)); reflexivity.
Qed.

End Highlight.

(** X22.  Falls are never highlighted: when the reading is zero, or is
    positive and no greater than the previous one, [printvalue] writes it
    plain, without the green sequence, however far it fell. *)
Theorem falls_are_not_highlighted
        (green reset_all : list Z) (last current : spec_float) :
  le_exact current last ->
  ClientMain.printvalue green reset_all last current
  = Codec.codepoints (Codec.format_4f (ClientMain.round_4 current)) ++ [32; 9].
Proof.
  intros Hle. unfold ClientMain.printvalue.
  destruct current as [sc|sc| |[|] mc ec]; try contradiction; [reflexivity|].
  destruct last as [sl|sl| |[|] ml el]; try contradiction.
  cbn [ClientMain.gt_0].
  destruct (Highlight.SFsub_not_positive mc ec ml el Hle) as [Hneg|Hzero].
  - unfold ClientMain.float_10, ClientMain.float_100.
    rewrite Highlight.not_above_signed; [reflexivity|].
    apply Highlight.SFmul_signed, Highlight.SFdiv_signed, Hneg.
  - rewrite Hzero. reflexivity.
Qed.

Lemma falls_are_not_highlighted_witness :
  ClientMain.printvalue [27] [28] (S754_finite false 7430939385161318 (-51)) volts_1_65
  = Codec.codepoints "1.6500" ++ [32; 9].
Proof.
  apply (falls_are_not_highlighted [27] [28]
           (S754_finite false 7430939385161318 (-51)) volts_1_65).
  unfold volts_1_65, le_exact. apply Z.leb_le. vm_compute. reflexivity.
Defined.

(** X23.  A first reading is always highlighted: the arrays of readings
    start at 0.0, and against a previous reading of zero every positive
    finite reading counts as a rise of 100 per cent, so [printvalue] writes
    it between the green and the reset sequences. *)
Theorem first_reading_is_highlighted
        (green reset_all : list Z) (sign : bool) (m : positive) (e : Z) :
  ClientMain.printvalue green reset_all (S754_zero sign) (S754_finite false m e)
  = (green
     ++ Codec.codepoints (Codec.format_4f (ClientMain.round_4 (S754_finite false m e)))
     ++ [32; 9])
    ++ reset_all.
Proof.
  unfold ClientMain.printvalue. cbn [ClientMain.gt_0 SFsub].
  rewrite Highlight.SFdiv_same. reflexivity.
Qed.

(** ** A hardware read that fails *)

Lemma channel_set_lookup (ch : Z) :
  0 <= ch <= 7 -> channel_set !! Z.to_nat ch = Some {| ain_pin := ch |}.
Proof.
  intros H.
  assert (ch = 0 \/ ch = 1 \/ ch = 2 \/ ch = 3 \/ ch = 4 \/ ch = 5 \/ ch = 6 \/ ch = 7)
    as Hc by lia.
  repeat destruct Hc as [->|Hc]; try subst ch; reflexivity.
Qed.

Lemma responded_read_fault (s : State) (ch : Z) (cls : exc_class) (msg : string) :
  0 <= ch <= 7 ->
  channels s = channel_set ->
  hw_sample (hardware s) (length (reads s)) ch = ReadFails cls msg ->
  responded (Client.request_bytes ch) s
  = (read_fault_reply cls msg, record_read ch (logged (request_record ch) s)).
Proof.
  intros Hr Hch Hv.
  destruct (request_decodes ch) as (Hdec & Hstrip & Hint).
  unfold responded. rewrite Hdec, Hint.
  replace ((0 <=? ch) && (ch <=? 7)) with true by lia.
  rewrite Hch, channel_set_lookup by assumption. cbn [ain_pin].
  now rewrite Hv.
Qed.

(** X24.  A hardware read that fails is answered, not logged: for a
    request for a channel from 0 to 7 whose sample raises, the daemon sends
    "ERROR: " followed by the exception's text, or "ERROR: Invalid channel
    format" when the exception is a [ValueError], closes the connection and
    goes on without sleeping; the read is on the trace, and the only log
    record is the one for the request: the failure itself is not logged at
    any level. *)
Theorem read_fault_is_answered_not_logged
        (s : State) (ch : Z) (cls : exc_class) (msg : string) :
  0 <= ch <= 7 ->
  channels s = channel_set ->
  hw_sample (hardware s) (length (reads s)) ch = ReadFails cls msg ->
  serve_one (Connects (client (Codec.py_str ch))) s
  = (Ok tt,
     count_close
       (record_sent (read_fault_reply cls msg)
          (record_read ch (logged (request_record ch) (count_accept s))))).
Proof.
  intros Hr Hch Hv.
  assert (Hlen : (length (Client.request_bytes ch) <= 1024)%nat).
  { assert (ch = 0 \/ ch = 1 \/ ch = 2 \/ ch = 3 \/ ch = 4 \/ ch = 5 \/ ch = 6 \/ ch = 7)
      as Hc by lia.
    repeat destruct Hc as [->|Hc]; try subst ch; cbn; lia. }
  pose proof (received_request ch Hlen) as Hrecv.
  destruct (request_decodes ch) as (Hdec & Hstrip & Hint).
  change (client (Codec.py_str ch)) with (client_bytes (Client.request_bytes ch)).
  apply (serve_one_reply s _ (client_bytes (Client.request_bytes ch)) _ eq_refl eq_refl).
  - rewrite Hrecv. eapply parsed_payload_nonempty; [exact Hdec | exact Hint].
  - rewrite Hrecv, respond_run.
    now rewrite (responded_read_fault (count_accept s) ch cls msg Hr Hch Hv).
Qed.

Lemma read_fault_is_answered_not_logged_witness :
  let s := {| loglevel := 3; socket_file := "/tmp/adc-daemon.sock"; channels := channel_set;
              hardware := failing_hardware OSError "SPI transfer failed";
              fs := ∅; handled_signals := []; syslog_out := []; stdout := [];
              stderr := []; reads := []; server := None; accepted := 0; closed := 0;
              sent := []; sleeps := [] |} in
  let s' := snd (serve_one (Connects (client "4")) s) in
  sent s' = ["ERROR: SPI transfer failed"%string] /\
  stdout s' = [request_record 4] /\ reads s' = [4] /\ sleeps s' = [].
Proof.
  intros s s'. subst s'.
  change (client "4") with (client (Codec.py_str 4)).
  rewrite (read_fault_is_answered_not_logged s 4 OSError "SPI transfer failed");
    [|lia|reflexivity|reflexivity].
  repeat split.
Defined.
